(** * fatcat_scholar.issue_db: the SIM issue database loader

    A shallow embedding of [src/fatcat_scholar/issue_db.py] and the
    properties of its ingestion pipeline.

    Conventions of the embedding.
    - A Python [str] is a [string]; each [ascii] stands for one code point
      in U+0000..U+00FF (so the character with code 178 is SUPERSCRIPT TWO,
      not a UTF-8 byte).  Code points above U+00FF are outside the model.
    - A Python value as produced by [json.loads] is a [pyval].  JSON numbers
      with a fraction or an exponent (Python floats) are outside the model.
    - Python exceptions are values of [exn]; a computation returns
      [Ok v] or [Raise e].
    - [json.loads], the catalog API client, the search client and the SQL
      schema file are not part of the sources.  The decoder is a parameter
      of the loader ([loads]); the two clients are oracles passed to the
      entry points as in the source; the schema is a parameter
      ([schema]).  A concrete decoder [json_loads] and a concrete schema
      [issue_db_schema] are provided to run the loader on examples. *)

From Stdlib Require Import ZArith List String Ascii Bool Lia.
Import ListNotations.

Local Open Scope string_scope.
Local Open Scope Z_scope.

Set Warnings "-register-all".

(* ===================================================================== *)
(** ** Python values and exceptions *)

Inductive pyval : Type :=
| PNone
| PBool (b : bool)
| PInt (z : Z)
| PStr (s : string)
| PList (l : list pyval)
| PDict (d : list (string * pyval)).

Inductive exn : Type :=
| JSONDecodeError
| KeyError (key : string)
| TypeError
| AttributeError
| AssertionError
| ValueError
| OverflowError
| ApiException (status : Z)
| ExternalError (what : string)
| OperationalError
| ProgrammingError
| InterfaceError.

Inductive result (A : Type) : Type :=
| Ok (a : A)
| Raise (e : exn).
Arguments Ok {A} a.
Arguments Raise {A} e.

Definition rbind {A B} (r : result A) (f : A -> result B) : result B :=
  match r with
  | Ok a => f a
  | Raise e => Raise e
  end.

(** [bool(v)] *)
Definition py_truthy (v : pyval) : bool :=
  match v with
  | PNone => false
  | PBool b => b
  | PInt z => negb (z =? 0)
  | PStr s => negb (s =? "")%string
  | PList l => match l with [] => false | _ => true end
  | PDict d => match d with [] => false | _ => true end
  end.

Fixpoint dict_lookup (k : string) (d : list (string * pyval)) : option pyval :=
  match d with
  | [] => None
  | (k', v) :: d' => if (k =? k')%string then Some v else dict_lookup k d'
  end.

(** [d[k] = v] on a dict: an existing key keeps its position. *)
Fixpoint dict_set (k : string) (v : pyval) (d : list (string * pyval))
  : list (string * pyval) :=
  match d with
  | [] => [(k, v)]
  | (k', v') :: d' =>
      if (k =? k')%string then (k, v) :: d' else (k', v') :: dict_set k v d'
  end.

(** [v[k]] for a string key [k]. *)
Definition py_subscript (v : pyval) (k : string) : result pyval :=
  match v with
  | PDict d => match dict_lookup k d with
               | Some x => Ok x
               | None => Raise (KeyError k)
               end
  | _ => Raise TypeError
  end.

(** [v.get(k)] *)
Definition py_get (v : pyval) (k : string) : result pyval :=
  match v with
  | PDict d => match dict_lookup k d with
               | Some x => Ok x
               | None => Ok PNone
               end
  | _ => Raise AttributeError
  end.

(** [sub in s] on strings. *)
Fixpoint str_contains (sub s : string) : bool :=
  match s with
  | EmptyString => prefix sub EmptyString
  | String _ s' => prefix sub s || str_contains sub s'
  end.

Definition is_str (k : string) (v : pyval) : bool :=
  match v with
  | PStr s => (s =? k)%string
  | _ => false
  end.

(** [k in v] for a string [k]. *)
Definition py_contains (k : string) (v : pyval) : result bool :=
  match v with
  | PStr s => Ok (str_contains k s)
  | PList l => Ok (existsb (is_str k) l)
  | PDict d => Ok (match dict_lookup k d with Some _ => true | None => false end)
  | _ => Raise TypeError
  end.

Definition string_rev (s : string) : string :=
  string_of_list_ascii (rev (list_ascii_of_string s)).

(** [s.endswith(suffix)] *)
Definition endswith (s suffix : string) : bool :=
  prefix (string_rev suffix) (string_rev s).

(** [s[:n]] *)
Definition str_take (n : nat) (s : string) : string := substring 0 n s.

(* --------------------------------------------------------------------- *)
(** *** [str.isdigit] and [int(str)] on code points below 256 *)

Definition is_ascii_digit (c : ascii) : bool :=
  let n := N_of_ascii c in ((48 <=? n) && (n <=? 57))%N.

(** Numeric_Type=Digit or Decimal: the ASCII digits and the superscripts
    U+00B2, U+00B3, U+00B9. *)
Definition char_isdigit (c : ascii) : bool :=
  is_ascii_digit c ||
  (let n := N_of_ascii c in (n =? 178) || (n =? 179) || (n =? 185))%N.

Definition str_isdigit (s : string) : bool :=
  match list_ascii_of_string s with
  | [] => false
  | l => forallb char_isdigit l
  end.

(** White space accepted around an integer literal: tab..carriage return,
    space, and the non-ASCII spaces U+0085 and U+00A0. *)
Definition is_int_space (c : ascii) : bool :=
  let n := N_of_ascii c in
  (((9 <=? n) && (n <=? 13)) || (n =? 32) || (n =? 133) || (n =? 160))%N.

Definition digit_val (c : ascii) : Z := Z.of_N (N_of_ascii c) - 48.

Fixpoint skip_int_space (l : list ascii) : list ascii :=
  match l with
  | c :: l' => if is_int_space c then skip_int_space l' else l
  | [] => []
  end.

(** Digits with single underscores between them; [after_digit] tells
    whether the previous character was a digit. *)
Fixpoint int_digits (acc : Z) (after_digit : bool) (l : list ascii)
  : option (Z * list ascii) :=
  match l with
  | c :: l' =>
      if is_ascii_digit c then int_digits (acc * 10 + digit_val c) true l'
      else if (N_of_ascii c =? 95)%N then
        (if after_digit then
           match l' with
           | d :: _ => if is_ascii_digit d then int_digits acc false l' else None
           | [] => None
           end
         else None)
      else if after_digit then Some (acc, l) else None
  | [] => if after_digit then Some (acc, []) else None
  end.

Definition int_of_chars (l : list ascii) : option Z :=
  let l1 := skip_int_space l in
  let '(neg, l2) :=
    match l1 with
    | c :: l' => if (N_of_ascii c =? 45)%N then (true, l')
                 else if (N_of_ascii c =? 43)%N then (false, l')
                 else (false, l1)
    | [] => (false, l1)
    end in
  match int_digits 0 false l2 with
  | Some (z, rest) =>
      match skip_int_space rest with
      | [] => Some (if neg then - z else z)
      | _ => None
      end
  | None => None
  end.

(** [int(s)] for a string [s]. *)
Definition int_of_str (s : string) : result Z :=
  match int_of_chars (list_ascii_of_string s) with
  | Some z => Ok z
  | None => Raise ValueError
  end.

(** [int(v)] where [v] is the result of slicing. *)
Definition py_int (v : pyval) : result Z :=
  match v with
  | PStr s => int_of_str s
  | PInt z => Ok z
  | PBool b => Ok (if b then 1 else 0)
  | _ => Raise TypeError
  end.

(** [v[:n]] *)
Definition py_slice_to (n : nat) (v : pyval) : result pyval :=
  match v with
  | PStr s => Ok (PStr (str_take n s))
  | PList l => Ok (PList (firstn n l))
  | _ => Raise TypeError
  end.

(* ===================================================================== *)
(** ** A JSON decoder

    The grammar of [json.loads] restricted to the value model: objects,
    arrays, strings with their escapes, integers, [true], [false] and
    [null], with white space [ \t\n\r] between tokens.  Text that denotes
    a value outside the model (a float, or an escape above U+00FF) is
    reported as a decode error. *)

Definition json_ws (c : ascii) : bool :=
  let n := N_of_ascii c in ((n =? 32) || (n =? 9) || (n =? 10) || (n =? 13))%N.

Fixpoint skip_ws (l : list ascii) : list ascii :=
  match l with
  | c :: l' => if json_ws c then skip_ws l' else l
  | [] => []
  end.

Definition hex_val (c : ascii) : option N :=
  let n := N_of_ascii c in
  if ((48 <=? n) && (n <=? 57))%N then Some (n - 48)%N
  else if ((97 <=? n) && (n <=? 102))%N then Some (n - 87)%N
  else if ((65 <=? n) && (n <=? 70))%N then Some (n - 55)%N
  else None.

Definition ch (n : N) : ascii := ascii_of_N n.

(** The body of a string literal, after the opening quote. *)
Fixpoint scan_string (l : list ascii) : option (string * list ascii) :=
  match l with
  | [] => None
  | c :: l' =>
      let n := N_of_ascii c in
      if (n =? 34)%N then Some (EmptyString, l')
      else if (n <? 32)%N then None
      else if (n =? 92)%N then
        match l' with
        | e :: l'' =>
            let simple (x : N) :=
              match scan_string l'' with
              | Some (s, r) => Some (String (ch x) s, r)
              | None => None
              end in
            match N_of_ascii e with
            | 34%N => simple 34%N
            | 92%N => simple 92%N
            | 47%N => simple 47%N
            | 98%N => simple 8%N
            | 102%N => simple 12%N
            | 110%N => simple 10%N
            | 114%N => simple 13%N
            | 116%N => simple 9%N
            | 117%N =>
                match l'' with
                | h1 :: h2 :: h3 :: h4 :: l3 =>
                    match hex_val h1, hex_val h2, hex_val h3, hex_val h4 with
                    | Some 0%N, Some 0%N, Some a, Some b =>
                        match scan_string l3 with
                        | Some (s, r) => Some (String (ch (16 * a + b)) s, r)
                        | None => None
                        end
                    | _, _, _, _ => None
                    end
                | _ => None
                end
            | _ => None
            end
        | [] => None
        end
      else
        match scan_string l' with
        | Some (s, r) => Some (String c s, r)
        | None => None
        end
  end.

Fixpoint scan_digits (acc : Z) (l : list ascii) : Z * list ascii :=
  match l with
  | c :: l' => if is_ascii_digit c then scan_digits (acc * 10 + digit_val c) l'
               else (acc, l)
  | [] => (acc, [])
  end.

(** An integer literal: [0] or a non-zero digit followed by digits; a
    following [.], [e] or [E] makes it a float or an error. *)
Definition scan_int (l : list ascii) : option (Z * list ascii) :=
  match l with
  | c :: l' =>
      if is_ascii_digit c then
        let '(z, r) := if (N_of_ascii c =? 48)%N then (0, l')
                       else scan_digits (digit_val c) l' in
        match r with
        | d :: _ =>
            let n := N_of_ascii d in
            if ((n =? 46) || (n =? 101) || (n =? 69))%N then None
            else Some (z, r)
        | [] => Some (z, r)
        end
      else None
  | [] => None
  end.

Fixpoint strip_prefix (p l : list ascii) : option (list ascii) :=
  match p, l with
  | [], _ => Some l
  | a :: p', b :: l' => if Ascii.eqb a b then strip_prefix p' l' else None
  | _ :: _, [] => None
  end.

Definition keyword (w : string) (v : pyval) (l : list ascii)
  : option (pyval * list ascii) :=
  match strip_prefix (list_ascii_of_string w) l with
  | Some r => Some (v, r)
  | None => None
  end.

Fixpoint scan_value (fuel : nat) (l : list ascii) {struct fuel}
  : option (pyval * list ascii) :=
  match fuel with
  | O => None
  | S fuel' =>
      match l with
      | [] => None
      | c :: l' =>
          match N_of_ascii c with
          | 34%N => match scan_string l' with
                    | Some (s, r) => Some (PStr s, r)
                    | None => None
                    end
          | 123%N =>
              match skip_ws l' with
              | c2 :: r2 =>
                  if (N_of_ascii c2 =? 125)%N then Some (PDict [], r2)
                  else match scan_members fuel' [] (c2 :: r2) with
                       | Some (d, r) => Some (PDict d, r)
                       | None => None
                       end
              | [] => None
              end
          | 91%N =>
              match skip_ws l' with
              | c2 :: r2 =>
                  if (N_of_ascii c2 =? 93)%N then Some (PList [], r2)
                  else match scan_elements fuel' [] (c2 :: r2) with
                       | Some (vs, r) => Some (PList vs, r)
                       | None => None
                       end
              | [] => None
              end
          | 45%N => match scan_int l' with
                    | Some (z, r) => Some (PInt (- z), r)
                    | None => None
                    end
          | 110%N => keyword "null" PNone l
          | 116%N => keyword "true" (PBool true) l
          | 102%N => keyword "false" (PBool false) l
          | _ => match scan_int l with
                 | Some (z, r) => Some (PInt z, r)
                 | None => None
                 end
          end
      end
  end

(** Members of an object, from the first key; [acc] holds the pairs read
    so far. *)
with scan_members (fuel : nat) (acc : list (string * pyval)) (l : list ascii)
  {struct fuel} : option (list (string * pyval) * list ascii) :=
  match fuel with
  | O => None
  | S fuel' =>
      match l with
      | q :: l1 =>
          if (N_of_ascii q =? 34)%N then
            match scan_string l1 with
            | Some (k, l2) =>
                match skip_ws l2 with
                | colon :: l3 =>
                    if (N_of_ascii colon =? 58)%N then
                      match scan_value fuel' (skip_ws l3) with
                      | Some (v, l4) =>
                          let acc' := dict_set k v acc in
                          match skip_ws l4 with
                          | c :: l5 =>
                              if (N_of_ascii c =? 125)%N then Some (acc', l5)
                              else if (N_of_ascii c =? 44)%N then
                                scan_members fuel' acc' (skip_ws l5)
                              else None
                          | [] => None
                          end
                      | None => None
                      end
                    else None
                | [] => None
                end
            | None => None
            end
          else None
      | [] => None
      end
  end

(** Elements of an array, from the first element. *)
with scan_elements (fuel : nat) (acc : list pyval) (l : list ascii)
  {struct fuel} : option (list pyval * list ascii) :=
  match fuel with
  | O => None
  | S fuel' =>
      match scan_value fuel' l with
      | Some (v, l1) =>
          match skip_ws l1 with
          | c :: l2 =>
              if (N_of_ascii c =? 93)%N then Some ((acc ++ [v])%list, l2)
              else if (N_of_ascii c =? 44)%N then
                scan_elements fuel' (acc ++ [v])%list (skip_ws l2)
              else None
          | [] => None
          end
      | None => None
      end
  end.

(** [json.loads(line)] *)
Definition json_loads (line : string) : result pyval :=
  let l := list_ascii_of_string line in
  match scan_value (2 * List.length l + 2) (skip_ws l) with
  | Some (v, r) => match skip_ws r with
                   | [] => Ok v
                   | _ => Raise JSONDecodeError
                   end
  | None => Raise JSONDecodeError
  end.

(** Test inputs are written with apostrophes in place of the double
    quotes of JSON; [json_text] puts the double quotes back. *)
Definition json_text (s : string) : string :=
  string_of_list_ascii
    (map (fun c => if (N_of_ascii c =? 39)%N then ch 34 else c)
         (list_ascii_of_string s)).

(* ===================================================================== *)
(** ** The SQLite store *)

Inductive sqlval : Type :=
| SNull
| SInt (z : Z)
| SText (s : string).

Definition sql_row := list sqlval.

Inductive table_name : Type := T_sim_pub | T_sim_issue | T_release_counts.

Definition table_name_eqb (a b : table_name) : bool :=
  match a, b with
  | T_sim_pub, T_sim_pub | T_sim_issue, T_sim_issue
  | T_release_counts, T_release_counts => true
  | _, _ => false
  end.

(** What the loader needs to know of a table declared in
    [schema/issue_db.sql]: its number of columns and the positions of the
    columns of its primary key. *)
Record table_schema : Type := {
  n_cols : nat;
  key_cols : list nat
}.

(** Modelled from the spec: [schema/issue_db.sql] is not among the sources.
    The spec gives publications nine fields keyed by [publication_id],
    issues eight fields keyed by [item_id], and release-count snapshots
    five fields keyed by [(publication_id, year, volume)]; columns are in
    the order of the rows' [tuple()]. *)
Definition issue_db_schema (t : table_name) : table_schema :=
  match t with
  | T_sim_pub => {| n_cols := 9; key_cols := [0%nat] |}
  | T_sim_issue => {| n_cols := 8; key_cols := [0%nat] |}
  | T_release_counts => {| n_cols := 5; key_cols := [0%nat; 1%nat; 2%nat] |}
  end.

Record tables : Type := {
  t_sim_pub : list sql_row;
  t_sim_issue : list sql_row;
  t_release_counts : list sql_row
}.

Definition empty_tables : tables :=
  {| t_sim_pub := []; t_sim_issue := []; t_release_counts := [] |}.

Definition get_table (t : table_name) (db : tables) : list sql_row :=
  match t with
  | T_sim_pub => t_sim_pub db
  | T_sim_issue => t_sim_issue db
  | T_release_counts => t_release_counts db
  end.

Definition set_table (t : table_name) (rows : list sql_row) (db : tables)
  : tables :=
  match t with
  | T_sim_pub => {| t_sim_pub := rows; t_sim_issue := t_sim_issue db;
                    t_release_counts := t_release_counts db |}
  | T_sim_issue => {| t_sim_pub := t_sim_pub db; t_sim_issue := rows;
                      t_release_counts := t_release_counts db |}
  | T_release_counts => {| t_sim_pub := t_sim_pub db;
                           t_sim_issue := t_sim_issue db;
                           t_release_counts := rows |}
  end.

(** How [sqlite3] adapts a Python value bound to a placeholder: [None],
    integers that fit in 64 bits (booleans among them) and strings are
    supported; a list or a dict is refused ([InterfaceError], named
    [ProgrammingError] from Python 3.11 on). *)
Definition bind_param (v : pyval) : result sqlval :=
  match v with
  | PNone => Ok SNull
  | PBool b => Ok (SInt (if b then 1 else 0))
  | PInt z => if (- 2 ^ 63 <=? z) && (z <? 2 ^ 63) then Ok (SInt z)
              else Raise OverflowError
  | PStr s => Ok (SText s)
  | PList _ | PDict _ => Raise InterfaceError
  end.

Fixpoint bind_params (vs : list pyval) : result sql_row :=
  match vs with
  | [] => Ok []
  | v :: vs' =>
      rbind (bind_param v) (fun x =>
      rbind (bind_params vs') (fun xs => Ok (x :: xs)))
  end.

(** A value read back from the store. *)
Definition py_of_sql (x : sqlval) : pyval :=
  match x with
  | SNull => PNone
  | SInt z => PInt z
  | SText s => PStr s
  end.

(** The SQL comparison [a = b]: never true on NULL. *)
Definition sql_eqb (a b : sqlval) : bool :=
  match a, b with
  | SInt x, SInt y => x =? y
  | SText x, SText y => (x =? y)%string
  | _, _ => false
  end.

Definition col (i : nat) (r : sql_row) : sqlval := nth i r SNull.

(** Two rows collide when the table has a key and they agree on every key
    column. *)
Definition key_conflict (ks : list nat) (r1 r2 : sql_row) : bool :=
  match ks with
  | [] => false
  | _ => forallb (fun i => sql_eqb (col i r1) (col i r2)) ks
  end.

(** [INSERT OR REPLACE]: the rows that collide with the new one are deleted
    and the new row is added. *)
Definition insert_or_replace (ks : list nat) (r : sql_row)
  (rows : list sql_row) : list sql_row :=
  (filter (fun r' => negb (key_conflict ks r r')) rows ++ [r])%list.

(* ===================================================================== *)
(** ** External services and the state of a run *)

(** The container entity of the catalog client: the attributes the loader
    reads, each optional. *)
Record ContainerEntity : Type := {
  issnl : option string;
  ident : option string;
  wikidata_qid : option string
}.

Inductive event : Type :=
| EvLookupContainer (issnl : pyval)
| EvSelectContainer (sim_pubid : pyval)
| EvIssueCount (container_id : pyval) (year : Z) (volume issue : pyval)
| EvUpsert (t : table_name) (row : sql_row)
| EvCommit.

(** [api.lookup_container(issnl=...)]: answers with an entity or raises
    ([ApiException status] or anything else); the answer may depend on
    what happened before. *)
Definition catalog_api := list event -> pyval -> result ContainerEntity.

(** [Search(...).filter(...).count()] *)
Definition search_client :=
  list event -> pyval -> Z -> pyval -> pyval -> result Z.

(** An [IssueDB] with its connection: the content of the database file
    ([committed]), the content as the connection sees it, uncommitted
    changes included ([working]), the resolver cache, and the history of
    the calls made to the two services and to the store. *)
Record state : Type := {
  committed : tables;
  working : tables;
  pubid2container_map : list (pyval * pyval);
  trace : list event
}.

(** [IssueDB(db_file)] on a database file holding [db]. *)
Definition IssueDB_init (db : tables) : state :=
  {| committed := db; working := db; pubid2container_map := []; trace := [] |}.

Definition log (ev : event) (st : state) : state :=
  {| committed := committed st; working := working st;
     pubid2container_map := pubid2container_map st;
     trace := (trace st ++ [ev])%list |}.

Definition set_working (w : tables) (st : state) : state :=
  {| committed := committed st; working := w;
     pubid2container_map := pubid2container_map st; trace := trace st |}.

Definition set_cache (m : list (pyval * pyval)) (st : state) : state :=
  {| committed := committed st; working := working st;
     pubid2container_map := m; trace := trace st |}.

(** The events that happened between two states of one run. *)
Definition new_events (st st' : state) : list event :=
  skipn (List.length (trace st)) (trace st').

(* --------------------------------------------------------------------- *)
(** *** The monad of the loader: state and exceptions *)

Definition M (A : Type) : Type := state -> result A * state.

Definition ret {A} (a : A) : M A := fun st => (Ok a, st).

Definition raise {A} (e : exn) : M A := fun st => (Raise e, st).

Definition bind {A B} (m : M A) (f : A -> M B) : M B :=
  fun st =>
    match m st with
    | (Ok a, st') => f a st'
    | (Raise e, st') => (Raise e, st')
    end.

Definition lift {A} (r : result A) : M A := fun st => (r, st).

Declare Scope loader_scope.
Delimit Scope loader_scope with loader.
Notation "x <- m ;; k" := (bind m (fun x => k))
  (at level 61, m at next level, right associativity) : loader_scope.
Notation "m ;;; k" := (bind m (fun _ => k))
  (at level 61, right associativity) : loader_scope.
Notation "x <~ r ;; k" := (rbind r (fun x => k))
  (at level 61, r at next level, right associativity) : loader_scope.

Local Open Scope loader_scope.

(** [for x in xs: body(x)] *)
Fixpoint for_each {A} (body : A -> M unit) (xs : list A) : M unit :=
  match xs with
  | [] => ret tt
  | x :: xs' => body x ;;; for_each body xs'
  end.

(** The first error of a comprehension stops it. *)
Fixpoint rmap {A B} (f : A -> result B) (xs : list A) : result (list B) :=
  match xs with
  | [] => Ok []
  | x :: xs' => y <~ f x ;; ys <~ rmap f xs' ;; Ok (y :: ys)
  end.

(* ===================================================================== *)
(** ** The rows *)

Record SimPubRow : Type := {
  sim_pubid : pyval;
  pub_collection : pyval;
  title : pyval;
  issn : pyval;
  pub_type : pyval;
  publisher : pyval;
  container_issnl : pyval;
  container_ident : pyval;
  pub_wikidata_qid : pyval
}.

Definition SimPubRow_tuple (r : SimPubRow) : list pyval :=
  [sim_pubid r; pub_collection r; title r; issn r; pub_type r; publisher r;
   container_issnl r; container_ident r; pub_wikidata_qid r].

Record SimIssueRow : Type := {
  issue_item : string;
  issue_sim_pubid : pyval;
  year : option Z;
  volume : pyval;
  issue : pyval;
  first_page : option Z;
  last_page : option Z;
  release_count : option Z
}.

Definition opt_int (o : option Z) : pyval :=
  match o with Some z => PInt z | None => PNone end.

Definition opt_str (o : option string) : pyval :=
  match o with Some s => PStr s | None => PNone end.

Definition SimIssueRow_tuple (r : SimIssueRow) : list pyval :=
  [PStr (issue_item r); issue_sim_pubid r; opt_int (year r); volume r;
   issue r; opt_int (first_page r); opt_int (last_page r);
   opt_int (release_count r)].

Record ReleaseCountsRow : Type := {
  rc_sim_pubid : string;
  rc_year_in_sim : bool;
  rc_release_count : Z;
  rc_year : option Z;
  rc_volume : option string
}.

Definition ReleaseCountsRow_tuple (r : ReleaseCountsRow) : list pyval :=
  [PStr (rc_sim_pubid r); opt_int (rc_year r); opt_str (rc_volume r);
   PBool (rc_year_in_sim r); PInt (rc_release_count r)].

(** Positions of the columns the loader names in SQL or that the
    properties below talk about. *)
Definition col_sim_pubid : nat := 0.
Definition col_container_issnl : nat := 6.
Definition col_container_ident : nat := 7.
Definition col_wikidata_qid : nat := 8.
Definition col_issue_volume : nat := 3.
Definition col_release_count : nat := 7.

(* --------------------------------------------------------------------- *)
(** *** The resolver cache, a Python dict *)

Definition py_hashable (v : pyval) : bool :=
  match v with
  | PList _ | PDict _ => false
  | _ => true
  end.

Definition key_num (v : pyval) : option Z :=
  match v with
  | PBool b => Some (if b then 1 else 0)
  | PInt z => Some z
  | _ => None
  end.

(** Equality of dict keys: [True == 1] and [False == 0]. *)
Definition py_key_eqb (a b : pyval) : bool :=
  match a, b with
  | PNone, PNone => true
  | PStr x, PStr y => (x =? y)%string
  | _, _ => match key_num a, key_num b with
            | Some x, Some y => x =? y
            | _, _ => false
            end
  end.

Fixpoint cache_lookup (k : pyval) (m : list (pyval * pyval)) : option pyval :=
  match m with
  | [] => None
  | (k', v) :: m' => if py_key_eqb k k' then Some v else cache_lookup k m'
  end.

Fixpoint cache_set (k v : pyval) (m : list (pyval * pyval))
  : list (pyval * pyval) :=
  match m with
  | [] => [(k, v)]
  | (k', v') :: m' =>
      if py_key_eqb k k' then (k', v) :: m' else (k', v') :: cache_set k v m'
  end.

(* ===================================================================== *)
(** ** The page-range extraction and the other pure parts of a record *)

(** Iterating over a value. *)
Definition py_iter (v : pyval) : result (list pyval) :=
  match v with
  | PList l => Ok l
  | PDict d => Ok (map (fun kv => PStr (fst kv)) d)
  | PStr s => Ok (map (fun c => PStr (String c EmptyString))
                      (list_ascii_of_string s))
  | _ => Raise TypeError
  end.

(** [[p['pageNumber'] for p in items if p['pageNumber']]] *)
Fixpoint page_numbers (items : list pyval) : result (list pyval) :=
  match items with
  | [] => Ok []
  | p :: items' =>
      x <~ py_subscript p "pageNumber" ;;
      rest <~ page_numbers items' ;;
      Ok (if py_truthy x then x :: rest else rest)
  end.

(** [[int(p) for p in pages if p.isdigit()]] *)
Fixpoint page_ints (pages : list pyval) : result (list Z) :=
  match pages with
  | [] => Ok []
  | PStr s :: pages' =>
      if str_isdigit s then
        z <~ int_of_str s ;; rest <~ page_ints pages' ;; Ok (z :: rest)
      else page_ints pages'
  | _ :: _ => Raise AttributeError
  end.

Definition list_min (z : Z) (zs : list Z) : Z := fold_left Z.min zs z.
Definition list_max (z : Z) (zs : list Z) : Z := fold_left Z.max zs z.

(** Lines 204-211 of [load_issues]: [(first_page, last_page)]. *)
Definition page_range (obj : pyval) : result (option Z * option Z) :=
  pn <~ py_get obj "page_numbers" ;;
  if py_truthy pn then
    pn' <~ py_subscript obj "page_numbers" ;;
    pl <~ py_subscript pn' "pages" ;;
    items <~ py_iter pl ;;
    pages <~ page_numbers items ;;
    ints <~ page_ints pages ;;
    match ints with
    | [] => Ok (None, None)
    | z :: zs => Ok (Some (list_min z zs), Some (list_max z zs))
    end
  else Ok (None, None).

(** Lines 198-200 of [load_issues]. *)
Definition issue_year (meta : pyval) : result (option Z) :=
  date <~ py_get meta "date" ;;
  if py_truthy date then
    d <~ py_subscript meta "date" ;;
    s <~ py_slice_to 4 d ;;
    y <~ py_int s ;;
    Ok (Some y)
  else Ok None.

(** Lines 161-171 of [load_pubs]. *)
Definition sim_pub_row (meta : pyval) (container : option ContainerEntity)
  : result SimPubRow :=
  a <~ py_subscript meta "sim_pubid" ;;
  b <~ py_subscript meta "identifier" ;;
  c <~ py_subscript meta "title" ;;
  d <~ py_get meta "issn" ;;
  e <~ py_get meta "pub_type" ;;
  f <~ py_get meta "publisher" ;;
  Ok {| sim_pubid := a; pub_collection := b; title := c; issn := d;
        pub_type := e; publisher := f;
        container_issnl :=
          match container with Some x => opt_str (issnl x) | None => PNone end;
        container_ident :=
          match container with Some x => opt_str (ident x) | None => PNone end;
        pub_wikidata_qid :=
          match container with
          | Some x => opt_str (wikidata_qid x)
          | None => PNone
          end |}.

(** What lines 189-211 of [load_issues] compute for a record that is not a
    meta item. *)
Record issue_fields : Type := {
  f_issue_item : string;
  f_sim_pubid : pyval;
  f_year : option Z;
  f_volume : pyval;
  f_issue : pyval;
  f_first_page : option Z;
  f_last_page : option Z
}.

(** [year and volume and issue], as a condition. *)
Definition triple_truthy (y : option Z) (v i : pyval) : bool :=
  py_truthy (opt_int y) && py_truthy v && py_truthy i.

(* ===================================================================== *)
(** ** The loader *)

Section Loader.

(** [json.loads] *)
Variable loads : string -> result pyval.

(** The tables declared by [schema/issue_db.sql]. *)
Variable schema : table_name -> table_schema.

(** [cur.execute("INSERT OR REPLACE INTO t VALUES (?,...,?)", params)]
    with [nvalues] placeholders: the statement is compiled against the
    table, the number of parameters is checked, the parameters are bound,
    and the row is written in the connection's transaction. *)
Definition execute_insert (t : table_name) (nvalues : nat)
  (params : list pyval) : M unit :=
  fun st =>
    if negb (nvalues =? n_cols (schema t))%nat then (Raise OperationalError, st)
    else if negb (List.length params =? nvalues)%nat
    then (Raise ProgrammingError, st)
    else
      match bind_params params with
      | Raise e => (Raise e, st)
      | Ok row =>
          let rows :=
            insert_or_replace (key_cols (schema t)) row
                              (get_table t (working st)) in
          (Ok tt, log (EvUpsert t row)
                      (set_working (set_table t rows (working st)) st))
      end.

Definition insert_sim_pub (pub : SimPubRow) : M unit :=
  execute_insert T_sim_pub 9 (SimPubRow_tuple pub).

Definition insert_sim_issue (issue : SimIssueRow) : M unit :=
  execute_insert T_sim_issue 8 (SimIssueRow_tuple issue).

Definition insert_release_counts (counts : ReleaseCountsRow) : M unit :=
  execute_insert T_release_counts 9 (ReleaseCountsRow_tuple counts).

(** [self.db.commit()] *)
Definition commit : M unit :=
  fun st =>
    (Ok tt,
     log EvCommit
         {| committed := working st; working := working st;
            pubid2container_map := pubid2container_map st;
            trace := trace st |}).

(** [SELECT container_ident FROM sim_pub WHERE sim_pubid = ?] *)
Definition select_container_ident (k : sqlval) (db : tables) : list sqlval :=
  map (col col_container_ident)
      (filter (fun r => sql_eqb (col col_sim_pubid r) k) (t_sim_pub db)).

Definition pubid2container (sim_pubid : pyval) : M pyval :=
  fun st =>
    if negb (py_hashable sim_pubid) then (Raise TypeError, st)
    else
      match cache_lookup sim_pubid (pubid2container_map st) with
      | Some v => (Ok v, st)
      | None =>
          match bind_param sim_pubid with
          | Raise e => (Raise e, st)
          | Ok k =>
              let st1 := log (EvSelectContainer sim_pubid) st in
              let v := match select_container_ident k (working st) with
                       | x :: _ => py_of_sql x
                       | [] => PNone
                       end in
              (Ok v,
               set_cache (cache_set sim_pubid v (pubid2container_map st)) st1)
          end
      end.

(** [es_issue_count(es_client, container_id, year, volume, issue)] *)
Definition es_issue_count (es_client : search_client)
  (container_id : pyval) (year : Z) (volume issue : pyval) : M Z :=
  fun st =>
    (es_client (trace st) container_id year volume issue,
     log (EvIssueCount container_id year volume issue) st).

(** Lines 151-153 and 185-187: the decoded object and its [metadata],
    once the collection marker has been asserted. *)
Definition read_record (line : string) : result (pyval * pyval) :=
  obj <~ loads line ;;
  meta <~ py_subscript obj "metadata" ;;
  coll <~ py_subscript meta "collection" ;;
  marked <~ py_contains "periodicals" coll ;;
  if marked then Ok (obj, meta) else Raise AssertionError.

(** Lines 154-160 of [load_pubs]. *)
Definition try_lookup_container (api : catalog_api) (meta : pyval)
  : M (option ContainerEntity) :=
  v <- lift (py_get meta "issn") ;;
  if py_truthy v then
    i <- lift (py_subscript meta "issn") ;;
    fun st =>
      let st1 := log (EvLookupContainer i) st in
      match api (trace st) i with
      | Ok c => (Ok (Some c), st1)
      | Raise (ApiException status) =>
          if negb (status =? 404) then (Raise (ApiException status), st1)
          else (Ok None, st1)
      | Raise e => (Raise e, st1)
      end
  else ret None.

(** The body of the loop of [load_pubs]. *)
Definition load_pubs_line (api : catalog_api) (line : string) : M unit :=
  if (line =? "")%string then ret tt
  else
    om <- lift (read_record line) ;;
    container <- try_lookup_container api (snd om) ;;
    row <- lift (sim_pub_row (snd om) container) ;;
    insert_sim_pub row.

Definition load_pubs (json_lines : list string) (api : catalog_api)
  : M unit :=
  for_each (load_pubs_line api) json_lines ;;;
  commit.

(** Lines 189-211 of [load_issues]; [None] for a meta item. *)
Definition read_issue (obj meta : pyval) : result (option issue_fields) :=
  item <~ py_subscript meta "identifier" ;;
  match item with
  | PStr issue_item =>
      if endswith issue_item "_index" || endswith issue_item "_contents"
      then Ok None
      else
        sim_pubid <~ py_subscript meta "sim_pubid" ;;
        year <~ issue_year meta ;;
        volume <~ py_get meta "volume" ;;
        issue <~ py_get meta "issue" ;;
        pages <~ page_range obj ;;
        Ok (Some {| f_issue_item := issue_item; f_sim_pubid := sim_pubid;
                    f_year := year; f_volume := volume; f_issue := issue;
                    f_first_page := fst pages; f_last_page := snd pages |})
  | _ => Raise AttributeError
  end.

(** Lines 213-217 of [load_issues]. *)
Definition issue_release_count (es_client : search_client)
  (f : issue_fields) : M (option Z) :=
  match f_year f with
  | Some y =>
      if triple_truthy (f_year f) (f_volume f) (f_issue f) then
        container_id <- pubid2container (f_sim_pubid f) ;;
        if py_truthy container_id then
          n <- es_issue_count es_client container_id y
                              (f_volume f) (f_issue f) ;;
          ret (Some n)
        else ret None
      else ret None
  | None => ret None
  end.

(** The body of the loop of [load_issues]. *)
Definition load_issues_line (es_client : search_client) (line : string)
  : M unit :=
  if (line =? "")%string then ret tt
  else
    om <- lift (read_record line) ;;
    fields <- lift (read_issue (fst om) (snd om)) ;;
    match fields with
    | None => ret tt
    | Some f =>
        count <- issue_release_count es_client f ;;
        insert_sim_issue
          {| issue_item := f_issue_item f; issue_sim_pubid := f_sim_pubid f;
             year := f_year f; volume := f_volume f; issue := f_issue f;
             first_page := f_first_page f; last_page := f_last_page f;
             release_count := count |}
    end.

Definition load_issues (json_lines : list string) (es_client : search_client)
  : M unit :=
  for_each (load_issues_line es_client) json_lines ;;;
  commit.

End Loader.

Arguments pubid2container sim_pubid st : simpl never.
Arguments execute_insert schema t nvalues params st : simpl never.

(* ===================================================================== *)
(** ** Vocabulary of the properties *)

Definition is_commit (e : event) : bool :=
  match e with EvCommit => true | _ => false end.

Definition is_lookup (e : event) : bool :=
  match e with EvLookupContainer _ => true | _ => false end.

Definition is_select (e : event) : bool :=
  match e with EvSelectContainer _ => true | _ => false end.

Definition is_issue_count (e : event) : bool :=
  match e with EvIssueCount _ _ _ _ => true | _ => false end.

Definition is_upsert (e : event) : bool :=
  match e with EvUpsert _ _ => true | _ => false end.

(** How many events of a kind a run produced. *)
Definition count_events (kind : event -> bool) (evs : list event) : nat :=
  List.length (filter kind evs).

(** [st'] continues [st]: the history only grows, by events that all
    satisfy [P]. *)
Definition extends (P : event -> Prop) (st st' : state) : Prop :=
  exists evs, trace st' = (trace st ++ evs)%list /\ Forall P evs.

(** The resolver cache never loses or changes an entry. *)
Definition cache_grows (st st' : state) : Prop :=
  forall k v,
    cache_lookup k (pubid2container_map st) = Some v ->
    cache_lookup k (pubid2container_map st') = Some v.

(** A step inside a batch: nothing is committed, the cache grows and the
    new events satisfy [P]. *)
Definition batch_step (P : event -> Prop) (st st' : state) : Prop :=
  committed st' = committed st /\ cache_grows st st' /\ extends P st st'.

Definition preserves {A} (R : state -> state -> Prop) (m : M A) : Prop :=
  forall st, R st (snd (m st)).

(** The events of the publication pass and of the issue pass. *)
Definition pub_event (e : event) : Prop :=
  is_lookup e = true \/ is_upsert e = true.

Definition issue_event (e : event) : Prop :=
  is_select e = true \/ is_issue_count e = true \/ is_upsert e = true.

(** The states a run goes through after [st]: any sequence of record
    steps of either pass, resolutions and commits. *)
Inductive later (loads : string -> result pyval)
  (schema : table_name -> table_schema) (st : state) : state -> Prop :=
| later_now : later loads schema st st
| later_pub api line st' :
    later loads schema st st' ->
    later loads schema st (snd (load_pubs_line loads schema api line st'))
| later_issue es line st' :
    later loads schema st st' ->
    later loads schema st (snd (load_issues_line loads schema es line st'))
| later_resolve k st' :
    later loads schema st st' ->
    later loads schema st (snd (pubid2container k st'))
| later_commit st' :
    later loads schema st st' ->
    later loads schema st (snd (commit st')).

(** The rows of a table whose first column is the text [k]. *)
Definition rows_of_key (k : string) (rows : list sql_row) : list sql_row :=
  filter (fun r => sql_eqb (col 0 r) (SText k)) rows.

Definition sql_opt (o : option string) : sqlval :=
  match o with Some s => SText s | None => SNull end.

(** A field that is present on a record: anything but [None]. *)
Definition present (v : pyval) : Prop := v <> PNone.

(** The publication id of a publication line that [load_pubs] turns into
    a row, when that id is a string. *)
Definition pub_key (loads : string -> result pyval) (line : string)
  : option string :=
  if (line =? "")%string then None
  else
    match read_record loads line with
    | Ok (_, meta) => match py_subscript meta "sim_pubid" with
                      | Ok (PStr k) => Some k
                      | _ => None
                      end
    | Raise _ => None
    end.

(** The item id of an issue line that [load_issues] turns into a row (so
    not the empty line and not a meta item). *)
Definition issue_key (loads : string -> result pyval) (line : string)
  : option string :=
  if (line =? "")%string then None
  else
    match read_record loads line with
    | Ok (obj, meta) => match read_issue obj meta with
                        | Ok (Some f) => Some (f_issue_item f)
                        | _ => None
                        end
    | Raise _ => None
    end.

(** After the batch that led from [st] to [st'], the database file holds
    exactly one row of table [t] with key [k], and that row is the one of
    the last upsert of the batch. *)
Definition one_row_last_wins (t : table_name) (k : string) (st st' : state)
  : Prop :=
  exists row evs,
    rows_of_key k (get_table t (committed st')) = [row] /\
    new_events st st' = (evs ++ [EvUpsert t row; EvCommit])%list.

(* --------------------------------------------------------------------- *)
(** *** Inputs of the examples *)

Definition entity_abc : ContainerEntity :=
  {| issnl := Some "1234-5678"; ident := Some "abc123"; wikidata_qid := None |}.

Definition entity_full : ContainerEntity :=
  {| issnl := Some "1234-5678"; ident := Some "abc123";
     wikidata_qid := Some "Q42" |}.

(** A catalog that knows one journal and answers 404 otherwise. *)
Definition api_one (c : ContainerEntity) : catalog_api :=
  fun _ v =>
    match v with
    | PStr i => if (i =? "1234-5678")%string then Ok c
                else Raise (ApiException 404)
    | _ => Raise (ApiException 400)
    end.

(** A catalog that always fails with the given status. *)
Definition api_status (status : Z) : catalog_api :=
  fun _ _ => Raise (ApiException status).

(** A search index that counts [n] releases for every query. *)
Definition es_const (n : Z) : search_client := fun _ _ _ _ _ => Ok n.

Definition pub_line : string := json_text
  "{'metadata': {'collection': ['periodicals', 'pub_x'], 'sim_pubid': 'pub_x', 'identifier': 'pub_x_coll', 'title': 'X', 'issn': '1234-5678'}}".

Definition pub_line_unknown : string := json_text
  "{'metadata': {'collection': ['periodicals', 'pub_y'], 'sim_pubid': 'pub_y', 'identifier': 'pub_y_coll', 'title': 'Y', 'issn': '0000-0000'}}".

Definition issue_line : string := json_text
  "{'metadata': {'collection': 'sim_microfilm;periodicals', 'sim_pubid': 'pub_x', 'identifier': 'sim_x_1998-03', 'date': '1998-03', 'volume': '12', 'issue': '3'}, 'page_numbers': {'pages': [{'pageNumber': '12'}, {'pageNumber': 'ii'}, {'pageNumber': ''}, {'pageNumber': '14'}]}}".

Definition issue_line_no_issue : string := json_text
  "{'metadata': {'collection': 'sim_microfilm;periodicals', 'sim_pubid': 'pub_x', 'identifier': 'sim_x_1998-04', 'date': '1998-04', 'volume': '12'}}".

Definition issue_line_empty_volume : string := json_text
  "{'metadata': {'collection': 'sim_microfilm;periodicals', 'sim_pubid': 'pub_x', 'identifier': 'sim_x_1998-05', 'date': '1998-05', 'volume': '', 'issue': '3'}}".

Definition issue_line_roman : string := json_text
  "{'metadata': {'collection': 'sim_microfilm;periodicals', 'sim_pubid': 'pub_x', 'identifier': 'sim_x_1998-06'}, 'page_numbers': {'pages': [{'pageNumber': 'ii'}, {'pageNumber': 'iv'}]}}".

Definition issue_line_superscript : string := json_text
  "{'metadata': {'collection': 'sim_microfilm;periodicals', 'sim_pubid': 'pub_x', 'identifier': 'sim_x_1998-07'}, 'page_numbers': {'pages': [{'pageNumber': '12'}, {'pageNumber': '\u00b2'}]}}".

Definition index_line : string := json_text
  "{'metadata': {'collection': 'sim_microfilm;periodicals', 'sim_pubid': 'pub_x', 'identifier': 'sim_x_1998_index', 'date': '1998', 'volume': '12', 'issue': '3'}}".

Definition newline : string := String (ch 10) EmptyString.

(** A database file in which [pub_x] is resolved to container [abc123]. *)
Definition db_pub_x : tables :=
  {| t_sim_pub :=
       [[SText "pub_x"; SText "pub_x_coll"; SText "X"; SText "1234-5678";
         SNull; SNull; SText "1234-5678"; SText "abc123"; SNull]];
     t_sim_issue := [];
     t_release_counts := [] |}.

Definition run_pubs (lines : list string) (api : catalog_api) (st : state) :=
  load_pubs json_loads issue_db_schema lines api st.

Definition run_issues (lines : list string) (es : search_client) (st : state) :=
  load_issues json_loads issue_db_schema lines es st.

(** What a batch must look like from outside.  [r] is the outcome of the
    entry point started in [st] and [mid] the outcome of its loop over the
    input.  Either the loop consumed the whole input, one commit followed
    and the file holds what the connection saw; or the loop raised, the
    entry point raised the same error, nothing was committed and the file
    is as before. *)
Definition batch_outcome (st : state) (r mid : result unit * state) : Prop :=
  match r with
  | (Ok _, st') =>
      exists st1,
        mid = (Ok tt, st1) /\
        committed st' = working st1 /\
        working st' = working st1 /\
        new_events st st' = (new_events st st1 ++ [EvCommit])%list /\
        count_events is_commit (new_events st st1) = 0%nat /\
        count_events is_commit (new_events st st') = 1%nat
  | (Raise e, st') =>
      mid = (Raise e, st') /\
      committed st' = committed st /\
      count_events is_commit (new_events st st') = 0%nat
  end.

(** [str.isspace] on one character. *)
Definition py_isspace (c : ascii) : bool :=
  let n := N_of_ascii c in
  (((9 <=? n) && (n <=? 13)) || ((28 <=? n) && (n <=? 32)) ||
   (n =? 133) || (n =? 160))%N.

(** A line that is empty or made of white space only. *)
Definition blank (line : string) : bool :=
  forallb py_isspace (list_ascii_of_string line).

(** The reading of blank lines in which every blank line is skipped by
    both entry points, without error and without any effect. *)
Definition skips_blank_lines (loads : string -> result pyval)
  (schema : table_name -> table_schema) : Prop :=
  forall api es line st,
    blank line = true ->
    load_pubs_line loads schema api line st = (Ok tt, st) /\
    load_issues_line loads schema es line st = (Ok tt, st).

(** The value a line of the examples decodes to, and its [metadata]. *)
Definition decoded (line : string) : pyval :=
  match json_loads line with Ok v => v | Raise _ => PNone end.

Definition metadata_of (line : string) : pyval :=
  match py_subscript (decoded line) "metadata" with
  | Ok m => m
  | Raise _ => PNone
  end.

(** The state after [INSERT OR REPLACE] wrote [row] into table [t]. *)
Definition upserted (schema : table_name -> table_schema) (t : table_name)
  (row : sql_row) (st : state) : state :=
  log (EvUpsert t row)
      (set_working
         (set_table t
            (insert_or_replace (key_cols (schema t)) row
                               (get_table t (working st)))
            (working st))
         st).

(** The three resolved columns of a publication row. *)
Definition resolved_columns (row : sql_row) : list sqlval :=
  [col col_container_issnl row; col col_container_ident row;
   col col_wikidata_qid row].

(** The reading of the resolved fields in which they are all populated or
    all absent. *)
Definition all_or_none (row : sql_row) : Prop :=
  Forall (fun x => x <> SNull) (resolved_columns row) \/
  Forall (fun x => x = SNull) (resolved_columns row).

Definition resolved_fields_all_or_none (loads : string -> result pyval)
  (schema : table_name -> table_schema) : Prop :=
  forall lines api st row,
    In (EvUpsert T_sim_pub row)
       (new_events st (snd (load_pubs loads schema lines api st))) ->
    all_or_none row.

(** Container resolution for a publication succeeded in a state when
    [pubid2container] returns a container id there. *)
Definition resolves (k : pyval) (st : state) : Prop :=
  exists c, fst (pubid2container k st) = Ok c /\ present c.

(** ... and the id it returns is truthy. *)
Definition resolved_truthy (k : pyval) (st : state) : bool :=
  match fst (pubid2container k st) with
  | Ok c => py_truthy c
  | Raise _ => false
  end.

(** The reading of the release-count condition in which the query is
    issued exactly when resolution succeeded and year, volume and issue
    are present. *)
Definition release_count_iff_present (loads : string -> result pyval)
  (schema : table_name -> table_schema) : Prop :=
  forall es line obj meta f st,
    line <> "" ->
    read_record loads line = Ok (obj, meta) ->
    read_issue obj meta = Ok (Some f) ->
    (filter is_issue_count
       (new_events st (snd (load_issues_line loads schema es line st))) <> []
     <->
     resolves (f_sim_pubid f) st /\ f_year f <> None /\
     present (f_volume f) /\ present (f_issue f)).

(** The reading of the resolver cache in which a publication ingested
    twice in one batch is looked up in the catalog at most once. *)
Definition at_most_one_lookup_per_publication
  (loads : string -> result pyval) (schema : table_name -> table_schema)
  : Prop :=
  forall api line st,
    (count_events is_lookup
       (new_events st (snd (load_pubs loads schema [line; line] api st)))
     <= 1)%nat.

(** The fields that [read_issue] computes for a line of the examples. *)
Definition fields_of (line : string) : issue_fields :=
  match read_issue (decoded line) (metadata_of line) with
  | Ok (Some f) => f
  | _ => {| f_issue_item := ""; f_sim_pubid := PNone; f_year := None;
            f_volume := PNone; f_issue := PNone; f_first_page := None;
            f_last_page := None |}
  end.

(** *** The page range, in the words of the specification *)

(** A label composed entirely of decimal digits. *)
Definition digit_only (s : string) : bool :=
  negb (s =? "")%string && forallb is_ascii_digit (list_ascii_of_string s).

(** The integer such a label denotes. *)
Definition decimal_value (s : string) : Z :=
  fold_left (fun acc c => acc * 10 + digit_val c) (list_ascii_of_string s) 0.

(** The surviving set: the digit-only labels, parsed. *)
Definition numeric_pages (labels : list string) : list Z :=
  map decimal_value (filter digit_only labels).

(** A label on which [str.isdigit] and "composed of decimal digits"
    agree. *)
Definition plain_label (s : string) : Prop :=
  str_isdigit s = true -> digit_only s = true.

(** A page descriptor with the given [pageNumber]. *)
Definition descriptor (s : string) : pyval := PDict [("pageNumber", PStr s)].

Definition superscript_two : string := String (ch 178) EmptyString.

(* --------------------------------------------------------------------- *)
(** *** Vocabulary of the properties of the passes as a whole *)

(** An upsert into table [t]. *)
Definition upsert_into (t : table_name) (e : event) : bool :=
  match e with
  | EvUpsert t' _ => table_name_eqb t t'
  | _ => false
  end.

(** What the publication pass and the issue pass may do, commit
    included. *)
Definition pub_pass_event (e : event) : bool :=
  is_lookup e || upsert_into T_sim_pub e || is_commit e.

Definition issue_pass_event (e : event) : bool :=
  is_select e || is_issue_count e || upsert_into T_sim_issue e || is_commit e.

(** An issue line that [load_issues] skips as a meta item. *)
Definition is_meta_item (loads : string -> result pyval) (line : string)
  : bool :=
  match read_record loads line with
  | Ok (obj, meta) => match read_issue obj meta with
                      | Ok None => true
                      | _ => false
                      end
  | Raise _ => false
  end.

(** The lines of a batch that are records to persist. *)
Definition pub_records (lines : list string) : list string :=
  filter (fun l => negb (l =? "")%string) lines.

Definition issue_records (loads : string -> result pyval)
  (lines : list string) : list string :=
  filter (fun l => negb (l =? "")%string && negb (is_meta_item loads l)) lines.

(** What the publication pass leaves alone: the issue table, the
    release-count table and the resolver cache; its events are catalog
    calls, upserts into [sim_pub] and commits. *)
Definition pub_frame (st st' : state) : Prop :=
  t_sim_issue (working st') = t_sim_issue (working st) /\
  t_release_counts (working st') = t_release_counts (working st) /\
  pubid2container_map st' = pubid2container_map st /\
  exists evs, trace st' = (trace st ++ evs)%list /\
              forallb pub_pass_event evs = true.

(** What the issue pass leaves alone: the publication table and the
    release-count table; its events are store reads, count queries,
    upserts into [sim_issue] and commits. *)
Definition issue_frame (st st' : state) : Prop :=
  t_sim_pub (working st') = t_sim_pub (working st) /\
  t_release_counts (working st') = t_release_counts (working st) /\
  exists evs, trace st' = (trace st ++ evs)%list /\
              forallb issue_pass_event evs = true.

(* --------------------------------------------------------------------- *)
(** *** The command line *)

(** The parsed arguments of [main]: the subcommand, if any, with its
    [json_file]. *)
Inductive subcommand : Type :=
| no_subcommand
| sub_init_db
| sub_load_pubs (json_file : list string)
| sub_load_issues (json_file : list string).

(** How the process ends: [sys.exit(code)], the end of [main], or an
    exception that nothing catches. *)
Inductive outcome : Type :=
| Exit (code : Z)
| Done
| Uncaught (e : exn).

(** [main()] after [parse_args()], on a database file holding [db_file].
    The two clients it builds are the oracles [api] and [es_client];
    [init_db], which runs the schema file, is a parameter.  The result is
    how the process ends and what the database file holds afterwards:
    what was committed. *)
Definition main (loads : string -> result pyval)
  (schema : table_name -> table_schema) (init_db : M unit)
  (api : catalog_api) (es_client : search_client)
  (args : subcommand) (db_file : tables) : outcome * tables :=
  match args with
  | no_subcommand => (Exit (-1), db_file)
  | _ =>
      let idb := IssueDB_init db_file in
      let '(r, st) :=
        match args with
        | sub_load_pubs json_file => load_pubs loads schema json_file api idb
        | sub_load_issues json_file =>
            load_issues loads schema json_file es_client idb
        | _ => init_db idb
        end in
      (match r with Ok _ => Done | Raise e => Uncaught e end, committed st)
  end.

(** A computation that goes without the resolver cache: started with any
    other cache, it ends the same way in the same state, that cache left
    as it was given. *)
Definition cache_blind {A} (m : M A) : Prop :=
  forall c st, m (set_cache c st) = (fst (m st), set_cache c (snd (m st))).

(* ===================================================================== *)
(** ** The monad and the relations between states *)

Lemma bind_ok {A B} (m : M A) (f : A -> M B) st a st' :
  m st = (Ok a, st') -> bind m f st = f a st'.
Proof. intros H. unfold bind. now rewrite H. Qed.

Lemma bind_raise {A B} (m : M A) (f : A -> M B) st e st' :
  m st = (Raise e, st') -> bind m f st = (Raise e, st').
Proof. intros H. unfold bind. now rewrite H. Qed.

Lemma bind_inv_ok {A B} (m : M A) (f : A -> M B) st b st2 :
  bind m f st = (Ok b, st2) ->
  exists a st1, m st = (Ok a, st1) /\ f a st1 = (Ok b, st2).
Proof.
  unfold bind. destruct (m st) as [[a|e] st1]; intros H.
  - now exists a, st1.
  - discriminate.
Qed.

Lemma lift_bind {A B} (r : result A) (f : A -> M B) st :
  bind (lift r) f st =
  match r with Ok a => f a st | Raise e => (Raise e, st) end.
Proof. unfold bind, lift. now destruct r. Qed.

Lemma for_each_app {A} (body : A -> M unit) xs ys st :
  for_each body (xs ++ ys)%list st =
  bind (for_each body xs) (fun _ => for_each body ys) st.
Proof.
  revert st. induction xs as [|x xs IH]; intros st; simpl.
  - reflexivity.
  - unfold bind in *. destruct (body x st) as [[[]|e] st1].
    + apply IH.
    + reflexivity.
Qed.

Lemma extends_refl P st : extends P st st.
Proof. exists []. split; [now rewrite app_nil_r | constructor]. Qed.

Lemma extends_trans P a b c : extends P a b -> extends P b c -> extends P a c.
Proof.
  intros (e1 & H1 & F1) (e2 & H2 & F2). exists (e1 ++ e2)%list. split.
  - now rewrite H2, H1, app_assoc.
  - apply Forall_app. now split.
Qed.

Lemma extends_weaken (P Q : event -> Prop) st st' :
  (forall e, P e -> Q e) -> extends P st st' -> extends Q st st'.
Proof.
  intros HPQ (evs & H & F). exists evs. split; [assumption|].
  eapply Forall_impl; eauto.
Qed.

Lemma new_events_app st st' evs :
  trace st' = (trace st ++ evs)%list -> new_events st st' = evs.
Proof.
  intros H. unfold new_events. rewrite H, skipn_app, skipn_all, Nat.sub_diag.
  reflexivity.
Qed.

Lemma extends_new_events P st st' :
  extends P st st' ->
  trace st' = (trace st ++ new_events st st')%list /\
  Forall P (new_events st st').
Proof.
  intros (evs & H & F). rewrite (new_events_app _ _ _ H). now split.
Qed.

Lemma new_events_trans P st st1 st2 :
  extends P st st1 -> extends P st1 st2 ->
  new_events st st2 = (new_events st st1 ++ new_events st1 st2)%list.
Proof.
  intros H1 H2.
  destruct (extends_new_events _ _ _ H1) as [E1 _].
  destruct (extends_new_events _ _ _ H2) as [E2 _].
  apply new_events_app. now rewrite E2, E1, app_assoc.
Qed.

Lemma new_events_refl st : new_events st st = [].
Proof. apply new_events_app. now rewrite app_nil_r. Qed.

Lemma cache_grows_refl st : cache_grows st st.
Proof. intros k v H. exact H. Qed.

Lemma cache_grows_trans a b c :
  cache_grows a b -> cache_grows b c -> cache_grows a c.
Proof. intros H1 H2 k v H. apply H2, H1, H. Qed.

Lemma batch_step_refl P st : batch_step P st st.
Proof.
  repeat split; [apply cache_grows_refl | apply extends_refl].
Qed.

Lemma batch_step_trans P a b c :
  batch_step P a b -> batch_step P b c -> batch_step P a c.
Proof.
  intros (C1 & G1 & E1) (C2 & G2 & E2). repeat split.
  - congruence.
  - eapply cache_grows_trans; eauto.
  - eapply extends_trans; eauto.
Qed.

Lemma batch_step_weaken (P Q : event -> Prop) st st' :
  (forall e, P e -> Q e) -> batch_step P st st' -> batch_step Q st st'.
Proof.
  intros HPQ (C & G & E). repeat split; try assumption.
  eapply extends_weaken; eauto.
Qed.

Lemma batch_step_log P ev st : P ev -> batch_step P st (log ev st).
Proof.
  intros H. repeat split.
  - intros k v Hk. exact Hk.
  - exists [ev]. split; [reflexivity | now constructor].
Qed.

Lemma preserves_ret {A} P (a : A) : preserves (batch_step P) (ret a).
Proof. intros st. apply batch_step_refl. Qed.

Lemma preserves_raise {A} P e : preserves (batch_step P) (@raise A e).
Proof. intros st. apply batch_step_refl. Qed.

Lemma preserves_lift {A} P (r : result A) : preserves (batch_step P) (lift r).
Proof. intros st. apply batch_step_refl. Qed.

Lemma preserves_bind {A B} P (m : M A) (f : A -> M B) :
  preserves (batch_step P) m ->
  (forall a, preserves (batch_step P) (f a)) ->
  preserves (batch_step P) (bind m f).
Proof.
  intros Hm Hf st. unfold bind. specialize (Hm st).
  destruct (m st) as [[a|e] st1]; simpl in *.
  - eapply batch_step_trans; [exact Hm | apply Hf].
  - exact Hm.
Qed.

Lemma preserves_for_each {A} P (body : A -> M unit) xs :
  (forall x, preserves (batch_step P) (body x)) ->
  preserves (batch_step P) (for_each body xs).
Proof.
  intros Hb. induction xs as [|x xs IH]; simpl.
  - apply preserves_ret.
  - apply preserves_bind; [apply Hb | intros _; exact IH].
Qed.


(* ===================================================================== *)
(** ** The resolver cache *)

Lemma py_key_eqb_refl k : py_hashable k = true -> py_key_eqb k k = true.
Proof.
  destruct k as [|b|z|s|l|d]; simpl; intros H; try discriminate.
  - reflexivity.
  - apply Z.eqb_refl.
  - apply Z.eqb_refl.
  - apply String.eqb_refl.
Qed.

Lemma cache_set_fresh k v m :
  cache_lookup k m = None -> cache_set k v m = (m ++ [(k, v)])%list.
Proof.
  induction m as [|[k' v'] m IH]; simpl; intros H.
  - reflexivity.
  - destruct (py_key_eqb k k'); [discriminate|]. now rewrite IH.
Qed.

Lemma cache_lookup_app k v m m' :
  cache_lookup k m = Some v -> cache_lookup k (m ++ m')%list = Some v.
Proof.
  induction m as [|[k' v'] m IH]; simpl; intros H.
  - discriminate.
  - destruct (py_key_eqb k k'); [assumption | now apply IH].
Qed.

Lemma cache_lookup_app_none k m m' :
  cache_lookup k m = None ->
  cache_lookup k (m ++ m')%list = cache_lookup k m'.
Proof.
  induction m as [|[k' v'] m IH]; simpl; intros H.
  - reflexivity.
  - destruct (py_key_eqb k k'); [discriminate | now apply IH].
Qed.

Lemma cache_lookup_set_fresh k v m :
  py_hashable k = true -> cache_lookup k m = None ->
  cache_lookup k (cache_set k v m) = Some v.
Proof.
  intros Hk Hm. rewrite (cache_set_fresh _ _ _ Hm).
  rewrite (cache_lookup_app_none _ _ _ Hm). simpl.
  now rewrite (py_key_eqb_refl _ Hk).
Qed.

(** What one call of [pubid2container] does. *)
Lemma pubid2container_cases k st :
  (py_hashable k = false /\ pubid2container k st = (Raise TypeError, st)) \/
  (py_hashable k = true /\ exists v,
     cache_lookup k (pubid2container_map st) = Some v /\
     pubid2container k st = (Ok v, st)) \/
  (py_hashable k = true /\
   cache_lookup k (pubid2container_map st) = None /\
   exists e, bind_param k = Raise e /\ pubid2container k st = (Raise e, st)) \/
  (py_hashable k = true /\
   cache_lookup k (pubid2container_map st) = None /\
   exists x v,
     bind_param k = Ok x /\
     v = match select_container_ident x (working st) with
         | y :: _ => py_of_sql y
         | [] => PNone
         end /\
     pubid2container k st =
       (Ok v, set_cache (pubid2container_map st ++ [(k, v)])%list
                        (log (EvSelectContainer k) st))).
Proof.
  unfold pubid2container.
  destruct (py_hashable k) eqn:Hk; simpl; [|left; now split].
  right. destruct (cache_lookup k (pubid2container_map st)) as [v|] eqn:Hc.
  - left. split; [reflexivity|]. now exists v.
  - right. destruct (bind_param k) as [x|e] eqn:Hb.
    + right. repeat split. eexists x, _. repeat split.
      now rewrite (cache_set_fresh _ _ _ Hc).
    + left. repeat split. now exists e.
Qed.

Lemma pubid2container_step (P : event -> Prop) k :
  (forall k', P (EvSelectContainer k')) ->
  preserves (batch_step P) (pubid2container k).
Proof.
  intros HP st.
  destruct (pubid2container_cases k st)
    as [[_ E]|[(_ & v & _ & E)|[(_ & _ & e & _ & E)|(_ & Hc & x & v & _ & _ & E)]]];
    rewrite E; simpl; try apply batch_step_refl.
  repeat split.
  - intros k' v' H. simpl. now apply cache_lookup_app.
  - exists [EvSelectContainer k]. split; [reflexivity|]. constructor; auto.
Qed.

Lemma pubid2container_ok_cached k st v st1 :
  pubid2container k st = (Ok v, st1) ->
  py_hashable k = true /\ cache_lookup k (pubid2container_map st1) = Some v.
Proof.
  intros H.
  destruct (pubid2container_cases k st)
    as [[_ E]|[(Hk & v' & Hc & E)|[(_ & _ & e & _ & E)|(Hk & Hc & x & v' & _ & _ & E)]]];
    rewrite E in H; inversion H; subst; clear H.
  - now split.
  - split; [assumption|]. simpl.
    rewrite (cache_lookup_app_none _ _ _ Hc). simpl.
    now rewrite (py_key_eqb_refl _ Hk).
Qed.

Lemma pubid2container_cached k st v :
  py_hashable k = true ->
  cache_lookup k (pubid2container_map st) = Some v ->
  pubid2container k st = (Ok v, st).
Proof.
  intros Hk Hc. unfold pubid2container. now rewrite Hk, Hc.
Qed.

(* ===================================================================== *)
(** ** Steps of the two passes *)

Lemma execute_insert_step (P : event -> Prop) schema t n params :
  (forall row, P (EvUpsert t row)) ->
  preserves (batch_step P) (execute_insert schema t n params).
Proof.
  intros HP st. unfold execute_insert.
  destruct (negb (n =? n_cols (schema t))%nat); [apply batch_step_refl|].
  destruct (negb (List.length params =? n)%nat); [apply batch_step_refl|].
  destruct (bind_params params) as [row|e]; [|apply batch_step_refl].
  simpl. repeat split.
  - intros k v H. exact H.
  - exists [EvUpsert t row]. split; [reflexivity|]. constructor; auto.
Qed.

Lemma es_issue_count_step (P : event -> Prop) es c y v i :
  (forall c y v i, P (EvIssueCount c y v i)) ->
  preserves (batch_step P) (es_issue_count es c y v i).
Proof.
  intros HP st. unfold es_issue_count. simpl. now apply batch_step_log.
Qed.

Lemma try_lookup_container_step (P : event -> Prop) api meta :
  (forall i, P (EvLookupContainer i)) ->
  preserves (batch_step P) (try_lookup_container api meta).
Proof.
  intros HP. unfold try_lookup_container.
  apply preserves_bind; [apply preserves_lift|]. intros v.
  destruct (py_truthy v); [|apply preserves_ret].
  apply preserves_bind; [apply preserves_lift|]. intros i st.
  destruct (api (trace st) i) as [c|e]; simpl.
  - now apply batch_step_log.
  - destruct e; simpl; try (now apply batch_step_log).
    destruct (negb (status =? 404)); simpl; now apply batch_step_log.
Qed.

Lemma load_pubs_line_step loads schema api line :
  preserves (batch_step pub_event) (load_pubs_line loads schema api line).
Proof.
  unfold load_pubs_line. destruct (line =? "")%string; [apply preserves_ret|].
  apply preserves_bind; [apply preserves_lift|]. intros om.
  apply preserves_bind.
  { apply try_lookup_container_step. intros i. now left. }
  intros c. apply preserves_bind; [apply preserves_lift|]. intros row.
  apply execute_insert_step. intros r. now right.
Qed.

Lemma issue_release_count_step es f :
  preserves (batch_step issue_event) (issue_release_count es f).
Proof.
  unfold issue_release_count.
  destruct (f_year f) as [y|]; [|apply preserves_ret].
  destruct (triple_truthy _ _ _); [|apply preserves_ret].
  apply preserves_bind.
  { apply pubid2container_step. intros k. now left. }
  intros c. destruct (py_truthy c); [|apply preserves_ret].
  apply preserves_bind; [|intros n; apply preserves_ret].
  apply es_issue_count_step. intros. right. now left.
Qed.

Lemma load_issues_line_step loads schema es line :
  preserves (batch_step issue_event) (load_issues_line loads schema es line).
Proof.
  unfold load_issues_line. destruct (line =? "")%string; [apply preserves_ret|].
  apply preserves_bind; [apply preserves_lift|]. intros om.
  apply preserves_bind; [apply preserves_lift|]. intros [f|];
    [|apply preserves_ret].
  apply preserves_bind; [apply issue_release_count_step|]. intros c.
  apply execute_insert_step. intros r. right. now right.
Qed.

(* ===================================================================== *)
(** ** Counting events *)

Lemma count_events_app kind a b :
  count_events kind (a ++ b)%list =
  (count_events kind a + count_events kind b)%nat.
Proof. unfold count_events. now rewrite filter_app, length_app. Qed.

Lemma count_events_none (P : event -> Prop) kind evs :
  (forall e, P e -> kind e = false) -> Forall P evs ->
  count_events kind evs = 0%nat.
Proof.
  intros HP F. unfold count_events. induction F as [|e evs He F IH]; simpl.
  - reflexivity.
  - now rewrite (HP e He).
Qed.

Lemma pub_event_not_commit e : pub_event e -> is_commit e = false.
Proof. unfold pub_event. destruct e; simpl; intros [H|H]; congruence. Qed.

Lemma issue_event_not_commit e : issue_event e -> is_commit e = false.
Proof. unfold issue_event. destruct e; simpl; intros [H|[H|H]]; congruence. Qed.

Lemma issue_event_not_lookup e : issue_event e -> is_lookup e = false.
Proof. unfold issue_event. destruct e; simpl; intros [H|[H|H]]; congruence. Qed.

(** The shape shared by the two entry points: a loop, then a commit. *)
Lemma loop_then_commit (P : event -> Prop) (body : string -> M unit) lines st :
  (forall e, P e -> is_commit e = false) ->
  (forall line, preserves (batch_step P) (body line)) ->
  batch_outcome st (bind (for_each body lines) (fun _ => commit) st)
                (for_each body lines st).
Proof.
  intros HP Hb.
  pose proof (preserves_for_each P body lines Hb st) as (C & _ & E).
  unfold bind. destruct (for_each body lines st) as [[[]|e] st1]; simpl in *.
  - exists st1. destruct (extends_new_events _ _ _ E) as [Et F].
    assert (Hn : new_events st (log EvCommit
                   {| committed := working st1; working := working st1;
                      pubid2container_map := pubid2container_map st1;
                      trace := trace st1 |})
                 = (new_events st st1 ++ [EvCommit])%list).
    { apply new_events_app. simpl. now rewrite Et at 1; rewrite <- app_assoc. }
    repeat split; try assumption.
    + eapply count_events_none; eauto.
    + rewrite Hn, count_events_app.
      rewrite (count_events_none P is_commit _ HP F). reflexivity.
  - repeat split; [assumption|].
    destruct (extends_new_events _ _ _ E) as [_ F].
    eapply count_events_none; eauto.
Qed.

(** C4. Each entry point commits exactly once, after its loop has consumed
    the whole input without error; when a record raises, the entry point
    raises the same error, no commit happens and the content of the
    database file is what it was before the batch. *)
Theorem C4_commit_once_or_not_at_all loads schema lines api es st :
  batch_outcome st (load_pubs loads schema lines api st)
                (for_each (load_pubs_line loads schema api) lines st) /\
  batch_outcome st (load_issues loads schema lines es st)
                (for_each (load_issues_line loads schema es) lines st).
Proof.
  split.
  - apply (loop_then_commit pub_event).
    + apply pub_event_not_commit.
    + intros line. apply load_pubs_line_step.
  - apply (loop_then_commit issue_event).
    + apply issue_event_not_commit.
    + intros line. apply load_issues_line_step.
Qed.

(* ===================================================================== *)
(** ** The release-count snapshot insert *)

(** C10. [insert_release_counts] fails for every row and every state and
    writes nothing: the row's tuple has five values and the statement
    nine placeholders.  Against a table of nine columns the failure is the
    binding error; against any other table the statement does not even
    compile. *)
Theorem C10_insert_release_counts_always_fails schema counts st :
  List.length (ReleaseCountsRow_tuple counts) = 5%nat /\
  insert_release_counts schema counts st =
    (Raise (if (n_cols (schema T_release_counts) =? 9)%nat
            then ProgrammingError else OperationalError), st).
Proof.
  split; [reflexivity|].
  unfold insert_release_counts, execute_insert.
  rewrite Nat.eqb_sym.
  destruct (n_cols (schema T_release_counts) =? 9)%nat; reflexivity.
Qed.

(* ===================================================================== *)
(** ** Blank lines and meta items *)

Lemma eqb_empty_false line : line <> "" -> (line =? "")%string = false.
Proof. intros H. now apply String.eqb_neq. Qed.

(** The guard of both loops, [if not line: continue], is true of the
    empty string only: the empty line is skipped whatever the decoder, and
    every other line is handed to the decoder, whose error is the error of
    the record. *)
Lemma the_guard_skips_the_empty_line_only loads schema api es st :
  (load_pubs_line loads schema api "" st = (Ok tt, st) /\
   load_issues_line loads schema es "" st = (Ok tt, st)) /\
  (forall line e,
     line <> "" -> loads line = Raise e ->
     load_pubs_line loads schema api line st = (Raise e, st) /\
     load_issues_line loads schema es line st = (Raise e, st)).
Proof.
  split; [split; reflexivity|].
  intros line e Hne Hl.
  unfold load_pubs_line, load_issues_line.
  rewrite (eqb_empty_false _ Hne), !lift_bind.
  unfold read_record. rewrite Hl. simpl. now split.
Qed.

(** C8 at the failing input. A blank line of a file is the line holding
    one newline, not the empty string: the guard lets it through, the
    decoder refuses it, and both entry points raise [JSONDecodeError]
    instead of skipping it.  A run of the command on a file with one
    record followed by a blank line ends with that exception and leaves
    the file as it was - the record before the blank line is lost with the
    batch - while the same file without the blank line is ingested. *)
Theorem C8_blank_line_aborts_the_batch :
  (blank newline = true /\
   run_pubs [newline] (api_status 404) (IssueDB_init db_pub_x)
   = (Raise JSONDecodeError, IssueDB_init db_pub_x) /\
   run_issues [newline] (es_const 0) (IssueDB_init db_pub_x)
   = (Raise JSONDecodeError, IssueDB_init db_pub_x)) /\
  main json_loads issue_db_schema (ret tt) (api_one entity_abc) (es_const 0)
       (sub_load_pubs [(pub_line ++ newline)%string; newline]) empty_tables
  = (Uncaught JSONDecodeError, empty_tables) /\
  fst (main json_loads issue_db_schema (ret tt) (api_one entity_abc)
            (es_const 0) (sub_load_pubs [(pub_line ++ newline)%string])
            empty_tables)
  = Done /\
  ~ skips_blank_lines json_loads issue_db_schema.
Proof.
  split; [repeat split|]. split; [reflexivity|]. split; [reflexivity|].
  intros H.
  destruct (H (api_status 404) (es_const 0) newline (IssueDB_init db_pub_x)
              eq_refl) as [Hp _].
  vm_compute in Hp. discriminate Hp.
Qed.

(** C7. A line whose item identifier ends with [_index] or [_contents]
    leaves the state as it was, so no row is upserted for it: the record is
    skipped when it passes the collection check (and the error of that
    check is raised otherwise), whatever its other fields are. *)
Theorem C7_meta_items_are_not_persisted loads schema es line obj meta item st :
  loads line = Ok obj ->
  py_subscript obj "metadata" = Ok meta ->
  py_subscript meta "identifier" = Ok (PStr item) ->
  endswith item "_index" || endswith item "_contents" = true ->
  load_issues_line loads schema es line st =
    (if (line =? "")%string then Ok tt
     else match read_record loads line with
          | Ok _ => Ok tt
          | Raise e => Raise e
          end, st) /\
  forall rest,
    read_record loads line = Ok (obj, meta) ->
    load_issues loads schema (line :: rest) es st =
    load_issues loads schema rest es st.
Proof.
  intros Hl Hm Hi Hs.
  assert (Hstep : load_issues_line loads schema es line st =
    (if (line =? "")%string then Ok tt
     else match read_record loads line with
          | Ok _ => Ok tt
          | Raise e => Raise e
          end, st)).
  { unfold load_issues_line. destruct (line =? "")%string; [reflexivity|].
    rewrite lift_bind. unfold read_record. rewrite Hl. simpl. rewrite Hm. simpl.
    destruct (py_subscript meta "collection") as [coll|e]; [|reflexivity].
    simpl. destruct (py_contains "periodicals" coll) as [[|]|e];
      try reflexivity.
    simpl. rewrite lift_bind. unfold read_issue. rewrite Hi. simpl.
    now rewrite Hs. }
  split; [exact Hstep|].
  intros rest Hr. unfold load_issues. simpl. unfold bind at 2.
  unfold bind at 1. rewrite Hstep, Hr.
  destruct (line =? "")%string; reflexivity.
Qed.

Lemma C7_meta_items_are_not_persisted_witness :
  json_loads index_line = Ok (decoded index_line) /\
  py_subscript (decoded index_line) "metadata" = Ok (metadata_of index_line) /\
  py_subscript (metadata_of index_line) "identifier"
    = Ok (PStr "sim_x_1998_index") /\
  load_issues_line json_loads issue_db_schema (es_const 42) index_line
    (IssueDB_init db_pub_x) = (Ok tt, IssueDB_init db_pub_x) /\
  run_issues [index_line; issue_line] (es_const 42) (IssueDB_init db_pub_x) =
  run_issues [issue_line] (es_const 42) (IssueDB_init db_pub_x).
Proof.
  assert (Hl : json_loads index_line = Ok (decoded index_line))
    by (vm_compute; reflexivity).
  assert (Hm : py_subscript (decoded index_line) "metadata"
               = Ok (metadata_of index_line)) by (vm_compute; reflexivity).
  assert (Hi : py_subscript (metadata_of index_line) "identifier"
               = Ok (PStr "sim_x_1998_index")) by (vm_compute; reflexivity).
  assert (Hr : read_record json_loads index_line
               = Ok (decoded index_line, metadata_of index_line))
    by (vm_compute; reflexivity).
  destruct (C7_meta_items_are_not_persisted json_loads issue_db_schema
              (es_const 42) index_line _ _ "sim_x_1998_index"
              (IssueDB_init db_pub_x) Hl Hm Hi eq_refl) as [H1 H2].
  split; [exact Hl|]. split; [exact Hm|]. split; [exact Hi|]. split.
  - rewrite H1, Hr. reflexivity.
  - apply H2, Hr.
Defined.

(* ===================================================================== *)
(** ** Container lookup during publication ingestion *)

Lemma py_get_truthy_subscript meta k v :
  py_get meta k = Ok v -> py_truthy v = true -> py_subscript meta k = Ok v.
Proof.
  destruct meta; simpl; try discriminate.
  destruct (dict_lookup k d) as [x|]; intros H Ht; inversion H; subst.
  - reflexivity.
  - discriminate Ht.
Qed.

(** The lookup of lines 154-160 on a record with a truthy [issn]. *)
Lemma try_lookup_container_truthy api meta i st :
  py_get meta "issn" = Ok i -> py_truthy i = true ->
  try_lookup_container api meta st =
    (match api (trace st) i with
     | Ok c => Ok (Some c)
     | Raise (ApiException status) =>
         if status =? 404 then Ok None else Raise (ApiException status)
     | Raise e => Raise e
     end, log (EvLookupContainer i) st).
Proof.
  intros Hg Ht. unfold try_lookup_container.
  rewrite lift_bind, Hg, Ht, lift_bind.
  rewrite (py_get_truthy_subscript _ _ _ Hg Ht).
  destruct (api (trace st) i) as [c|e]; [reflexivity|].
  destruct e; try reflexivity.
  destruct (status =? 404); reflexivity.
Qed.

Lemma try_lookup_container_falsy api meta i st :
  py_get meta "issn" = Ok i -> py_truthy i = false ->
  try_lookup_container api meta st = (Ok None, st).
Proof.
  intros Hg Ht. unfold try_lookup_container.
  now rewrite lift_bind, Hg, Ht.
Qed.

(** One record of [load_pubs], once its container is known. *)
Lemma load_pubs_cons loads schema api line rest obj meta st :
  line <> "" -> read_record loads line = Ok (obj, meta) ->
  load_pubs loads schema (line :: rest) api st =
  match try_lookup_container api meta st with
  | (Ok container, st1) =>
      bind (lift (sim_pub_row meta container)) (fun row =>
      bind (insert_sim_pub schema row) (fun _ =>
      load_pubs loads schema rest api)) st1
  | (Raise e, st1) => (Raise e, st1)
  end.
Proof.
  intros Hne Hr. unfold load_pubs. cbn [for_each].
  unfold load_pubs_line at 1. rewrite (eqb_empty_false _ Hne).
  unfold bind, lift. rewrite Hr. cbn [snd].
  destruct (try_lookup_container api meta st) as [[c|e] st1]; [|reflexivity].
  destruct (sim_pub_row meta c) as [row|e]; [|reflexivity].
  destruct (insert_sim_pub schema row st1) as [[[]|e] st2]; reflexivity.
Qed.

(** C5. On a publication record with a truthy [issn]: when the catalog
    answers 404 the record is built with no container and the batch goes
    on with the next record; when the catalog fails in any other way the
    failure is raised by [load_pubs], right after the lookup, and nothing
    is committed. *)
Theorem C5_not_found_continues_other_failures_abort
  loads schema api line rest obj meta i st :
  line <> "" ->
  read_record loads line = Ok (obj, meta) ->
  py_get meta "issn" = Ok i ->
  py_truthy i = true ->
  (api (trace st) i = Raise (ApiException 404) ->
   load_pubs loads schema (line :: rest) api st =
     bind (lift (sim_pub_row meta None)) (fun row =>
     bind (insert_sim_pub schema row) (fun _ =>
     load_pubs loads schema rest api)) (log (EvLookupContainer i) st)) /\
  (forall e,
     api (trace st) i = Raise e -> e <> ApiException 404 ->
     load_pubs loads schema (line :: rest) api st =
       (Raise e, log (EvLookupContainer i) st) /\
     committed (log (EvLookupContainer i) st) = committed st).
Proof.
  intros Hne Hr Hg Ht.
  pose proof (load_pubs_cons loads schema api line rest obj meta st Hne Hr)
    as Hc.
  rewrite (try_lookup_container_truthy api meta i st Hg Ht) in Hc.
  split.
  - intros Ha. rewrite Ha in Hc. exact Hc.
  - intros e Ha He. rewrite Ha in Hc. split; [|reflexivity].
    rewrite Hc. destruct e; try reflexivity.
    destruct (status =? 404) eqn:Hs; [|reflexivity].
    apply Z.eqb_eq in Hs. subst. now elim He.
Qed.

Lemma C5_not_found_continues_other_failures_abort_witness :
  (run_pubs [pub_line_unknown; pub_line] (api_one entity_abc)
     (IssueDB_init empty_tables) =
   bind (lift (sim_pub_row (metadata_of pub_line_unknown) None)) (fun row =>
   bind (insert_sim_pub issue_db_schema row) (fun _ =>
   run_pubs [pub_line] (api_one entity_abc)))
     (log (EvLookupContainer (PStr "0000-0000")) (IssueDB_init empty_tables)))
  /\
  (run_pubs [pub_line_unknown; pub_line] (api_status 500)
     (IssueDB_init empty_tables) =
   (Raise (ApiException 500),
    log (EvLookupContainer (PStr "0000-0000")) (IssueDB_init empty_tables))).
Proof.
  assert (Hne : pub_line_unknown <> "") by (vm_compute; discriminate).
  assert (Hr : read_record json_loads pub_line_unknown
               = Ok (decoded pub_line_unknown, metadata_of pub_line_unknown))
    by (vm_compute; reflexivity).
  assert (Hg : py_get (metadata_of pub_line_unknown) "issn"
               = Ok (PStr "0000-0000")) by (vm_compute; reflexivity).
  split.
  - apply (proj1 (C5_not_found_continues_other_failures_abort
             json_loads issue_db_schema (api_one entity_abc) pub_line_unknown
             [pub_line] _ _ _ (IssueDB_init empty_tables) Hne Hr Hg eq_refl)).
    reflexivity.
  - apply (proj2 (C5_not_found_continues_other_failures_abort
             json_loads issue_db_schema (api_status 500) pub_line_unknown
             [pub_line] _ _ _ (IssueDB_init empty_tables) Hne Hr Hg eq_refl)
             (ApiException 500)).
    + reflexivity.
    + discriminate.
Defined.

(* ===================================================================== *)
(** ** Rows written by an insert *)

Lemma bind_params_nth vs row :
  bind_params vs = Ok row ->
  forall n v, nth_error vs n = Some v -> bind_param v = Ok (col n row).
Proof.
  revert row. induction vs as [|v0 vs IH]; intros row H n v Hn.
  - destruct n; discriminate Hn.
  - simpl in H. destruct (bind_param v0) as [x|e] eqn:Hx; [|discriminate H].
    simpl in H. destruct (bind_params vs) as [xs|e] eqn:Hxs; [|discriminate H].
    simpl in H. inversion H; subst; clear H.
    destruct n as [|n]; simpl in Hn.
    + inversion Hn; subst. exact Hx.
    + unfold col. simpl. apply (IH xs eq_refl n v Hn).
Qed.

Lemma bind_param_opt_str o : bind_param (opt_str o) = Ok (sql_opt o).
Proof. now destruct o. Qed.

(** A successful [execute_insert] is an upsert of the bound parameters. *)
Lemma execute_insert_ok schema t n params st st' :
  execute_insert schema t n params st = (Ok tt, st') ->
  exists row, bind_params params = Ok row /\ st' = upserted schema t row st.
Proof.
  unfold execute_insert.
  destruct (negb (n =? n_cols (schema t))%nat); [discriminate|].
  destruct (negb (List.length params =? n)%nat); [discriminate|].
  destruct (bind_params params) as [row|e]; [|discriminate].
  intros H. inversion H; subst. now exists row.
Qed.

(** A failed [execute_insert] leaves the state as it was. *)
Lemma execute_insert_raise schema t n params st e st' :
  execute_insert schema t n params st = (Raise e, st') -> st' = st.
Proof.
  unfold execute_insert.
  destruct (negb (n =? n_cols (schema t))%nat); [now inversion 1|].
  destruct (negb (List.length params =? n)%nat); [now inversion 1|].
  destruct (bind_params params) as [row|e']; [discriminate|now inversion 1].
Qed.

Lemma trace_upserted schema t row st :
  trace (upserted schema t row st) = (trace st ++ [EvUpsert t row])%list.
Proof. reflexivity. Qed.

(** The history written by the container lookup of a publication record. *)
Lemma try_lookup_container_trace api meta st :
  exists evs,
    trace (snd (try_lookup_container api meta st)) = (trace st ++ evs)%list /\
    Forall (fun e => is_lookup e = true) evs.
Proof.
  destruct (try_lookup_container_step (fun e => is_lookup e = true) api meta
              (fun i => eq_refl) st) as (_ & _ & evs & H & F).
  now exists evs.
Qed.

(** One successful record of [load_pubs], step by step. *)
Lemma load_pubs_line_ok loads schema api line obj meta st st' :
  line <> "" -> read_record loads line = Ok (obj, meta) ->
  load_pubs_line loads schema api line st = (Ok tt, st') ->
  exists container st1 prow row,
    try_lookup_container api meta st = (Ok container, st1) /\
    sim_pub_row meta container = Ok prow /\
    bind_params (SimPubRow_tuple prow) = Ok row /\
    st' = upserted schema T_sim_pub row st1.
Proof.
  intros Hne Hr. unfold load_pubs_line. rewrite (eqb_empty_false _ Hne).
  rewrite lift_bind, Hr. cbn [snd]. intros H.
  apply bind_inv_ok in H. destruct H as (container & st1 & Hc & H).
  rewrite lift_bind in H. destruct (sim_pub_row meta container) as [prow|e] eqn:Hp;
    [|discriminate H].
  apply execute_insert_ok in H. destruct H as (row & Hb & Hs).
  now exists container, st1, prow, row.
Qed.

Lemma sim_pub_row_fields meta container prow :
  sim_pub_row meta container = Ok prow ->
  py_subscript meta "sim_pubid" = Ok (sim_pubid prow) /\
  container_issnl prow =
    match container with Some x => opt_str (issnl x) | None => PNone end /\
  container_ident prow =
    match container with Some x => opt_str (ident x) | None => PNone end /\
  pub_wikidata_qid prow =
    match container with Some x => opt_str (wikidata_qid x) | None => PNone end.
Proof.
  unfold sim_pub_row.
  destruct (py_subscript meta "sim_pubid") as [a|]; [|discriminate].
  destruct (py_subscript meta "identifier") as [b|]; [|discriminate].
  destruct (py_subscript meta "title") as [c|]; [|discriminate].
  destruct (py_get meta "issn") as [d|]; [|discriminate].
  destruct (py_get meta "pub_type") as [e|]; [|discriminate].
  destruct (py_get meta "publisher") as [f|]; [|discriminate].
  simpl. intros H. inversion H; subst; clear H. simpl. repeat split.
Qed.

(** C6, as the code has it. For the row that a publication record
    upserts: when the lookup gave no container (no [issn], or a 404) the
    three resolved columns are NULL; when it gave an entity, each of the
    three columns holds the entity's attribute of that name, NULL where the
    entity has none.  So a resolved column is non-NULL only after a
    successful lookup. *)
Theorem C6_resolved_columns_come_from_the_entity
  loads schema api line obj meta st st' :
  line <> "" ->
  read_record loads line = Ok (obj, meta) ->
  load_pubs_line loads schema api line st = (Ok tt, st') ->
  exists container row,
    fst (try_lookup_container api meta st) = Ok container /\
    filter is_upsert (new_events st st') = [EvUpsert T_sim_pub row] /\
    In row (t_sim_pub (working st')) /\
    resolved_columns row =
      match container with
      | Some c => [sql_opt (issnl c); sql_opt (ident c);
                   sql_opt (wikidata_qid c)]
      | None => [SNull; SNull; SNull]
      end.
Proof.
  intros Hne Hr Hs.
  destruct (load_pubs_line_ok _ _ _ _ _ _ _ _ Hne Hr Hs)
    as (container & st1 & prow & row & Hc & Hp & Hb & Hst).
  exists container, row. split; [now rewrite Hc|].
  destruct (try_lookup_container_trace api meta st) as (evs & Ht & F).
  rewrite Hc in Ht. cbn [snd] in Ht.
  split; [|split].
  - rewrite (new_events_app st st' (evs ++ [EvUpsert T_sim_pub row])%list).
    + rewrite filter_app. simpl.
      assert (Hn : filter is_upsert evs = []).
      { clear Ht. induction F as [|e evs He F IH]; simpl; [reflexivity|].
        destruct e; simpl in *; try discriminate He. exact IH. }
      now rewrite Hn.
    + subst st'. rewrite trace_upserted, Ht. now rewrite app_assoc.
  - subst st'. simpl. unfold insert_or_replace. apply in_or_app. right.
    now left.
  - destruct (sim_pub_row_fields _ _ _ Hp) as (_ & H6 & H7 & H8).
    unfold resolved_columns.
    pose proof (bind_params_nth _ _ Hb 6 _ eq_refl) as B6.
    pose proof (bind_params_nth _ _ Hb 7 _ eq_refl) as B7.
    pose proof (bind_params_nth _ _ Hb 8 _ eq_refl) as B8.
    rewrite H6 in B6. rewrite H7 in B7. rewrite H8 in B8.
    destruct container as [c|].
    + rewrite bind_param_opt_str in B6, B7, B8.
      unfold col_container_issnl, col_container_ident, col_wikidata_qid.
      congruence.
    + simpl in B6, B7, B8.
      unfold col_container_issnl, col_container_ident, col_wikidata_qid.
      congruence.
Qed.

Lemma C6_resolved_columns_come_from_the_entity_witness :
  exists container row,
    fst (try_lookup_container (api_one entity_abc) (metadata_of pub_line)
           (IssueDB_init empty_tables)) = Ok container /\
    filter is_upsert
      (new_events (IssueDB_init empty_tables)
         (snd (load_pubs_line json_loads issue_db_schema (api_one entity_abc)
                 pub_line (IssueDB_init empty_tables))))
      = [EvUpsert T_sim_pub row] /\
    In row (t_sim_pub (working
         (snd (load_pubs_line json_loads issue_db_schema (api_one entity_abc)
                 pub_line (IssueDB_init empty_tables))))) /\
    resolved_columns row =
      match container with
      | Some c => [sql_opt (issnl c); sql_opt (ident c);
                   sql_opt (wikidata_qid c)]
      | None => [SNull; SNull; SNull]
      end.
Proof.
  apply (C6_resolved_columns_come_from_the_entity json_loads issue_db_schema
           (api_one entity_abc) pub_line (decoded pub_line)
           (metadata_of pub_line) (IssueDB_init empty_tables)).
  - vm_compute. discriminate.
  - vm_compute. reflexivity.
  - vm_compute. reflexivity.
Defined.

(** C6, as stated, fails: the catalog entity of the example has an ISSN-L
    and an identifier but no Wikidata QID, and the row persisted for it has
    two resolved columns populated and one NULL. *)
Lemma C6_all_or_none_counterexample :
  t_sim_pub (committed (snd (run_pubs [pub_line] (api_one entity_abc)
                               (IssueDB_init empty_tables))))
  = [[SText "pub_x"; SText "pub_x_coll"; SText "X"; SText "1234-5678";
      SNull; SNull; SText "1234-5678"; SText "abc123"; SNull]] /\
  ~ resolved_fields_all_or_none json_loads issue_db_schema.
Proof.
  split; [reflexivity|].
  intros H.
  specialize (H [pub_line] (api_one entity_abc) (IssueDB_init empty_tables)
                [SText "pub_x"; SText "pub_x_coll"; SText "X";
                 SText "1234-5678"; SNull; SNull;
                 SText "1234-5678"; SText "abc123"; SNull]).
  assert (Hin : In (EvUpsert T_sim_pub
                  [SText "pub_x"; SText "pub_x_coll"; SText "X";
                   SText "1234-5678"; SNull; SNull;
                   SText "1234-5678"; SText "abc123"; SNull])
                 (new_events (IssueDB_init empty_tables)
                    (snd (load_pubs json_loads issue_db_schema [pub_line]
                            (api_one entity_abc) (IssueDB_init empty_tables))))).
  { vm_compute. right. left. reflexivity. }
  destruct (H Hin) as [F|F]; unfold resolved_columns in F; vm_compute in F.
  - inversion F as [|? ? _ F1]; subst. inversion F1 as [|? ? _ F2]; subst.
    inversion F2 as [|? ? E _]; subst. now apply E.
  - inversion F as [|? ? E _]; subst. discriminate E.
Qed.

(* ===================================================================== *)
(** ** Upsert by key *)

Lemma sql_eqb_sym a b : sql_eqb a b = sql_eqb b a.
Proof.
  destruct a, b; simpl; try reflexivity.
  - apply Z.eqb_sym.
  - apply String.eqb_sym.
Qed.

Lemma get_set_table t rows db : get_table t (set_table t rows db) = rows.
Proof. now destruct t. Qed.

Lemma replaced_rows_lose_key k row rows :
  col 0 row = SText k ->
  rows_of_key k (filter (fun r' => negb (key_conflict [0%nat] row r')) rows)
  = [].
Proof.
  intros Hk. unfold rows_of_key.
  rewrite (filter_ext (fun r' => negb (key_conflict [0%nat] row r'))
                      (fun r' => negb (sql_eqb (SText k) (col 0 r')))).
  2: { intros r'. unfold key_conflict. cbn [forallb].
       now rewrite Hk, andb_true_r. }
  induction rows as [|r rows IH]; cbn [filter]; [reflexivity|].
  destruct (sql_eqb (SText k) (col 0 r)) eqn:E; cbn [negb filter].
  - exact IH.
  - rewrite sql_eqb_sym, E. exact IH.
Qed.

(** After [INSERT OR REPLACE] of a row keyed by its first column, the row
    is the only one of its key. *)
Lemma rows_of_key_upsert k row rows :
  col 0 row = SText k ->
  rows_of_key k (insert_or_replace [0%nat] row rows) = [row].
Proof.
  intros Hk. unfold insert_or_replace, rows_of_key. rewrite filter_app.
  fold (rows_of_key k
          (filter (fun r' => negb (key_conflict [0%nat] row r')) rows)).
  rewrite (replaced_rows_lose_key _ _ _ Hk). cbn [filter app].
  rewrite Hk. simpl. now rewrite String.eqb_refl.
Qed.

(** A loop whose last record ends with an upsert of key [k], followed by
    the commit. *)
Lemma loop_last_wins (P : event -> Prop) schema t k
      (body : string -> M unit) pre line st st' :
  key_cols (schema t) = [0%nat] ->
  (forall x, preserves (batch_step P) (body x)) ->
  (forall sa sb,
     body line sa = (Ok tt, sb) ->
     exists s1 row,
       extends P sa s1 /\ col 0 row = SText k /\
       sb = upserted schema t row s1) ->
  bind (for_each body (pre ++ [line])%list) (fun _ => commit) st = (Ok tt, st') ->
  one_row_last_wins t k st st'.
Proof.
  intros Hkey Hb Hlast H.
  apply bind_inv_ok in H. destruct H as ([] & s2 & Hloop & Hcommit).
  rewrite for_each_app in Hloop. apply bind_inv_ok in Hloop.
  destruct Hloop as ([] & sa & Hpre & Hl). simpl in Hl.
  apply bind_inv_ok in Hl. destruct Hl as ([] & sb & Hline & Hret).
  inversion Hret; subst sb; clear Hret.
  destruct (Hlast _ _ Hline) as (s1 & row & (e1 & Ht1 & _) & Hk & Hs2).
  pose proof (preserves_for_each P body pre Hb st) as (_ & _ & e0 & Ht0 & _).
  rewrite Hpre in Ht0. cbn [snd] in Ht0.
  unfold commit in Hcommit. inversion Hcommit; subst st'; clear Hcommit.
  exists row, (e0 ++ e1)%list. split.
  - simpl. subst s2. simpl. rewrite get_set_table, Hkey.
    now apply rows_of_key_upsert.
  - apply new_events_app. simpl. subst s2. rewrite trace_upserted, Ht1, Ht0.
    now rewrite <- !app_assoc.
Qed.

Lemma load_pubs_line_upsert loads schema api line k sa sb :
  pub_key loads line = Some k ->
  load_pubs_line loads schema api line sa = (Ok tt, sb) ->
  exists s1 row,
    extends pub_event sa s1 /\ col 0 row = SText k /\
    sb = upserted schema T_sim_pub row s1.
Proof.
  unfold pub_key. destruct (line =? "")%string eqn:Hne; [discriminate|].
  apply String.eqb_neq in Hne.
  destruct (read_record loads line) as [[obj meta]|] eqn:Hr; [|discriminate].
  destruct (py_subscript meta "sim_pubid") as [[| | |k'| |]|] eqn:Hk;
    try discriminate.
  intros E Hs. inversion E; subst k'; clear E.
  destruct (load_pubs_line_ok _ _ _ _ _ _ _ _ Hne Hr Hs)
    as (container & s1 & prow & row & Hc & Hp & Hb & Hst).
  exists s1, row. split; [|split; [|exact Hst]].
  - pose proof (try_lookup_container_step pub_event api meta
                  (fun i => or_introl eq_refl) sa) as (_ & _ & E).
    now rewrite Hc in E.
  - destruct (sim_pub_row_fields _ _ _ Hp) as (Hid & _).
    rewrite Hk in Hid. inversion Hid as [Hid'].
    pose proof (bind_params_nth _ _ Hb 0 _ eq_refl) as B.
    cbn [sim_pubid] in B. rewrite <- Hid' in B. simpl in B. congruence.
Qed.

Lemma load_issues_line_upsert loads schema es line k sa sb :
  issue_key loads line = Some k ->
  load_issues_line loads schema es line sa = (Ok tt, sb) ->
  exists s1 row,
    extends issue_event sa s1 /\ col 0 row = SText k /\
    sb = upserted schema T_sim_issue row s1.
Proof.
  unfold issue_key, load_issues_line.
  destruct (line =? "")%string eqn:Hne; [discriminate|].
  destruct (read_record loads line) as [[obj meta]|] eqn:Hr; [|discriminate].
  destruct (read_issue obj meta) as [[f|]|] eqn:Hf; try discriminate.
  intros E Hs. inversion E; subst k; clear E.
  rewrite lift_bind in Hs. cbn [fst snd] in Hs. rewrite lift_bind, Hf in Hs.
  apply bind_inv_ok in Hs. destruct Hs as (count & s1 & Hc & Hi).
  apply execute_insert_ok in Hi. destruct Hi as (row & Hb & Hst).
  exists s1, row. split; [|split; [|exact Hst]].
  - pose proof (issue_release_count_step es f sa) as (_ & _ & E).
    now rewrite Hc in E.
  - pose proof (bind_params_nth _ _ Hb 0 _ eq_refl) as B.
    simpl in B. congruence.
Qed.

(** C9. With the tables keyed by their first column, ingesting a
    publication line twice - in one batch, or in two runs on the same
    database file - leaves exactly one row for its publication id in the
    file, the row upserted last; and the same holds for an issue line and
    its item id. *)
Theorem C9_same_line_twice_one_row_last_write_wins loads schema line k :
  key_cols (schema T_sim_pub) = [0%nat] ->
  key_cols (schema T_sim_issue) = [0%nat] ->
  (pub_key loads line = Some k ->
   (forall api st st2,
      load_pubs loads schema [line; line] api st = (Ok tt, st2) ->
      one_row_last_wins T_sim_pub k st st2) /\
   (forall api1 api2 st st1 st2,
      load_pubs loads schema [line] api1 st = (Ok tt, st1) ->
      load_pubs loads schema [line] api2 (IssueDB_init (committed st1))
        = (Ok tt, st2) ->
      one_row_last_wins T_sim_pub k (IssueDB_init (committed st1)) st2)) /\
  (issue_key loads line = Some k ->
   (forall es st st2,
      load_issues loads schema [line; line] es st = (Ok tt, st2) ->
      one_row_last_wins T_sim_issue k st st2) /\
   (forall es1 es2 st st1 st2,
      load_issues loads schema [line] es1 st = (Ok tt, st1) ->
      load_issues loads schema [line] es2 (IssueDB_init (committed st1))
        = (Ok tt, st2) ->
      one_row_last_wins T_sim_issue k (IssueDB_init (committed st1)) st2)).
Proof.
  intros Kp Ki. split; intros Hk; split.
  - intros api st st2 H.
    apply (loop_last_wins pub_event schema T_sim_pub k
             (load_pubs_line loads schema api) [line] line st st2 Kp).
    + intros x. apply load_pubs_line_step.
    + intros sa sb. now apply load_pubs_line_upsert.
    + exact H.
  - intros api1 api2 st st1 st2 _ H.
    apply (loop_last_wins pub_event schema T_sim_pub k
             (load_pubs_line loads schema api2) [] line _ st2 Kp).
    + intros x. apply load_pubs_line_step.
    + intros sa sb. now apply load_pubs_line_upsert.
    + exact H.
  - intros es st st2 H.
    apply (loop_last_wins issue_event schema T_sim_issue k
             (load_issues_line loads schema es) [line] line st st2 Ki).
    + intros x. apply load_issues_line_step.
    + intros sa sb. now apply load_issues_line_upsert.
    + exact H.
  - intros es1 es2 st st1 st2 _ H.
    apply (loop_last_wins issue_event schema T_sim_issue k
             (load_issues_line loads schema es2) [] line _ st2 Ki).
    + intros x. apply load_issues_line_step.
    + intros sa sb. now apply load_issues_line_upsert.
    + exact H.
Qed.

Lemma C9_same_line_twice_one_row_last_write_wins_witness :
  one_row_last_wins T_sim_pub "pub_x" (IssueDB_init empty_tables)
    (snd (run_pubs [pub_line; pub_line] (api_one entity_abc)
            (IssueDB_init empty_tables))) /\
  one_row_last_wins T_sim_issue "sim_x_1998-03"
    (IssueDB_init (committed
       (snd (run_issues [issue_line] (es_const 7) (IssueDB_init db_pub_x)))))
    (snd (run_issues [issue_line] (es_const 42)
       (IssueDB_init (committed
          (snd (run_issues [issue_line] (es_const 7)
                  (IssueDB_init db_pub_x))))))).
Proof.
  split.
  - destruct (C9_same_line_twice_one_row_last_write_wins json_loads
                issue_db_schema pub_line "pub_x" eq_refl eq_refl) as [Hp _].
    apply (proj1 (Hp eq_refl) (api_one entity_abc)).
    vm_compute. reflexivity.
  - destruct (C9_same_line_twice_one_row_last_write_wins json_loads
                issue_db_schema issue_line "sim_x_1998-03" eq_refl eq_refl)
      as [_ Hi].
    apply (proj2 (Hi eq_refl) (es_const 7) (es_const 42)
                 (IssueDB_init db_pub_x)
                 (snd (run_issues [issue_line] (es_const 7)
                         (IssueDB_init db_pub_x)))).
    + vm_compute. reflexivity.
    + vm_compute. reflexivity.
Defined.

(* ===================================================================== *)
(** ** The release count of an issue *)

Lemma filter_none (P : event -> Prop) kind evs :
  (forall e, P e -> kind e = false) -> Forall P evs -> filter kind evs = [].
Proof.
  intros HP F. induction F as [|e evs He F IH]; simpl; [reflexivity|].
  now rewrite (HP e He).
Qed.

Lemma select_not_issue_count e : is_select e = true -> is_issue_count e = false.
Proof. destruct e; simpl; congruence. Qed.

Lemma pubid2container_trace k st :
  exists evs,
    trace (snd (pubid2container k st)) = (trace st ++ evs)%list /\
    Forall (fun e => is_select e = true) evs.
Proof.
  destruct (pubid2container_step (fun e => is_select e = true) k
              (fun _ => eq_refl) st) as (_ & _ & evs & H & F).
  now exists evs.
Qed.

Lemma load_issues_line_unfold loads schema es line obj meta f st :
  line <> "" ->
  read_record loads line = Ok (obj, meta) ->
  read_issue obj meta = Ok (Some f) ->
  load_issues_line loads schema es line st =
  bind (issue_release_count es f) (fun count =>
    insert_sim_issue schema
      {| issue_item := f_issue_item f; issue_sim_pubid := f_sim_pubid f;
         year := f_year f; volume := f_volume f; issue := f_issue f;
         first_page := f_first_page f; last_page := f_last_page f;
         release_count := count |}) st.
Proof.
  intros Hne Hr Hf. unfold load_issues_line.
  rewrite (eqb_empty_false _ Hne), lift_bind, Hr. cbn [fst snd].
  now rewrite lift_bind, Hf.
Qed.

(** The query is issued: the condition of line 214 holds and the
    container id is truthy. *)
Lemma issue_release_count_on es f st :
  triple_truthy (f_year f) (f_volume f) (f_issue f)
  && resolved_truthy (f_sim_pubid f) st = true ->
  exists c y s1,
    pubid2container (f_sim_pubid f) st = (Ok c, s1) /\
    f_year f = Some y /\
    issue_release_count es f st =
      (match es (trace s1) c y (f_volume f) (f_issue f) with
       | Ok n => Ok (Some n)
       | Raise e => Raise e
       end, log (EvIssueCount c y (f_volume f) (f_issue f)) s1).
Proof.
  intros H. apply andb_true_iff in H. destruct H as [Ht Hr].
  unfold resolved_truthy in Hr. unfold issue_release_count. rewrite Ht.
  destruct (f_year f) as [y|] eqn:Hy; [|discriminate Ht].
  destruct (pubid2container (f_sim_pubid f) st) as [[c|e] s1] eqn:Hp;
    simpl in Hr; [|discriminate Hr].
  exists c, y, s1. repeat split.
  unfold bind. rewrite Hp, Hr. unfold es_issue_count, ret.
  destruct (es (trace s1) c y (f_volume f) (f_issue f)); reflexivity.
Qed.

(** The query is not issued. *)
Lemma issue_release_count_off es f st :
  triple_truthy (f_year f) (f_volume f) (f_issue f)
  && resolved_truthy (f_sim_pubid f) st = false ->
  exists r s1 evs,
    issue_release_count es f st = (r, s1) /\
    (r = Ok None \/ exists e, r = Raise e) /\
    trace s1 = (trace st ++ evs)%list /\
    Forall (fun e => is_select e = true) evs.
Proof.
  intros H. unfold issue_release_count.
  destruct (f_year f) as [y|] eqn:Hy.
  2: { exists (Ok None), st, []. rewrite app_nil_r. repeat split; auto. }
  destruct (triple_truthy (Some y) (f_volume f) (f_issue f)) eqn:Ht.
  2: { exists (Ok None), st, []. rewrite app_nil_r. repeat split; auto. }
  simpl in H. unfold resolved_truthy in H.
  destruct (pubid2container_trace (f_sim_pubid f) st) as (evs & Htr & F).
  unfold bind.
  destruct (pubid2container (f_sim_pubid f) st) as [[c|e] s1] eqn:Hp;
    simpl in H, Htr.
  - rewrite H. exists (Ok None), s1, evs. repeat split; auto.
  - exists (Raise e), s1, evs. repeat split; eauto.
Qed.

Lemma insert_sim_issue_trace schema r st :
  snd (insert_sim_issue schema r st) = st \/
  exists row,
    bind_params (SimIssueRow_tuple r) = Ok row /\
    snd (insert_sim_issue schema r st) = upserted schema T_sim_issue row st.
Proof.
  unfold insert_sim_issue.
  destruct (execute_insert schema T_sim_issue 8 (SimIssueRow_tuple r) st)
    as [[[]|e] s1] eqn:E.
  - right. apply execute_insert_ok in E. destruct E as (row & Hb & Hs).
    exists row. now split.
  - left. apply execute_insert_raise in E. exact E.
Qed.

(** C1, as the code has it. For an issue record that reaches line 213:
    when year, volume and issue are truthy (a non-zero year, a non-empty
    volume and issue) and [pubid2container] returns a truthy container id,
    exactly one count query is issued, filtered on that container id and
    on the record's year, volume and issue; otherwise no query is issued
    and a row persisted for the record has a NULL [release_count]. *)
Theorem C1_release_count_query_iff_truthy loads schema es line obj meta f st :
  line <> "" ->
  read_record loads line = Ok (obj, meta) ->
  read_issue obj meta = Ok (Some f) ->
  let st' := snd (load_issues_line loads schema es line st) in
  let queries := filter is_issue_count (new_events st st') in
  if triple_truthy (f_year f) (f_volume f) (f_issue f)
     && resolved_truthy (f_sim_pubid f) st
  then exists c y,
         fst (pubid2container (f_sim_pubid f) st) = Ok c /\
         f_year f = Some y /\
         queries = [EvIssueCount c y (f_volume f) (f_issue f)]
  else queries = [] /\
       forall row,
         In (EvUpsert T_sim_issue row) (new_events st st') ->
         col col_release_count row = SNull.
Proof.
  intros Hne Hr Hf st' queries. subst queries st'.
  rewrite (load_issues_line_unfold _ _ _ _ _ _ _ _ Hne Hr Hf).
  destruct (triple_truthy _ _ _ && resolved_truthy _ _) eqn:Hc.
  - destruct (issue_release_count_on es f st Hc) as (c & y & s1 & Hp & Hy & Hi).
    exists c, y. split; [now rewrite Hp|]. split; [exact Hy|].
    destruct (pubid2container_trace (f_sim_pubid f) st) as (evs & Htr & F).
    rewrite Hp in Htr. cbn [snd] in Htr.
    pose proof (filter_none _ is_issue_count evs select_not_issue_count F)
      as Hnone.
    unfold bind. rewrite Hi.
    destruct (es (trace s1) c y (f_volume f) (f_issue f)) as [n|e].
    + match goal with
      | |- context [insert_sim_issue schema ?r ?s] =>
          destruct (insert_sim_issue_trace schema r s) as [E|(row & _ & E)];
          destruct (insert_sim_issue schema r s) as [res s2]
      end; cbn [snd] in E |- *; subst s2.
      * rewrite (new_events_app st _
                   (evs ++ [EvIssueCount c y (f_volume f) (f_issue f)])%list).
        -- rewrite filter_app, Hnone. reflexivity.
        -- simpl. now rewrite Htr, app_assoc.
      * rewrite (new_events_app st _
                   (evs ++ [EvIssueCount c y (f_volume f) (f_issue f);
                            EvUpsert T_sim_issue row])%list).
        -- rewrite filter_app, Hnone. reflexivity.
        -- rewrite trace_upserted. simpl. rewrite Htr.
           now rewrite <- !app_assoc.
    + cbn [snd].
      rewrite (new_events_app st _
                 (evs ++ [EvIssueCount c y (f_volume f) (f_issue f)])%list).
      * rewrite filter_app, Hnone. reflexivity.
      * simpl. now rewrite Htr, app_assoc.
  - destruct (issue_release_count_off es f st Hc)
      as (r & s1 & evs & Hi & Hres & Htr & F).
    pose proof (filter_none _ is_issue_count evs select_not_issue_count F)
      as Hnone.
    unfold bind. rewrite Hi.
    destruct Hres as [->|[e ->]].
    + match goal with
      | |- context [insert_sim_issue schema ?r ?s] =>
          destruct (insert_sim_issue_trace schema r s) as [E|(row & Hb & E)];
          destruct (insert_sim_issue schema r s) as [res s2]
      end; cbn [snd] in E |- *; subst s2.
      * rewrite (new_events_app st s1 evs Htr). split; [exact Hnone|].
        intros row Hin. rewrite Forall_forall in F. apply F in Hin.
        discriminate Hin.
      * rewrite (new_events_app st _ (evs ++ [EvUpsert T_sim_issue row])%list).
        -- split; [rewrite filter_app, Hnone; reflexivity|].
           intros row' Hin. apply in_app_or in Hin. destruct Hin as [Hin|Hin].
           ++ rewrite Forall_forall in F. apply F in Hin. discriminate Hin.
           ++ destruct Hin as [Hin|[]]. inversion Hin; subst row'.
              pose proof (bind_params_nth _ _ Hb 7 _ eq_refl) as B.
              simpl in B. unfold col_release_count. congruence.
        -- rewrite trace_upserted, Htr. now rewrite app_assoc.
    + cbn [snd]. rewrite (new_events_app st s1 evs Htr). split; [exact Hnone|].
      intros row Hin. rewrite Forall_forall in F. apply F in Hin.
      discriminate Hin.
Qed.

Lemma C1_release_count_query_iff_truthy_witness :
  (exists c y,
     fst (pubid2container (PStr "pub_x") (IssueDB_init db_pub_x)) = Ok c /\
     Some 1998 = Some y /\
     filter is_issue_count
       (new_events (IssueDB_init db_pub_x)
          (snd (load_issues_line json_loads issue_db_schema (es_const 42)
                  issue_line (IssueDB_init db_pub_x))))
     = [EvIssueCount c y (PStr "12") (PStr "3")]) /\
  (filter is_issue_count
     (new_events (IssueDB_init db_pub_x)
        (snd (load_issues_line json_loads issue_db_schema (es_const 42)
                issue_line_no_issue (IssueDB_init db_pub_x)))) = [] /\
   forall row,
     In (EvUpsert T_sim_issue row)
        (new_events (IssueDB_init db_pub_x)
           (snd (load_issues_line json_loads issue_db_schema (es_const 42)
                   issue_line_no_issue (IssueDB_init db_pub_x)))) ->
     col col_release_count row = SNull).
Proof.
  split.
  - assert (Hne : issue_line <> "") by (vm_compute; discriminate).
    assert (Hr : read_record json_loads issue_line
                 = Ok (decoded issue_line, metadata_of issue_line))
      by (vm_compute; reflexivity).
    assert (Hf : read_issue (decoded issue_line) (metadata_of issue_line)
                 = Ok (Some (fields_of issue_line)))
      by (vm_compute; reflexivity).
    exact (C1_release_count_query_iff_truthy json_loads issue_db_schema
             (es_const 42) issue_line _ _ _ (IssueDB_init db_pub_x) Hne Hr Hf).
  - assert (Hne : issue_line_no_issue <> "") by (vm_compute; discriminate).
    assert (Hr : read_record json_loads issue_line_no_issue
                 = Ok (decoded issue_line_no_issue,
                       metadata_of issue_line_no_issue))
      by (vm_compute; reflexivity).
    assert (Hf : read_issue (decoded issue_line_no_issue)
                            (metadata_of issue_line_no_issue)
                 = Ok (Some (fields_of issue_line_no_issue)))
      by (vm_compute; reflexivity).
    exact (C1_release_count_query_iff_truthy json_loads issue_db_schema
             (es_const 42) issue_line_no_issue _ _ _ (IssueDB_init db_pub_x)
             Hne Hr Hf).
Defined.

(** C1, as stated, fails: the record of the example has a year, an issue
    and a volume - the empty string, which is persisted as such - and its
    publication resolves to container [abc123]; no count query is issued
    for it. *)
Lemma C1_present_but_empty_counterexample :
  (resolves (PStr "pub_x") (IssueDB_init db_pub_x) /\
   f_sim_pubid (fields_of issue_line_empty_volume) = PStr "pub_x" /\
   f_year (fields_of issue_line_empty_volume) = Some 1998 /\
   f_volume (fields_of issue_line_empty_volume) = PStr "" /\
   f_issue (fields_of issue_line_empty_volume) = PStr "3" /\
   new_events (IssueDB_init db_pub_x)
     (snd (load_issues_line json_loads issue_db_schema (es_const 42)
             issue_line_empty_volume (IssueDB_init db_pub_x)))
   = [EvUpsert T_sim_issue
        [SText "sim_x_1998-05"; SText "pub_x"; SInt 1998; SText "";
         SText "3"; SNull; SNull; SNull]]) /\
  ~ release_count_iff_present json_loads issue_db_schema.
Proof.
  assert (Hres : resolves (PStr "pub_x") (IssueDB_init db_pub_x)).
  { exists (PStr "abc123"). split; [vm_compute; reflexivity|discriminate]. }
  split; [split; [exact Hres|repeat split]|].
  intros H.
  assert (Hne : issue_line_empty_volume <> "") by (vm_compute; discriminate).
  assert (Hr : read_record json_loads issue_line_empty_volume
               = Ok (decoded issue_line_empty_volume,
                     metadata_of issue_line_empty_volume))
    by (vm_compute; reflexivity).
  assert (Hf : read_issue (decoded issue_line_empty_volume)
                          (metadata_of issue_line_empty_volume)
               = Ok (Some (fields_of issue_line_empty_volume)))
    by (vm_compute; reflexivity).
  destruct (H (es_const 42) issue_line_empty_volume _ _ _
              (IssueDB_init db_pub_x) Hne Hr Hf) as [_ Hq].
  apply Hq.
  - split; [|split; [|split]].
    + exact Hres.
    + vm_compute. discriminate.
    + vm_compute. discriminate.
    + vm_compute. discriminate.
  - vm_compute. reflexivity.
Qed.

(* ===================================================================== *)
(** ** Who calls the catalog, and what the cache saves *)

Lemma load_issues_events loads schema lines es st :
  extends (fun e => is_lookup e = false) st
          (snd (load_issues loads schema lines es st)).
Proof.
  unfold load_issues, bind.
  pose proof (preserves_for_each issue_event
                (load_issues_line loads schema es) lines
                (load_issues_line_step loads schema es) st) as (_ & _ & E).
  apply (extends_weaken _ _ _ _ issue_event_not_lookup) in E.
  destruct (for_each (load_issues_line loads schema es) lines st)
    as [[[]|e] s1]; cbn [snd] in *; [|exact E].
  eapply extends_trans; [exact E|].
  exists [EvCommit]. split; [reflexivity|]. now constructor.
Qed.

Lemma later_cache_grows loads schema st st' :
  later loads schema st st' -> cache_grows st st'.
Proof.
  induction 1 as [|api line s H IH|es line s H IH|k s H IH|s H IH].
  - apply cache_grows_refl.
  - eapply cache_grows_trans; [exact IH|].
    apply (load_pubs_line_step loads schema api line s).
  - eapply cache_grows_trans; [exact IH|].
    apply (load_issues_line_step loads schema es line s).
  - eapply cache_grows_trans; [exact IH|].
    apply (pubid2container_step (fun _ => True) k (fun _ => I) s).
  - eapply cache_grows_trans; [exact IH|]. intros k v Hk. exact Hk.
Qed.

(* ===================================================================== *)
(** ** The page range *)

Lemma digit_not_special c :
  is_ascii_digit c = true ->
  is_int_space c = false /\ (N_of_ascii c =? 45)%N = false /\
  (N_of_ascii c =? 43)%N = false /\ (N_of_ascii c =? 95)%N = false.
Proof.
  unfold is_ascii_digit, is_int_space. cbv zeta.
  generalize (N_of_ascii c). intros n H.
  apply andb_true_iff in H. destruct H as [H1 H2].
  apply N.leb_le in H1. apply N.leb_le in H2.
  repeat split.
  - repeat (apply orb_false_iff; split).
    + apply andb_false_iff. right. apply N.leb_gt. lia.
    + apply N.eqb_neq. lia.
    + apply N.eqb_neq. lia.
    + apply N.eqb_neq. lia.
  - apply N.eqb_neq. lia.
  - apply N.eqb_neq. lia.
  - apply N.eqb_neq. lia.
Qed.

Lemma int_digits_all l :
  forallb is_ascii_digit l = true ->
  forall acc b,
    l <> [] \/ b = true ->
    int_digits acc b l
    = Some (fold_left (fun a c => a * 10 + digit_val c) l acc, []).
Proof.
  induction l as [|c l IH]; intros H acc b Hb.
  - destruct Hb as [Hb|Hb]; [now elim Hb|]. subst b. reflexivity.
  - simpl in H. apply andb_true_iff in H. destruct H as [Hc Hl].
    simpl. rewrite Hc. apply IH; [exact Hl | now right].
Qed.

(** [int] of a digit-only label is its decimal value. *)
Lemma int_of_str_digit_only s :
  digit_only s = true -> int_of_str s = Ok (decimal_value s).
Proof.
  unfold digit_only, int_of_str, int_of_chars, decimal_value.
  intros H. apply andb_true_iff in H. destruct H as [Hne Hd].
  destruct s as [|c s]; [discriminate Hne|].
  cbn [list_ascii_of_string] in *.
  set (l := list_ascii_of_string s) in *.
  pose proof Hd as Hd'. cbn [forallb] in Hd'.
  apply andb_true_iff in Hd'. destruct Hd' as [Hc _].
  destruct (digit_not_special c Hc) as (Hs & Hm & Hp & _).
  cbn [skip_int_space]. rewrite Hs, Hm, Hp.
  rewrite (int_digits_all (c :: l) Hd 0 false); [|left; discriminate].
  reflexivity.
Qed.

Lemma digit_only_isdigit s : digit_only s = true -> str_isdigit s = true.
Proof.
  unfold digit_only, str_isdigit. intros H.
  apply andb_true_iff in H. destruct H as [Hne Hd].
  destruct s as [|c s]; [discriminate Hne|].
  cbn [list_ascii_of_string] in *.
  apply forallb_forall. intros x Hx.
  rewrite forallb_forall in Hd. unfold char_isdigit. now rewrite (Hd x Hx).
Qed.

(** On plain labels the second comprehension computes the surviving set
    and cannot fail. *)
Lemma page_ints_plain labels :
  Forall plain_label labels ->
  page_ints (map PStr labels) = Ok (numeric_pages labels).
Proof.
  unfold numeric_pages.
  induction 1 as [|s labels Hs F IH]; [reflexivity|].
  cbn [map page_ints filter].
  destruct (str_isdigit s) eqn:Hd.
  - rewrite (Hs Hd), (int_of_str_digit_only s (Hs Hd)). simpl.
    now rewrite IH.
  - destruct (digit_only s) eqn:Ho.
    + apply digit_only_isdigit in Ho. congruence.
    + exact IH.
Qed.

(** The first comprehension drops the empty labels. *)
Lemma page_numbers_descriptors labels :
  page_numbers (map descriptor labels)
  = Ok (map PStr (filter (fun s => negb (s =? "")%string) labels)).
Proof.
  induction labels as [|s labels IH]; [reflexivity|].
  cbn [map page_numbers]. rewrite IH. simpl.
  destruct (s =? "")%string; reflexivity.
Qed.

Lemma numeric_pages_nonempty labels :
  numeric_pages (filter (fun s => negb (s =? "")%string) labels)
  = numeric_pages labels.
Proof.
  unfold numeric_pages. f_equal.
  induction labels as [|s labels IH]; [reflexivity|].
  cbn [filter]. unfold digit_only at 2.
  destruct (negb (s =? "")%string) eqn:E; cbn [filter andb].
  - fold (digit_only s). unfold digit_only at 1. rewrite E. cbn [andb].
    now rewrite IH.
  - exact IH.
Qed.

Lemma list_min_spec z zs :
  In (list_min z zs) (z :: zs) /\ forall x, In x (z :: zs) -> list_min z zs <= x.
Proof.
  unfold list_min. revert z. induction zs as [|y zs IH]; intros z.
  - simpl. split; [now left|]. intros x [->|[]]. lia.
  - cbn [fold_left]. destruct (IH (Z.min z y)) as [Hin Hle]. split.
    + destruct Hin as [Hin|Hin].
      * rewrite <- Hin. destruct (Z.min_spec z y) as [[_ ->]|[_ ->]].
        -- now left.
        -- right. now left.
      * right. now right.
    + intros x [->|[->|Hx]].
      * specialize (Hle (Z.min x y) (or_introl eq_refl)). lia.
      * specialize (Hle (Z.min z x) (or_introl eq_refl)). lia.
      * apply Hle. now right.
Qed.

Lemma list_max_spec z zs :
  In (list_max z zs) (z :: zs) /\ forall x, In x (z :: zs) -> x <= list_max z zs.
Proof.
  unfold list_max. revert z. induction zs as [|y zs IH]; intros z.
  - simpl. split; [now left|]. intros x [->|[]]. lia.
  - cbn [fold_left]. destruct (IH (Z.max z y)) as [Hin Hle]. split.
    + destruct Hin as [Hin|Hin].
      * rewrite <- Hin. destruct (Z.max_spec z y) as [[_ ->]|[_ ->]].
        -- right. now left.
        -- now left.
      * right. now right.
    + intros x [->|[->|Hx]].
      * specialize (Hle (Z.max x y) (or_introl eq_refl)). lia.
      * specialize (Hle (Z.max z x) (or_introl eq_refl)). lia.
      * apply Hle. now right.
Qed.

(** The part of C2 that holds: on page descriptors whose labels are plain
    (every label accepted by [isdigit] is made of decimal digits), the page
    range is computed without error; it is absent when no label is
    digit-only, and otherwise [first_page] and [last_page] are the least
    and the greatest of the surviving set. *)
Lemma page_range_plain obj labels :
  py_get obj "page_numbers"
    = Ok (PDict [("pages", PList (map descriptor labels))]) ->
  Forall plain_label labels ->
  match numeric_pages labels with
  | [] => page_range obj = Ok (None, None)
  | z :: zs =>
      exists lo hi,
        page_range obj = Ok (Some lo, Some hi) /\
        In lo (z :: zs) /\ In hi (z :: zs) /\
        forall x, In x (z :: zs) -> lo <= x <= hi
  end.
Proof.
  intros Hg Hp. unfold page_range. rewrite Hg.
  assert (Hs : py_subscript obj "page_numbers"
               = Ok (PDict [("pages", PList (map descriptor labels))])).
  { apply py_get_truthy_subscript; [exact Hg|reflexivity]. }
  cbn [rbind py_truthy]. rewrite Hs. cbn [rbind py_subscript dict_lookup].
  cbn [String.eqb Ascii.eqb Bool.eqb py_iter rbind].
  rewrite page_numbers_descriptors. cbn [rbind].
  rewrite page_ints_plain.
  2: { apply Forall_forall. intros s Hin. apply filter_In in Hin.
       rewrite Forall_forall in Hp. now apply Hp. }
  cbn [rbind]. rewrite numeric_pages_nonempty.
  destruct (numeric_pages labels) as [|z zs]; [reflexivity|].
  destruct (list_min_spec z zs) as [Hmin Hle].
  destruct (list_max_spec z zs) as [Hmax Hge].
  exists (list_min z zs), (list_max z zs). repeat split; auto.
Qed.

(** C2 at the failing input. The label SUPERSCRIPT TWO is accepted by
    [isdigit] and refused by [int]: the page range of the record raises
    [ValueError] and so does [load_issues], although the label is not
    numeric. *)
Theorem C2_superscript_page_number_raises :
  str_isdigit superscript_two = true /\
  digit_only superscript_two = false /\
  int_of_str superscript_two = Raise ValueError /\
  py_subscript (decoded issue_line_superscript) "page_numbers"
    = Ok (PDict [("pages", PList [descriptor "12";
                                  descriptor superscript_two])]) /\
  page_range (decoded issue_line_superscript) = Raise ValueError /\
  run_issues [issue_line_superscript] (es_const 42) (IssueDB_init db_pub_x)
    = (Raise ValueError, IssueDB_init db_pub_x).
Proof. vm_compute. repeat split. Qed.

Example page_range_mixed_labels :
  page_range (decoded issue_line) = Ok (Some 12, Some 14).
Proof. reflexivity. Qed.

Example page_range_roman_labels :
  page_range (decoded issue_line_roman) = Ok (None, None).
Proof. reflexivity. Qed.

(* ===================================================================== *)
(** ** Runs of the examples *)

(** The example of the specification: year 1998, volume 12, issue 3 and
    container [abc123] give one count query with these four filters. *)
Example issue_with_container_is_counted :
  run_issues [issue_line] (es_const 42) (IssueDB_init db_pub_x)
  = (Ok tt,
     let row := [SText "sim_x_1998-03"; SText "pub_x"; SInt 1998; SText "12";
                 SText "3"; SInt 12; SInt 14; SInt 42] in
     let db := {| t_sim_pub := t_sim_pub db_pub_x; t_sim_issue := [row];
                  t_release_counts := [] |} in
     {| committed := db; working := db;
        pubid2container_map := [(PStr "pub_x", PStr "abc123")];
        trace := [EvSelectContainer (PStr "pub_x");
                  EvIssueCount (PStr "abc123") 1998 (PStr "12") (PStr "3");
                  EvUpsert T_sim_issue row; EvCommit] |}).
Proof. reflexivity. Qed.

(** A publication whose lookup fails with status 500 aborts the batch: the
    record before it was upserted in the transaction, nothing reached the
    file. *)
Example failed_batch_leaves_the_file :
  let r := run_pubs [pub_line; pub_line_unknown]
             (fun _ v => match v with
                         | PStr "1234-5678" => Ok entity_full
                         | _ => Raise (ApiException 500)
                         end)
             (IssueDB_init empty_tables) in
  fst r = Raise (ApiException 500) /\
  committed (snd r) = empty_tables /\
  List.length (t_sim_pub (working (snd r))) = 1%nat.
Proof. repeat split. Qed.

(** A publication without an ISSN is not looked up. *)
Example no_issn_no_lookup :
  trace (snd (run_pubs
                [json_text "{'metadata': {'collection': 'periodicals', 'sim_pubid': 'p', 'identifier': 'c', 'title': 'T'}}"]
                (api_status 500) (IssueDB_init empty_tables)))
  = [EvUpsert T_sim_pub [SText "p"; SText "c"; SText "T"; SNull; SNull; SNull;
                         SNull; SNull; SNull];
     EvCommit].
Proof. reflexivity. Qed.

(* ===================================================================== *)
(** ** The shape of one record step *)

Lemma trace_ext_refl (P : event -> Prop) st :
  exists evs, trace st = (trace st ++ evs)%list /\ Forall P evs.
Proof. exists []. split; [now rewrite app_nil_r | constructor]. Qed.

(** The container lookup changes nothing but the history, and adds only
    catalog calls to it. *)
Lemma try_lookup_container_frame api meta st :
  let s1 := snd (try_lookup_container api meta st) in
  working s1 = working st /\ committed s1 = committed st /\
  pubid2container_map s1 = pubid2container_map st /\
  exists evs, trace s1 = (trace st ++ evs)%list /\
              Forall (fun e => is_lookup e = true) evs.
Proof.
  unfold try_lookup_container. rewrite lift_bind.
  destruct (py_get meta "issn") as [v|e]; cbn [snd].
  2: { repeat split. apply trace_ext_refl. }
  destruct (py_truthy v); [|repeat split; apply trace_ext_refl].
  rewrite lift_bind.
  destruct (py_subscript meta "issn") as [i|e]; cbn [snd].
  2: { repeat split. apply trace_ext_refl. }
  assert (H : exists evs,
             trace (log (EvLookupContainer i) st) = (trace st ++ evs)%list /\
             Forall (fun e => is_lookup e = true) evs).
  { exists [EvLookupContainer i]. split; [reflexivity|]. now constructor. }
  destruct (api (trace st) i) as [c|e]; cbn [snd]; [now repeat split|].
  destruct e; cbn [snd]; try (now repeat split).
  destruct (negb (status =? 404)); cbn [snd]; now repeat split.
Qed.

(** A record of the publication pass either ends before it writes - by an
    error, or because the line is empty - or it upserts one row as its
    last step. *)
Lemma load_pubs_line_shape loads schema api line st :
  exists s1,
    working s1 = working st /\ committed s1 = committed st /\
    pubid2container_map s1 = pubid2container_map st /\
    (exists evs, trace s1 = (trace st ++ evs)%list /\
                 Forall (fun e => is_lookup e = true) evs) /\
    ((exists r, load_pubs_line loads schema api line st = (r, s1) /\
                (r = Ok tt -> line = "")) \/
     (line <> "" /\
      exists prow row,
        bind_params (SimPubRow_tuple prow) = Ok row /\
        load_pubs_line loads schema api line st
        = (Ok tt, upserted schema T_sim_pub row s1))).
Proof.
  unfold load_pubs_line.
  destruct (line =? "")%string eqn:Hne.
  { apply String.eqb_eq in Hne. exists st. repeat split.
    - apply trace_ext_refl.
    - left. exists (Ok tt). now split. }
  apply String.eqb_neq in Hne. unfold bind, lift.
  destruct (read_record loads line) as [[obj meta]|e]; cbn [snd].
  2: { exists st. repeat split; [apply trace_ext_refl|].
       left. exists (Raise e). split; [reflexivity|discriminate]. }
  destruct (try_lookup_container_frame api meta st) as (Hw & Hc & Hm & Ht).
  destruct (try_lookup_container api meta st) as [[container|e] s1];
    cbn [snd] in Hw, Hc, Hm, Ht; exists s1; repeat split; try assumption.
  2: { left. exists (Raise e). split; [reflexivity|discriminate]. }
  destruct (sim_pub_row meta container) as [prow|e].
  2: { left. exists (Raise e). split; [reflexivity|discriminate]. }
  unfold insert_sim_pub.
  destruct (execute_insert schema T_sim_pub 9 (SimPubRow_tuple prow) s1)
    as [[[]|e] s2] eqn:E.
  - apply execute_insert_ok in E. destruct E as (row & Hb & ->).
    right. split; [exact Hne|]. exists prow, row. now split.
  - apply execute_insert_raise in E. subst s2.
    left. exists (Raise e). split; [reflexivity|discriminate].
Qed.

(** The release-count step changes no table, only grows the cache, and
    adds only store reads and count queries to the history. *)
Lemma issue_release_count_frame es f st :
  let s1 := snd (issue_release_count es f st) in
  working s1 = working st /\ committed s1 = committed st /\
  cache_grows st s1 /\
  exists evs, trace s1 = (trace st ++ evs)%list /\
              Forall (fun e => is_select e = true \/ is_issue_count e = true)
                     evs.
Proof.
  assert (Hrefl : working st = working st /\ committed st = committed st /\
                  cache_grows st st /\
                  exists evs, trace st = (trace st ++ evs)%list /\
                    Forall (fun e => is_select e = true \/
                                     is_issue_count e = true) evs).
  { repeat split; [apply cache_grows_refl | apply trace_ext_refl]. }
  unfold issue_release_count.
  destruct (f_year f) as [y|]; [|exact Hrefl].
  destruct (triple_truthy _ _ _); [|exact Hrefl].
  assert (Hp : let s1 := snd (pubid2container (f_sim_pubid f) st) in
               working s1 = working st /\ committed s1 = committed st /\
               cache_grows st s1 /\
               exists evs, trace s1 = (trace st ++ evs)%list /\
                 Forall (fun e => is_select e = true \/
                                  is_issue_count e = true) evs).
  { destruct (pubid2container_cases (f_sim_pubid f) st)
      as [[_ E]|[(_ & v & _ & E)|[(_ & _ & e & _ & E)|(_ & Hc & x & v & _ & _ & E)]]];
      rewrite E; cbn [snd]; try exact Hrefl.
    repeat split.
    - intros k' v' H. simpl. now apply cache_lookup_app.
    - exists [EvSelectContainer (f_sim_pubid f)]. split; [reflexivity|].
      constructor; [now left|constructor]. }
  unfold bind.
  destruct (pubid2container (f_sim_pubid f) st) as [[c|e] s1];
    cbn [snd] in Hp |- *; [|exact Hp].
  destruct (py_truthy c); [|exact Hp].
  destruct Hp as (Hw & Hc & Hg & evs & Ht & F).
  unfold es_issue_count.
  destruct (es (trace s1) c y (f_volume f) (f_issue f)); cbn [snd];
    (repeat split; try assumption;
     exists (evs ++ [EvIssueCount c y (f_volume f) (f_issue f)])%list;
     split; [simpl; now rewrite Ht, app_assoc|];
     apply Forall_app; split; [exact F|]; constructor; [now right|constructor]).
Qed.

Lemma load_issues_line_shape loads schema es line st :
  exists s1,
    working s1 = working st /\ committed s1 = committed st /\
    cache_grows st s1 /\
    (exists evs, trace s1 = (trace st ++ evs)%list /\
                 Forall (fun e => is_select e = true \/
                                  is_issue_count e = true) evs) /\
    ((exists r, load_issues_line loads schema es line st = (r, s1) /\
                (r = Ok tt -> line = "" \/ is_meta_item loads line = true)) \/
     (line <> "" /\ is_meta_item loads line = false /\
      exists irow row,
        bind_params (SimIssueRow_tuple irow) = Ok row /\
        load_issues_line loads schema es line st
        = (Ok tt, upserted schema T_sim_issue row s1))).
Proof.
  unfold load_issues_line, is_meta_item.
  destruct (line =? "")%string eqn:Hne.
  { apply String.eqb_eq in Hne. exists st. repeat split.
    - apply cache_grows_refl.
    - apply trace_ext_refl.
    - left. exists (Ok tt). split; [reflexivity|]. now left. }
  apply String.eqb_neq in Hne. unfold bind, lift.
  destruct (read_record loads line) as [[obj meta]|e]; cbn [fst snd].
  2: { exists st. repeat split;
         [apply cache_grows_refl | apply trace_ext_refl|].
       left. exists (Raise e). split; [reflexivity|discriminate]. }
  destruct (read_issue obj meta) as [[f|]|e].
  3: { exists st. repeat split;
         [apply cache_grows_refl | apply trace_ext_refl|].
       left. exists (Raise e). split; [reflexivity|discriminate]. }
  2: { exists st. repeat split;
         [apply cache_grows_refl | apply trace_ext_refl|].
       left. exists (Ok tt). split; [reflexivity|]. now right. }
  destruct (issue_release_count_frame es f st) as (Hw & Hc & Hg & Ht).
  destruct (issue_release_count es f st) as [[count|e] s1];
    cbn [snd] in Hw, Hc, Hg, Ht; exists s1; repeat split; try assumption.
  2: { left. exists (Raise e). split; [reflexivity|discriminate]. }
  unfold insert_sim_issue.
  match goal with
  | |- context [execute_insert schema T_sim_issue 8 (SimIssueRow_tuple ?r) s1] =>
      destruct (execute_insert schema T_sim_issue 8 (SimIssueRow_tuple r) s1)
        as [[[]|e] s2] eqn:E; [|]
  end.
  - apply execute_insert_ok in E. destruct E as (row & Hb & ->).
    right. split; [exact Hne|]. split; [reflexivity|]. eexists _, row.
    split; [exact Hb|reflexivity].
  - apply execute_insert_raise in E. subst s2.
    left. exists (Raise e). split; [reflexivity|discriminate].
Qed.

(* ===================================================================== *)
(** ** Loops over records *)

Lemma for_each_rel {A} (R : state -> state -> Prop) (body : A -> M unit) :
  (forall st, R st st) ->
  (forall a b c, R a b -> R b c -> R a c) ->
  (forall x st, R st (snd (body x st))) ->
  forall xs st, R st (snd (for_each body xs st)).
Proof.
  intros Hrefl Htrans Hb xs. induction xs as [|x xs IH]; intros st.
  - apply Hrefl.
  - cbn [for_each]. unfold bind. specialize (Hb x st).
    destruct (body x st) as [[[]|e] s1]; cbn [snd] in *.
    + eapply Htrans; [exact Hb | apply IH].
    + exact Hb.
Qed.

Lemma loop_commit_rel (R : state -> state -> Prop) (body : string -> M unit)
      lines st :
  (forall st, R st st) ->
  (forall a b c, R a b -> R b c -> R a c) ->
  (forall x st, R st (snd (body x st))) ->
  (forall st, R st (snd (commit st))) ->
  R st (snd (bind (for_each body lines) (fun _ => commit) st)).
Proof.
  intros Hrefl Htrans Hb Hc.
  pose proof (for_each_rel R body Hrefl Htrans Hb lines st) as H.
  unfold bind. destruct (for_each body lines st) as [[[]|e] s1];
    cbn [snd] in *; [|exact H].
  eapply Htrans; [exact H | apply Hc].
Qed.

Lemma for_each_raise {A} (body : A -> M unit) pre bad rest st s1 e s2 :
  for_each body pre st = (Ok tt, s1) ->
  body bad s1 = (Raise e, s2) ->
  for_each body (pre ++ bad :: rest)%list st = (Raise e, s2).
Proof.
  intros Hpre Hbad. rewrite for_each_app. unfold bind at 1. rewrite Hpre.
  cbn [for_each]. unfold bind. now rewrite Hbad.
Qed.

Lemma pub_frame_refl st : pub_frame st st.
Proof.
  repeat split. exists []. split; [now rewrite app_nil_r | reflexivity].
Qed.

Lemma pub_frame_trans a b c : pub_frame a b -> pub_frame b c -> pub_frame a c.
Proof.
  intros (I1 & R1 & M1 & e1 & T1 & F1) (I2 & R2 & M2 & e2 & T2 & F2).
  repeat split; try congruence.
  exists (e1 ++ e2)%list. split.
  - now rewrite T2, T1, app_assoc.
  - now rewrite forallb_app, F1, F2.
Qed.

Lemma issue_frame_refl st : issue_frame st st.
Proof.
  repeat split. exists []. split; [now rewrite app_nil_r | reflexivity].
Qed.

Lemma issue_frame_trans a b c :
  issue_frame a b -> issue_frame b c -> issue_frame a c.
Proof.
  intros (I1 & R1 & e1 & T1 & F1) (I2 & R2 & e2 & T2 & F2).
  repeat split; try congruence.
  exists (e1 ++ e2)%list. split.
  - now rewrite T2, T1, app_assoc.
  - now rewrite forallb_app, F1, F2.
Qed.

Lemma forallb_weaken (p q : event -> bool) evs :
  (forall e, p e = true -> q e = true) ->
  Forall (fun e => p e = true) evs -> forallb q evs = true.
Proof.
  intros H F. apply forallb_forall. intros e He.
  rewrite Forall_forall in F. auto.
Qed.

Lemma load_pubs_line_frame loads schema api line st :
  pub_frame st (snd (load_pubs_line loads schema api line st)).
Proof.
  destruct (load_pubs_line_shape loads schema api line st)
    as (s1 & Hw & _ & Hm & (evs & Ht & F) & [(r & E & _)|(_ & prow & row & _ & E)]);
    rewrite E; cbn [snd].
  - repeat split; try congruence. exists evs. split; [exact Ht|].
    apply (forallb_weaken is_lookup); [|exact F].
    intros e He. unfold pub_pass_event. now rewrite He.
  - repeat split; simpl; try congruence.
    exists (evs ++ [EvUpsert T_sim_pub row])%list. split.
    + now rewrite Ht, app_assoc.
    + rewrite forallb_app. cbn. rewrite andb_true_r.
      apply (forallb_weaken is_lookup); [|exact F].
      intros e He. unfold pub_pass_event. now rewrite He.
Qed.

Lemma load_issues_line_frame loads schema es line st :
  issue_frame st (snd (load_issues_line loads schema es line st)).
Proof.
  assert (Hev : forall evs,
             Forall (fun e => is_select e = true \/ is_issue_count e = true) evs ->
             forallb issue_pass_event evs = true).
  { intros evs F. apply forallb_forall. intros e He.
    rewrite Forall_forall in F. unfold issue_pass_event.
    destruct (F e He) as [H|H]; rewrite H; [reflexivity|].
    now rewrite orb_true_r. }
  destruct (load_issues_line_shape loads schema es line st)
    as (s1 & Hw & _ & _ & (evs & Ht & F)
        & [(r & E & _)|(_ & _ & irow & row & _ & E)]);
    rewrite E; cbn [snd].
  - repeat split; try congruence. exists evs. split; [exact Ht|]. now apply Hev.
  - repeat split; simpl; try congruence.
    exists (evs ++ [EvUpsert T_sim_issue row])%list. split.
    + now rewrite Ht, app_assoc.
    + rewrite forallb_app, (Hev evs F). reflexivity.
Qed.

(* ===================================================================== *)
(** ** The publication pass and the resolver cache *)

Lemma cache_blind_ret {A} (a : A) : cache_blind (ret a).
Proof. intros c st. reflexivity. Qed.

Lemma cache_blind_lift {A} (r : result A) : cache_blind (lift r).
Proof. intros c st. reflexivity. Qed.

Lemma cache_blind_bind {A B} (m : M A) (f : A -> M B) :
  cache_blind m -> (forall a, cache_blind (f a)) -> cache_blind (bind m f).
Proof.
  intros Hm Hf c st. unfold bind. rewrite (Hm c st).
  destruct (m st) as [[a|e] s1]; cbn [fst snd]; [apply Hf | reflexivity].
Qed.

Lemma cache_blind_for_each {A} (body : A -> M unit) xs :
  (forall x, cache_blind (body x)) -> cache_blind (for_each body xs).
Proof.
  intros Hb. induction xs as [|x xs IH]; cbn [for_each].
  - apply cache_blind_ret.
  - apply cache_blind_bind; [apply Hb | intros _; exact IH].
Qed.

Lemma execute_insert_cache_blind schema t n params :
  cache_blind (execute_insert schema t n params).
Proof.
  intros c st. unfold execute_insert.
  destruct (negb (n =? n_cols (schema t))%nat); [reflexivity|].
  destruct (negb (List.length params =? n)%nat); [reflexivity|].
  destruct (bind_params params) as [row|e]; reflexivity.
Qed.

Lemma try_lookup_container_cache_blind api meta :
  cache_blind (try_lookup_container api meta).
Proof.
  unfold try_lookup_container.
  apply cache_blind_bind; [apply cache_blind_lift|]. intros v.
  destruct (py_truthy v); [|apply cache_blind_ret].
  apply cache_blind_bind; [apply cache_blind_lift|]. intros i c st.
  cbn [trace set_cache].
  destruct (api (trace st) i) as [ce|[]]; try reflexivity.
  destruct (negb (status =? 404)); reflexivity.
Qed.

Lemma load_pubs_line_cache_blind loads schema api line :
  cache_blind (load_pubs_line loads schema api line).
Proof.
  unfold load_pubs_line. destruct (line =? "")%string; [apply cache_blind_ret|].
  apply cache_blind_bind; [apply cache_blind_lift|]. intros om.
  apply cache_blind_bind; [apply try_lookup_container_cache_blind|].
  intros container.
  apply cache_blind_bind; [apply cache_blind_lift|]. intros row.
  apply execute_insert_cache_blind.
Qed.

Lemma load_pubs_cache_blind loads schema lines api :
  cache_blind (load_pubs loads schema lines api).
Proof.
  unfold load_pubs. apply cache_blind_bind.
  - apply cache_blind_for_each. intros x. apply load_pubs_line_cache_blind.
  - intros _ c st. reflexivity.
Qed.

(** C3, as the code has it. The issue pass never calls the catalog; a
    resolution by [pubid2container] never calls it either and reads the
    store at most once; and once a publication id has been resolved, every
    later resolution of it in the run returns the same outcome and leaves
    the state as it is - no call, no query.  The publication pass does not
    go through the cache: a record with a truthy [issn] costs one catalog
    call each time it is ingested, and [load_pubs] neither fills the cache
    (it is left as it was) nor consults it (no read of the store is made,
    and with any other cache the batch ends the same way in the same
    state). *)
Theorem C3_issue_pass_resolves_from_store_and_cache loads schema :
  (forall lines es st,
     count_events is_lookup
       (new_events st (snd (load_issues loads schema lines es st))) = 0%nat) /\
  (forall k st,
     count_events is_lookup
       (new_events st (snd (pubid2container k st))) = 0%nat /\
     (count_events is_select
        (new_events st (snd (pubid2container k st))) <= 1)%nat) /\
  (forall k st v st1 st2,
     pubid2container k st = (Ok v, st1) ->
     later loads schema st1 st2 ->
     pubid2container k st2 = (Ok v, st2)) /\
  (forall api line obj meta i st,
     line <> "" ->
     read_record loads line = Ok (obj, meta) ->
     py_get meta "issn" = Ok i ->
     py_truthy i = true ->
     count_events is_lookup
       (new_events st (snd (load_pubs_line loads schema api line st)))
     = 1%nat) /\
  (forall lines api st,
     let r := load_pubs loads schema lines api st in
     pubid2container_map (snd r) = pubid2container_map st /\
     count_events is_select (new_events st (snd r)) = 0%nat /\
     forall c, load_pubs loads schema lines api (set_cache c st)
               = (fst r, set_cache c (snd r))).
Proof.
  split; [|split; [|split; [|split]]].
  - intros lines es st.
    destruct (extends_new_events _ _ _ (load_issues_events loads schema lines
                                          es st)) as [_ F].
    apply (count_events_none (fun e => is_lookup e = false)); auto.
  - intros k st.
    destruct (pubid2container_cases k st)
      as [[_ E]|[(_ & v & _ & E)|[(_ & _ & e & _ & E)|(_ & _ & x & v & _ & _ & E)]]];
      rewrite E; cbn [snd]; rewrite ?new_events_refl; try (split; auto; fail).
    rewrite (new_events_app st _ [EvSelectContainer k]); [|reflexivity].
    split; auto.
  - intros k st v st1 st2 Hp Hl.
    destruct (pubid2container_ok_cached _ _ _ _ Hp) as [Hk Hc].
    apply pubid2container_cached; [exact Hk|].
    apply (later_cache_grows _ _ _ _ Hl). exact Hc.
  - intros api line obj meta i st Hne Hr Hg Ht.
    unfold load_pubs_line. rewrite (eqb_empty_false _ Hne), lift_bind, Hr.
    cbn [snd]. unfold bind at 1.
    rewrite (try_lookup_container_truthy api meta i st Hg Ht).
    assert (H1 : new_events st (log (EvLookupContainer i) st)
                 = [EvLookupContainer i]) by (now apply new_events_app).
    destruct (match api (trace st) i with
              | Ok c => Ok (Some c)
              | Raise (ApiException status) =>
                  if status =? 404 then Ok None else Raise (ApiException status)
              | Raise e => Raise e
              end) as [container|e]; cbn [snd]; [|now rewrite H1].
    rewrite lift_bind.
    destruct (sim_pub_row meta container) as [prow|e]; cbn [snd];
      [|now rewrite H1].
    unfold insert_sim_pub.
    destruct (execute_insert schema T_sim_pub 9 (SimPubRow_tuple prow)
                (log (EvLookupContainer i) st)) as [[[]|e] s2] eqn:E;
      cbn [snd].
    + apply execute_insert_ok in E. destruct E as (row & _ & ->).
      rewrite (new_events_app st _ [EvLookupContainer i; EvUpsert T_sim_pub row]);
        [reflexivity|].
      rewrite trace_upserted. simpl. now rewrite <- app_assoc.
    + apply execute_insert_raise in E. subst s2. now rewrite H1.
  - intros lines api st r.
    assert (H : pub_frame st (snd r)).
    { apply (loop_commit_rel pub_frame).
      - apply pub_frame_refl.
      - apply pub_frame_trans.
      - intros x s. apply load_pubs_line_frame.
      - intros s. repeat split. exists [EvCommit]. now split. }
    destruct H as (_ & _ & Hm & evs & Ht & F).
    split; [exact Hm|]. split.
    + rewrite (new_events_app _ _ _ Ht).
      apply (count_events_none (fun e => pub_pass_event e = true)).
      * intros e. unfold pub_pass_event. now destruct e.
      * apply Forall_forall. intros e He.
        exact (proj1 (forallb_forall _ _) F e He).
    + intros c. apply load_pubs_cache_blind.
Qed.

Lemma C3_issue_pass_resolves_from_store_and_cache_witness :
  (let s1 := snd (pubid2container (PStr "pub_x") (IssueDB_init db_pub_x)) in
   let s2 := snd (load_issues_line json_loads issue_db_schema (es_const 42)
                    issue_line s1) in
   pubid2container (PStr "pub_x") s2 = (Ok (PStr "abc123"), s2)) /\
  count_events is_lookup
    (new_events (IssueDB_init empty_tables)
       (snd (load_pubs_line json_loads issue_db_schema (api_one entity_abc)
               pub_line (IssueDB_init empty_tables)))) = 1%nat.
Proof.
  destruct (C3_issue_pass_resolves_from_store_and_cache json_loads
              issue_db_schema) as (_ & _ & Hcache & Hpub & _).
  split.
  - intros s1 s2.
    apply (Hcache (PStr "pub_x") (IssueDB_init db_pub_x) (PStr "abc123") s1).
    + vm_compute. reflexivity.
    + apply later_issue, later_now.
  - apply (Hpub (api_one entity_abc) pub_line (decoded pub_line)
                (metadata_of pub_line) (PStr "1234-5678")).
    + vm_compute. discriminate.
    + vm_compute. reflexivity.
    + vm_compute. reflexivity.
    + reflexivity.
Defined.

(** C3, as stated, fails: the same publication line twice in one batch
    makes two catalog calls. *)
Lemma C3_two_lookups_counterexample :
  filter is_lookup
    (new_events (IssueDB_init empty_tables)
       (snd (run_pubs [pub_line; pub_line] (api_one entity_abc)
               (IssueDB_init empty_tables))))
  = [EvLookupContainer (PStr "1234-5678");
     EvLookupContainer (PStr "1234-5678")] /\
  ~ at_most_one_lookup_per_publication json_loads issue_db_schema.
Proof.
  split; [reflexivity|].
  intros H.
  specialize (H (api_one entity_abc) pub_line (IssueDB_init empty_tables)).
  vm_compute in H. lia.
Qed.

(** X1. Whatever its input and outcome, [load_pubs] leaves the issue
    table, the release-count table and the resolver cache as they were,
    and all it does outside is call the catalog, upsert into [sim_pub] and
    commit: it never reads the store and never queries the search
    index. *)
Theorem load_pubs_touches_only_sim_pub loads schema lines api st :
  let st' := snd (load_pubs loads schema lines api st) in
  t_sim_issue (working st') = t_sim_issue (working st) /\
  t_release_counts (working st') = t_release_counts (working st) /\
  pubid2container_map st' = pubid2container_map st /\
  forallb pub_pass_event (new_events st st') = true.
Proof.
  intros st'.
  assert (H : pub_frame st st').
  { apply (loop_commit_rel pub_frame).
    - apply pub_frame_refl.
    - apply pub_frame_trans.
    - intros x s. apply load_pubs_line_frame.
    - intros s. repeat split. exists [EvCommit]. now split. }
  destruct H as (Hi & Hr & Hm & evs & Ht & F).
  repeat split; try assumption. now rewrite (new_events_app _ _ _ Ht).
Qed.

(** X2. Whatever its input and outcome, [load_issues] leaves the
    publication table and the release-count table as they were, and all
    it does outside is read the store, query the search index, upsert into
    [sim_issue] and commit. *)
Theorem load_issues_touches_only_sim_issue loads schema lines es st :
  let st' := snd (load_issues loads schema lines es st) in
  t_sim_pub (working st') = t_sim_pub (working st) /\
  t_release_counts (working st') = t_release_counts (working st) /\
  forallb issue_pass_event (new_events st st') = true.
Proof.
  intros st'.
  assert (H : issue_frame st st').
  { apply (loop_commit_rel issue_frame).
    - apply issue_frame_refl.
    - apply issue_frame_trans.
    - intros x s. apply load_issues_line_frame.
    - intros s. repeat split. exists [EvCommit]. now split. }
  destruct H as (Hi & Hr & evs & Ht & F).
  repeat split; try assumption. now rewrite (new_events_app _ _ _ Ht).
Qed.

(** X3. Both passes stop at the first record that raises: the entry point
    raises that record's error in that record's final state, whatever
    lines follow it - they are never read, and no commit is made. *)
Theorem a_failing_record_ends_the_batch loads schema pre bad rest e st s1 s2 :
  (forall api,
     for_each (load_pubs_line loads schema api) pre st = (Ok tt, s1) ->
     load_pubs_line loads schema api bad s1 = (Raise e, s2) ->
     load_pubs loads schema (pre ++ bad :: rest)%list api st = (Raise e, s2)) /\
  (forall es,
     for_each (load_issues_line loads schema es) pre st = (Ok tt, s1) ->
     load_issues_line loads schema es bad s1 = (Raise e, s2) ->
     load_issues loads schema (pre ++ bad :: rest)%list es st = (Raise e, s2)).
Proof.
  split; intros x Hpre Hbad.
  - unfold load_pubs, bind.
    now rewrite (for_each_raise _ pre bad rest st s1 e s2 Hpre Hbad).
  - unfold load_issues, bind.
    now rewrite (for_each_raise _ pre bad rest st s1 e s2 Hpre Hbad).
Qed.

Lemma a_failing_record_ends_the_batch_witness :
  run_pubs ([pub_line] ++ newline :: [pub_line_unknown])%list
    (api_one entity_abc) (IssueDB_init empty_tables)
  = (Raise JSONDecodeError,
     snd (load_pubs_line json_loads issue_db_schema (api_one entity_abc)
            pub_line (IssueDB_init empty_tables))) /\
  run_issues ([issue_line] ++ issue_line_superscript :: [issue_line_roman])%list
    (es_const 42) (IssueDB_init db_pub_x)
  = (Raise ValueError,
     snd (load_issues_line json_loads issue_db_schema (es_const 42)
            issue_line (IssueDB_init db_pub_x))).
Proof.
  split.
  - apply (proj1 (a_failing_record_ends_the_batch json_loads issue_db_schema
             [pub_line] newline [pub_line_unknown] JSONDecodeError
             (IssueDB_init empty_tables)
             (snd (load_pubs_line json_loads issue_db_schema
                     (api_one entity_abc) pub_line (IssueDB_init empty_tables)))
             (snd (load_pubs_line json_loads issue_db_schema
                     (api_one entity_abc) pub_line (IssueDB_init empty_tables))))
           (api_one entity_abc)).
    + vm_compute. reflexivity.
    + vm_compute. reflexivity.
  - apply (proj2 (a_failing_record_ends_the_batch json_loads issue_db_schema
             [issue_line] issue_line_superscript [issue_line_roman] ValueError
             (IssueDB_init db_pub_x)
             (snd (load_issues_line json_loads issue_db_schema (es_const 42)
                     issue_line (IssueDB_init db_pub_x)))
             (snd (load_issues_line json_loads issue_db_schema (es_const 42)
                     issue_line (IssueDB_init db_pub_x))))
           (es_const 42)).
    + vm_compute. reflexivity.
    + vm_compute. reflexivity.
Defined.

(** A record that raises has written nothing. *)
Lemma load_pubs_line_raise loads schema api line st e st' :
  load_pubs_line loads schema api line st = (Raise e, st') ->
  working st' = working st /\ committed st' = committed st.
Proof.
  intros H.
  destruct (load_pubs_line_shape loads schema api line st)
    as (s1 & Hw & Hc & _ & _ & [(r & E & _)|(_ & prow & row & _ & E)]);
    rewrite E in H; inversion H; subst. now split.
Qed.

Lemma load_issues_line_raise loads schema es line st e st' :
  load_issues_line loads schema es line st = (Raise e, st') ->
  working st' = working st /\ committed st' = committed st.
Proof.
  intros H.
  destruct (load_issues_line_shape loads schema es line st)
    as (s1 & Hw & Hc & _ & _ & [(r & E & _)|(_ & _ & irow & row & _ & E)]);
    rewrite E in H; inversion H; subst. now split.
Qed.

Lemma for_each_committed (P : event -> Prop) (body : string -> M unit)
      lines st r s1 :
  (forall x, preserves (batch_step P) (body x)) ->
  for_each body lines st = (r, s1) -> committed s1 = committed st.
Proof.
  intros Hb H.
  pose proof (preserves_for_each P body lines Hb st) as (C & _).
  now rewrite H in C.
Qed.

(** X4. No rollback. When a record raises, the record itself has written
    nothing and the database file is as before the batch, but the rows
    upserted by the records before it stay in the connection's
    transaction: the next batch on the same [IssueDB], even an empty one,
    commits them. *)
Theorem a_failed_batch_is_not_rolled_back loads schema pre bad e st s1 s2 :
  (forall api api2,
     for_each (load_pubs_line loads schema api) pre st = (Ok tt, s1) ->
     load_pubs_line loads schema api bad s1 = (Raise e, s2) ->
     working s2 = working s1 /\ committed s2 = committed st /\
     committed (snd (load_pubs loads schema [] api2 s2)) = working s1) /\
  (forall es es2,
     for_each (load_issues_line loads schema es) pre st = (Ok tt, s1) ->
     load_issues_line loads schema es bad s1 = (Raise e, s2) ->
     working s2 = working s1 /\ committed s2 = committed st /\
     committed (snd (load_issues loads schema [] es2 s2)) = working s1).
Proof.
  split.
  - intros api api2 Hpre Hbad.
    destruct (load_pubs_line_raise _ _ _ _ _ _ _ Hbad) as [Hw Hc].
    pose proof (for_each_committed pub_event _ _ _ _ _
                  (load_pubs_line_step loads schema api) Hpre) as Hc'.
    repeat split; [exact Hw | congruence | exact Hw].
  - intros es es2 Hpre Hbad.
    destruct (load_issues_line_raise _ _ _ _ _ _ _ Hbad) as [Hw Hc].
    pose proof (for_each_committed issue_event _ _ _ _ _
                  (load_issues_line_step loads schema es) Hpre) as Hc'.
    repeat split; [exact Hw | congruence | exact Hw].
Qed.

Lemma a_failed_batch_is_not_rolled_back_witness :
  let s2 := snd (run_pubs [pub_line; newline] (api_one entity_abc)
                   (IssueDB_init empty_tables)) in
  committed s2 = empty_tables /\
  t_sim_pub (committed (snd (run_pubs [] (api_status 500) s2)))
  = [[SText "pub_x"; SText "pub_x_coll"; SText "X"; SText "1234-5678";
      SNull; SNull; SText "1234-5678"; SText "abc123"; SNull]].
Proof.
  intros s2.
  destruct (proj1 (a_failed_batch_is_not_rolled_back json_loads
                     issue_db_schema [pub_line] newline JSONDecodeError
                     (IssueDB_init empty_tables)
                     (snd (load_pubs_line json_loads issue_db_schema
                             (api_one entity_abc) pub_line
                             (IssueDB_init empty_tables)))
                     s2)
                  (api_one entity_abc) (api_status 500))
    as (_ & Hc & Hn).
  - vm_compute. reflexivity.
  - vm_compute. reflexivity.
  - split; [exact Hc|]. unfold run_pubs. rewrite Hn. reflexivity.
Defined.

(* ===================================================================== *)
(** ** One row per record *)

Lemma count_upserts_lookups evs :
  Forall (fun e => is_lookup e = true) evs ->
  count_events is_upsert evs = 0%nat.
Proof.
  apply count_events_none. intros e H. destruct e; simpl in *; congruence.
Qed.

Lemma count_upserts_reads evs :
  Forall (fun e => is_select e = true \/ is_issue_count e = true) evs ->
  count_events is_upsert evs = 0%nat.
Proof.
  apply count_events_none. intros e [H|H]; destruct e; simpl in *; congruence.
Qed.

Lemma load_pubs_line_upserts loads schema api line st st' :
  load_pubs_line loads schema api line st = (Ok tt, st') ->
  count_events is_upsert (new_events st st')
  = if (line =? "")%string then 0%nat else 1%nat.
Proof.
  intros H.
  destruct (load_pubs_line_shape loads schema api line st)
    as (s1 & _ & _ & _ & (evs & Ht & F)
        & [(r & E & Hr)|(Hne & prow & row & _ & E)]);
    rewrite E in H; inversion H; subst.
  - rewrite (Hr eq_refl). simpl.
    rewrite (new_events_app _ _ _ Ht). now apply count_upserts_lookups.
  - rewrite (eqb_empty_false _ Hne).
    rewrite (new_events_app st _ (evs ++ [EvUpsert T_sim_pub row])%list).
    + rewrite count_events_app, (count_upserts_lookups _ F). reflexivity.
    + rewrite trace_upserted, Ht. now rewrite app_assoc.
Qed.

Lemma load_issues_line_upserts loads schema es line st st' :
  load_issues_line loads schema es line st = (Ok tt, st') ->
  count_events is_upsert (new_events st st')
  = if negb (line =? "")%string && negb (is_meta_item loads line)
    then 1%nat else 0%nat.
Proof.
  intros H.
  destruct (load_issues_line_shape loads schema es line st)
    as (s1 & _ & _ & _ & (evs & Ht & F)
        & [(r & E & Hr)|(Hne & Hm & irow & row & _ & E)]);
    rewrite E in H; inversion H; subst.
  - rewrite (new_events_app _ _ _ Ht), (count_upserts_reads _ F).
    destruct (Hr eq_refl) as [ -> | -> ]; simpl; [reflexivity|].
    now rewrite andb_false_r.
  - rewrite (eqb_empty_false _ Hne), Hm. simpl.
    rewrite (new_events_app st _ (evs ++ [EvUpsert T_sim_issue row])%list).
    + rewrite count_events_app, (count_upserts_reads _ F). reflexivity.
    + rewrite trace_upserted, Ht. now rewrite app_assoc.
Qed.

Lemma for_each_upserts (P : event -> Prop) (body : string -> M unit)
      (p : string -> bool) :
  (forall x, preserves (batch_step P) (body x)) ->
  (forall x st st',
     body x st = (Ok tt, st') ->
     count_events is_upsert (new_events st st') = if p x then 1%nat else 0%nat) ->
  forall lines st st',
    for_each body lines st = (Ok tt, st') ->
    extends P st st' /\
    count_events is_upsert (new_events st st') = List.length (filter p lines).
Proof.
  intros Hb Hone lines. induction lines as [|x lines IH]; intros st st' H.
  - inversion H; subst. split; [apply extends_refl|].
    now rewrite new_events_refl.
  - cbn [for_each] in H. apply bind_inv_ok in H.
    destruct H as ([] & s1 & Hx & Hrest).
    destruct (IH _ _ Hrest) as [E2 C2].
    pose proof (Hb x st) as (_ & _ & E1). rewrite Hx in E1. cbn [snd] in E1.
    split; [eapply extends_trans; eauto|].
    rewrite (new_events_trans P st s1 st' E1 E2), count_events_app.
    rewrite (Hone _ _ _ Hx), C2. cbn [filter].
    destruct (p x); reflexivity.
Qed.

Lemma loop_commit_upserts (P : event -> Prop) (body : string -> M unit)
      (p : string -> bool) lines st st' :
  (forall x, preserves (batch_step P) (body x)) ->
  (forall x st st',
     body x st = (Ok tt, st') ->
     count_events is_upsert (new_events st st') = if p x then 1%nat else 0%nat) ->
  bind (for_each body lines) (fun _ => commit) st = (Ok tt, st') ->
  count_events is_upsert (new_events st st') = List.length (filter p lines).
Proof.
  intros Hb Hone H. apply bind_inv_ok in H.
  destruct H as ([] & s1 & Hloop & Hc).
  destruct (for_each_upserts P body p Hb Hone _ _ _ Hloop) as [E C].
  destruct (extends_new_events _ _ _ E) as [Et _].
  unfold commit in Hc. inversion Hc; subst st'; clear Hc.
  rewrite (new_events_app st _ (new_events st s1 ++ [EvCommit])%list).
  - rewrite count_events_app, C. simpl. apply Nat.add_0_r.
  - simpl. rewrite Et at 1. now rewrite app_assoc.
Qed.

(** X5. A batch that succeeds has upserted exactly one row per record:
    one for each non-empty line of [load_pubs], and one for each line of
    [load_issues] that is neither empty nor a meta item.  No record is
    dropped silently. *)
Theorem one_upsert_per_record loads schema lines st st' :
  (forall api,
     load_pubs loads schema lines api st = (Ok tt, st') ->
     count_events is_upsert (new_events st st')
     = List.length (pub_records lines)) /\
  (forall es,
     load_issues loads schema lines es st = (Ok tt, st') ->
     count_events is_upsert (new_events st st')
     = List.length (issue_records loads lines)).
Proof.
  split.
  - intros api H. unfold pub_records.
    apply (loop_commit_upserts pub_event (load_pubs_line loads schema api)).
    + apply load_pubs_line_step.
    + intros x s s' Hx. rewrite (load_pubs_line_upserts _ _ _ _ _ _ Hx).
      destruct (x =? "")%string; reflexivity.
    + exact H.
  - intros es H. unfold issue_records.
    apply (loop_commit_upserts issue_event (load_issues_line loads schema es)).
    + apply load_issues_line_step.
    + intros x s s' Hx. apply (load_issues_line_upserts _ _ _ _ _ _ Hx).
    + exact H.
Qed.

Lemma one_upsert_per_record_witness :
  count_events is_upsert
    (new_events (IssueDB_init empty_tables)
       (snd (run_pubs [pub_line; ""; pub_line_unknown] (api_one entity_abc)
               (IssueDB_init empty_tables)))) = 2%nat /\
  count_events is_upsert
    (new_events (IssueDB_init db_pub_x)
       (snd (run_issues [issue_line; index_line; ""; issue_line_roman]
               (es_const 42) (IssueDB_init db_pub_x)))) = 2%nat.
Proof.
  split.
  - rewrite (proj1 (one_upsert_per_record json_loads issue_db_schema
                      [pub_line; ""; pub_line_unknown]
                      (IssueDB_init empty_tables) _) (api_one entity_abc)).
    + reflexivity.
    + vm_compute. reflexivity.
  - rewrite (proj2 (one_upsert_per_record json_loads issue_db_schema
                      [issue_line; index_line; ""; issue_line_roman]
                      (IssueDB_init db_pub_x) _) (es_const 42)).
    + reflexivity.
    + vm_compute. reflexivity.
Defined.

(* ===================================================================== *)
(** ** Rows of other keys, and reading back what was written *)

Lemma sql_eqb_text x k : sql_eqb x (SText k) = true -> x = SText k.
Proof.
  destruct x; simpl; try discriminate.
  intros H. apply String.eqb_eq in H. now subst.
Qed.

Lemma bind_param_text v k : bind_param v = Ok (SText k) -> v = PStr k.
Proof.
  destruct v; cbn [bind_param]; intros H; try discriminate H.
  - destruct ((- 2 ^ 63 <=? z) && (z <? 2 ^ 63)); discriminate H.
  - now inversion H.
Qed.

Lemma filter_filter_implied {A} (p q : A -> bool) l :
  (forall x, p x = true -> q x = true) ->
  filter p (filter q l) = filter p l.
Proof.
  intros H. induction l as [|x l IH]; cbn [filter]; [reflexivity|].
  destruct (p x) eqn:Ep.
  - rewrite (H x Ep). cbn [filter]. now rewrite Ep, IH.
  - destruct (q x); cbn [filter]; rewrite ?Ep; exact IH.
Qed.

(** An upsert keyed by the first column leaves the rows of every other
    text key as they were. *)
Lemma rows_of_key_upsert_other k row rows :
  sql_eqb (col 0 row) (SText k) = false ->
  rows_of_key k (insert_or_replace [0%nat] row rows) = rows_of_key k rows.
Proof.
  intros Hk. unfold insert_or_replace, rows_of_key. rewrite filter_app.
  cbn [filter]. rewrite Hk, app_nil_r.
  apply filter_filter_implied. intros r Er.
  apply sql_eqb_text in Er. unfold key_conflict. cbn [forallb].
  now rewrite Er, Hk.
Qed.

Lemma for_each_rel_in {A} (R : state -> state -> Prop) (body : A -> M unit) :
  (forall st, R st st) ->
  (forall a b c, R a b -> R b c -> R a c) ->
  forall xs,
    (forall x, In x xs -> forall st, R st (snd (body x st))) ->
    forall st, R st (snd (for_each body xs st)).
Proof.
  intros Hrefl Htrans xs. induction xs as [|x xs IH]; intros Hb st.
  - apply Hrefl.
  - cbn [for_each]. unfold bind.
    pose proof (Hb x (or_introl eq_refl) st) as Hx.
    destruct (body x st) as [[[]|e] s1]; cbn [snd] in *.
    + eapply Htrans; [exact Hx|]. apply IH. intros y Hy. apply Hb. now right.
    + exact Hx.
Qed.

Lemma load_pubs_line_other_key loads schema api line k st :
  key_cols (schema T_sim_pub) = [0%nat] ->
  pub_key loads line <> Some k ->
  rows_of_key k (t_sim_pub (working (snd (load_pubs_line loads schema api
                                            line st))))
  = rows_of_key k (t_sim_pub (working st)).
Proof.
  intros Hkey Hk.
  destruct (load_pubs_line loads schema api line st) as [[[]|e] st'] eqn:E;
    cbn [snd].
  2: { apply load_pubs_line_raise in E. destruct E as [-> _]. reflexivity. }
  unfold pub_key in Hk.
  destruct (line =? "")%string eqn:Hne.
  { unfold load_pubs_line in E. rewrite Hne in E. now inversion E. }
  apply String.eqb_neq in Hne.
  destruct (read_record loads line) as [[obj meta]|e] eqn:Hr.
  2: { unfold load_pubs_line in E.
       rewrite (eqb_empty_false _ Hne), lift_bind, Hr in E. discriminate E. }
  destruct (load_pubs_line_ok _ _ _ _ _ _ _ _ Hne Hr E)
    as (container & s1 & prow & row & Hc & Hp & Hb & ->).
  destruct (try_lookup_container_frame api meta st) as (Hw & _).
  rewrite Hc in Hw. cbn [snd] in Hw.
  simpl. rewrite Hkey, Hw. apply rows_of_key_upsert_other.
  destruct (sql_eqb (col 0 row) (SText k)) eqn:Ek; [|reflexivity].
  apply sql_eqb_text in Ek.
  pose proof (bind_params_nth _ _ Hb 0 _ eq_refl) as B. cbn [sim_pubid] in B.
  rewrite Ek in B. apply bind_param_text in B.
  destruct (sim_pub_row_fields _ _ _ Hp) as (Hid & _).
  rewrite B in Hid. rewrite Hid in Hk. now elim Hk.
Qed.

Lemma load_issues_line_other_key loads schema es line k st :
  key_cols (schema T_sim_issue) = [0%nat] ->
  issue_key loads line <> Some k ->
  rows_of_key k (t_sim_issue (working (snd (load_issues_line loads schema es
                                              line st))))
  = rows_of_key k (t_sim_issue (working st)).
Proof.
  intros Hkey Hk.
  destruct (load_issues_line_shape loads schema es line st)
    as (s1 & Hw & _ & _ & _ & [(r & E & _)|(Hne & Hm & irow & row & Hb & E)]).
  { rewrite E. cbn [snd]. now rewrite Hw. }
  rewrite E. cbn [snd]. simpl. rewrite Hkey, Hw.
  apply rows_of_key_upsert_other.
  destruct (issue_key loads line) as [k0|] eqn:Hik.
  - destruct (load_issues_line_upsert _ _ _ _ _ _ _ Hik E)
      as (s1' & row' & _ & Hk0 & Hs).
    assert (Hrow : row = row').
    { apply (f_equal trace) in Hs. rewrite !trace_upserted in Hs.
      apply app_inj_tail in Hs. destruct Hs as [_ Hs]. now inversion Hs. }
    subst row'. rewrite Hk0. simpl. apply String.eqb_neq.
    intros ->. now elim Hk.
  - unfold issue_key, is_meta_item in Hik, Hm.
    rewrite (eqb_empty_false _ Hne) in Hik.
    unfold load_issues_line in E. rewrite (eqb_empty_false _ Hne) in E.
    rewrite lift_bind in E.
    destruct (read_record loads line) as [[obj meta]|e]; [|discriminate E].
    cbn [fst snd] in E. rewrite lift_bind in E.
    destruct (read_issue obj meta) as [[f|]|e]; discriminate.
Qed.

Lemma loop_commit_ok_committed (body : string -> M unit) lines st st' :
  bind (for_each body lines) (fun _ => commit) st = (Ok tt, st') ->
  committed st' = working st'.
Proof.
  intros H. apply bind_inv_ok in H. destruct H as ([] & s1 & _ & Hc).
  unfold commit in Hc. now inversion Hc.
Qed.

(** X6. With the tables keyed by their first column, a batch leaves the
    rows of every publication id that none of its lines carries as they
    were, and when it succeeds these are the rows of that id in the
    database file; the same holds for [load_issues] and item ids. *)
Theorem rows_of_other_keys_are_kept loads schema lines k st :
  key_cols (schema T_sim_pub) = [0%nat] ->
  key_cols (schema T_sim_issue) = [0%nat] ->
  (forall api,
     (forall line, In line lines -> pub_key loads line <> Some k) ->
     let r := load_pubs loads schema lines api st in
     rows_of_key k (t_sim_pub (working (snd r)))
     = rows_of_key k (t_sim_pub (working st)) /\
     (fst r = Ok tt ->
      rows_of_key k (t_sim_pub (committed (snd r)))
      = rows_of_key k (t_sim_pub (working st)))) /\
  (forall es,
     (forall line, In line lines -> issue_key loads line <> Some k) ->
     let r := load_issues loads schema lines es st in
     rows_of_key k (t_sim_issue (working (snd r)))
     = rows_of_key k (t_sim_issue (working st)) /\
     (fst r = Ok tt ->
      rows_of_key k (t_sim_issue (committed (snd r)))
      = rows_of_key k (t_sim_issue (working st)))).
Proof.
  intros Kp Ki. split.
  - intros api Hl r.
    assert (Hloop : forall s,
               rows_of_key k (t_sim_pub (working
                 (snd (for_each (load_pubs_line loads schema api) lines s))))
               = rows_of_key k (t_sim_pub (working s))).
    { apply (for_each_rel_in
               (fun a b => rows_of_key k (t_sim_pub (working b))
                           = rows_of_key k (t_sim_pub (working a)))).
      - reflexivity.
      - intros a b c H1 H2. congruence.
      - intros x Hx s. apply load_pubs_line_other_key; auto. }
    assert (Hw : rows_of_key k (t_sim_pub (working (snd r)))
                 = rows_of_key k (t_sim_pub (working st))).
    { subst r. unfold load_pubs, bind. specialize (Hloop st).
      destruct (for_each (load_pubs_line loads schema api) lines st)
        as [[[]|e] s1]; cbn [snd] in *; exact Hloop. }
    split; [exact Hw|]. intros Hok. rewrite <- Hw. subst r.
    destruct (load_pubs loads schema lines api st) as [[[]|e] st'] eqn:E;
      [|discriminate Hok].
    cbn [snd]. now rewrite (loop_commit_ok_committed _ _ _ _ E).
  - intros es Hl r.
    assert (Hloop : forall s,
               rows_of_key k (t_sim_issue (working
                 (snd (for_each (load_issues_line loads schema es) lines s))))
               = rows_of_key k (t_sim_issue (working s))).
    { apply (for_each_rel_in
               (fun a b => rows_of_key k (t_sim_issue (working b))
                           = rows_of_key k (t_sim_issue (working a)))).
      - reflexivity.
      - intros a b c H1 H2. congruence.
      - intros x Hx s. apply load_issues_line_other_key; auto. }
    assert (Hw : rows_of_key k (t_sim_issue (working (snd r)))
                 = rows_of_key k (t_sim_issue (working st))).
    { subst r. unfold load_issues, bind. specialize (Hloop st).
      destruct (for_each (load_issues_line loads schema es) lines st)
        as [[[]|e] s1]; cbn [snd] in *; exact Hloop. }
    split; [exact Hw|]. intros Hok. rewrite <- Hw. subst r.
    destruct (load_issues loads schema lines es st) as [[[]|e] st'] eqn:E;
      [|discriminate Hok].
    cbn [snd]. now rewrite (loop_commit_ok_committed _ _ _ _ E).
Qed.

Lemma rows_of_other_keys_are_kept_witness :
  rows_of_key "pub_x"
    (t_sim_pub (committed (snd (run_pubs [pub_line_unknown; ""]
                                  (api_one entity_abc)
                                  (IssueDB_init db_pub_x)))))
  = t_sim_pub db_pub_x.
Proof.
  destruct (proj1 (rows_of_other_keys_are_kept json_loads issue_db_schema
                     [pub_line_unknown; ""] "pub_x" (IssueDB_init db_pub_x)
                     eq_refl eq_refl) (api_one entity_abc)) as [_ H].
  - intros line [<-|[<-|[]]]; vm_compute; discriminate.
  - unfold run_pubs. rewrite H; reflexivity.
Defined.

Lemma py_of_sql_opt o : py_of_sql (sql_opt o) = opt_str o.
Proof. now destruct o. Qed.

(** X7. Reading back what was written. With [sim_pub] keyed by its first
    column and no cache entry for the publication id, resolving the id
    right after its record was ingested - before any commit - returns the
    identifier of the container the catalog gave for the record, and
    [None] when it gave none. *)
Theorem resolving_an_ingested_publication
  loads schema api line obj meta k st st' :
  key_cols (schema T_sim_pub) = [0%nat] ->
  line <> "" ->
  read_record loads line = Ok (obj, meta) ->
  py_subscript meta "sim_pubid" = Ok (PStr k) ->
  cache_lookup (PStr k) (pubid2container_map st) = None ->
  load_pubs_line loads schema api line st = (Ok tt, st') ->
  exists container,
    fst (try_lookup_container api meta st) = Ok container /\
    fst (pubid2container (PStr k) st')
    = Ok (match container with
          | Some c => opt_str (ident c)
          | None => PNone
          end).
Proof.
  intros Hkey Hne Hr Hk Hcache Hs.
  destruct (load_pubs_line_ok _ _ _ _ _ _ _ _ Hne Hr Hs)
    as (container & s1 & prow & row & Hc & Hp & Hb & ->).
  exists container. split; [now rewrite Hc|].
  destruct (try_lookup_container_frame api meta st) as (Hw & _ & Hm & _).
  rewrite Hc in Hw, Hm. cbn [snd] in Hw, Hm.
  destruct (sim_pub_row_fields _ _ _ Hp) as (Hid & _ & H7 & _).
  rewrite Hk in Hid. inversion Hid as [Hid'].
  pose proof (bind_params_nth _ _ Hb 0 _ eq_refl) as B0.
  cbn [sim_pubid] in B0. rewrite <- Hid' in B0. simpl in B0.
  inversion B0 as [B0'].
  pose proof (bind_params_nth _ _ Hb 7 _ eq_refl) as B7. rewrite H7 in B7.
  unfold pubid2container. cbn [py_hashable negb bind_param].
  replace (pubid2container_map (upserted schema T_sim_pub row s1))
    with (pubid2container_map st) by (simpl; congruence).
  rewrite Hcache. cbn [fst]. f_equal.
  unfold select_container_ident.
  replace (filter (fun r => sql_eqb (col col_sim_pubid r) (SText k))
                  (t_sim_pub (working (upserted schema T_sim_pub row s1))))
    with [row].
  2: { symmetry. simpl. rewrite Hkey.
       apply (rows_of_key_upsert k row). now symmetry. }
  cbn [map]. unfold col_container_ident.
  destruct container as [c|].
  - rewrite bind_param_opt_str in B7. inversion B7 as [B7'].
    apply py_of_sql_opt.
  - simpl in B7. inversion B7. reflexivity.
Qed.

Lemma resolving_an_ingested_publication_witness :
  exists container,
    fst (try_lookup_container (api_one entity_abc) (metadata_of pub_line)
           (IssueDB_init empty_tables)) = Ok container /\
    fst (pubid2container (PStr "pub_x")
           (snd (load_pubs_line json_loads issue_db_schema
                   (api_one entity_abc) pub_line (IssueDB_init empty_tables))))
    = Ok (match container with
          | Some c => opt_str (ident c)
          | None => PNone
          end).
Proof.
  apply (resolving_an_ingested_publication json_loads issue_db_schema
           (api_one entity_abc) pub_line (decoded pub_line)
           (metadata_of pub_line) "pub_x" (IssueDB_init empty_tables)).
  - reflexivity.
  - vm_compute. discriminate.
  - vm_compute. reflexivity.
  - vm_compute. reflexivity.
  - reflexivity.
  - vm_compute. reflexivity.
Defined.

(* ===================================================================== *)
(** ** The page range of any record *)

Lemma isdigit_not_special c :
  char_isdigit c = true ->
  is_int_space c = false /\ (N_of_ascii c =? 45)%N = false /\
  (N_of_ascii c =? 43)%N = false.
Proof.
  unfold char_isdigit, is_ascii_digit, is_int_space. cbv zeta.
  generalize (N_of_ascii c). intros n H.
  assert (Hn : (48 <= n <= 57 \/ n = 178 \/ n = 179 \/ n = 185)%N).
  { apply orb_true_iff in H. destruct H as [H|H].
    - apply andb_true_iff in H. destruct H as [H1 H2].
      apply N.leb_le in H1. apply N.leb_le in H2. left. lia.
    - right. apply orb_true_iff in H. destruct H as [H|H];
        [apply orb_true_iff in H; destruct H as [H|H]|];
        apply N.eqb_eq in H; lia. }
  repeat split.
  - repeat (apply orb_false_iff; split).
    + apply andb_false_iff. right. apply N.leb_gt. lia.
    + apply N.eqb_neq. lia.
    + apply N.eqb_neq. lia.
    + apply N.eqb_neq. lia.
  - apply N.eqb_neq. lia.
  - apply N.eqb_neq. lia.
Qed.

Lemma digit_val_nonneg c : is_ascii_digit c = true -> 0 <= digit_val c <= 9.
Proof.
  unfold is_ascii_digit, digit_val. cbv zeta. intros H.
  apply andb_true_iff in H. destruct H as [H1 H2].
  apply N.leb_le in H1. apply N.leb_le in H2. lia.
Qed.

Lemma int_digits_nonneg l :
  forall acc b z r,
    0 <= acc -> int_digits acc b l = Some (z, r) -> 0 <= z.
Proof.
  induction l as [|c l IH]; intros acc b z r Ha H; cbn [int_digits] in H.
  - destruct b; inversion H; subst. exact Ha.
  - destruct (is_ascii_digit c) eqn:Hc.
    + eapply IH; [|exact H]. pose proof (digit_val_nonneg c Hc). lia.
    + destruct (N_of_ascii c =? 95)%N.
      * destruct b; [|discriminate H].
        destruct l as [|d l']; [discriminate H|].
        destruct (is_ascii_digit d); [|discriminate H].
        apply (IH _ _ _ _ Ha H).
      * destruct b; inversion H; subst. exact Ha.
Qed.

(** A label accepted by [isdigit] never parses to a negative number. *)
Lemma int_of_str_isdigit_nonneg s z :
  str_isdigit s = true -> int_of_str s = Ok z -> 0 <= z.
Proof.
  unfold str_isdigit, int_of_str, int_of_chars.
  destruct (list_ascii_of_string s) as [|c l]; [discriminate|].
  intros Hd. pose proof Hd as Hd'. cbn [forallb] in Hd'.
  apply andb_true_iff in Hd'. destruct Hd' as [Hc _].
  destruct (isdigit_not_special c Hc) as (Hs & Hm & Hp).
  cbn [skip_int_space]. rewrite Hs, Hm, Hp.
  destruct (int_digits 0 false (c :: l)) as [[z' rest]|] eqn:E; [|discriminate].
  destruct (skip_int_space rest); [|discriminate].
  intros H. inversion H; subst.
  apply (int_digits_nonneg _ _ _ _ _ (Z.le_refl 0) E).
Qed.

Lemma page_ints_nonneg pages :
  forall ints, page_ints pages = Ok ints -> Forall (fun z => 0 <= z) ints.
Proof.
  induction pages as [|p pages IH]; intros ints H; cbn [page_ints] in H.
  - inversion H. constructor.
  - destruct p; try discriminate H.
    destruct (str_isdigit s) eqn:Hd; [|now apply IH].
    destruct (int_of_str s) as [z|] eqn:Hz; [|discriminate H].
    cbn [rbind] in H.
    destruct (page_ints pages) as [rest|]; [|discriminate H].
    cbn [rbind] in H. inversion H; subst. constructor.
    + apply (int_of_str_isdigit_nonneg s z Hd Hz).
    + now apply IH.
Qed.

Lemma page_range_ordered obj a b :
  page_range obj = Ok (a, b) ->
  (a = None /\ b = None) \/
  (exists lo hi, a = Some lo /\ b = Some hi /\ 0 <= lo <= hi).
Proof.
  unfold page_range.
  destruct (py_get obj "page_numbers") as [pn|]; [|discriminate].
  cbn [rbind]. destruct (py_truthy pn); [|inversion 1; now left].
  destruct (py_subscript obj "page_numbers") as [pn'|]; [|discriminate].
  cbn [rbind]. destruct (py_subscript pn' "pages") as [pl|]; [|discriminate].
  cbn [rbind]. destruct (py_iter pl) as [items|]; [|discriminate].
  cbn [rbind]. destruct (page_numbers items) as [pages|]; [|discriminate].
  cbn [rbind]. destruct (page_ints pages) as [ints|] eqn:Hi; [|discriminate].
  cbn [rbind]. destruct ints as [|z zs]; intros H; inversion H; subst.
  - now left.
  - right. exists (list_min z zs), (list_max z zs). repeat split.
    + apply page_ints_nonneg in Hi. rewrite Forall_forall in Hi.
      apply Hi. apply list_min_spec.
    + destruct (list_min_spec z zs) as [_ Hmin].
      destruct (list_max_spec z zs) as [_ Hmax].
      specialize (Hmin z (or_introl eq_refl)).
      specialize (Hmax z (or_introl eq_refl)). lia.
Qed.

(** X8. For every issue record that [load_issues] turns into a row,
    [first_page] and [last_page] are absent together or present together,
    and when present they are ordered and not negative. *)
Theorem first_page_and_last_page_are_ordered obj meta f :
  read_issue obj meta = Ok (Some f) ->
  (f_first_page f = None /\ f_last_page f = None) \/
  (exists lo hi,
     f_first_page f = Some lo /\ f_last_page f = Some hi /\ 0 <= lo <= hi).
Proof.
  unfold read_issue.
  destruct (py_subscript meta "identifier") as [item|]; [|discriminate].
  cbn [rbind]. destruct item; try discriminate.
  destruct (endswith s "_index" || endswith s "_contents"); [discriminate|].
  destruct (py_subscript meta "sim_pubid"); [|discriminate]. cbn [rbind].
  destruct (issue_year meta); [|discriminate]. cbn [rbind].
  destruct (py_get meta "volume"); [|discriminate]. cbn [rbind].
  destruct (py_get meta "issue"); [|discriminate]. cbn [rbind].
  destruct (page_range obj) as [[pa pb]|] eqn:Hp; [|discriminate].
  cbn [rbind]. intros H. inversion H; subst. cbn.
  apply (page_range_ordered obj pa pb Hp).
Qed.

Lemma first_page_and_last_page_are_ordered_witness :
  (f_first_page (fields_of issue_line) = None /\
   f_last_page (fields_of issue_line) = None) \/
  (exists lo hi,
     f_first_page (fields_of issue_line) = Some lo /\
     f_last_page (fields_of issue_line) = Some hi /\ 0 <= lo <= hi).
Proof.
  apply (first_page_and_last_page_are_ordered (decoded issue_line)
           (metadata_of issue_line)).
  vm_compute. reflexivity.
Defined.

(* --------------------------------------------------------------------- *)
(** *** Labels that [isdigit] refuses *)

Lemma page_numbers_app a b :
  page_numbers (a ++ b)%list =
  rbind (page_numbers a) (fun x =>
  rbind (page_numbers b) (fun y => Ok (x ++ y)%list)).
Proof.
  induction a as [|p a IH]; cbn [app page_numbers].
  - cbn [rbind]. destruct (page_numbers b); reflexivity.
  - destruct (py_subscript p "pageNumber") as [v|]; [|reflexivity].
    cbn [rbind]. rewrite IH.
    destruct (page_numbers a) as [x|]; [|reflexivity]. cbn [rbind].
    destruct (page_numbers b) as [y|]; [|reflexivity]. cbn [rbind].
    destruct (py_truthy v); reflexivity.
Qed.

Lemma page_ints_app a b :
  page_ints (a ++ b)%list =
  rbind (page_ints a) (fun x =>
  rbind (page_ints b) (fun y => Ok (x ++ y)%list)).
Proof.
  induction a as [|p a IH]; cbn [app page_ints].
  - cbn [rbind]. destruct (page_ints b); reflexivity.
  - destruct p; try reflexivity.
    destruct (str_isdigit s).
    + destruct (int_of_str s) as [z|]; [|reflexivity]. cbn [rbind].
      rewrite IH. destruct (page_ints a) as [x|]; [|reflexivity].
      cbn [rbind]. destruct (page_ints b) as [y|]; reflexivity.
    + exact IH.
Qed.

Lemma py_subscript_truthy v k x : py_subscript v k = Ok x -> py_truthy v = true.
Proof.
  destruct v; try discriminate. destruct d; [discriminate|reflexivity].
Qed.

Lemma py_get_ok_subscript v k x :
  py_subscript v k = Ok x -> py_get v k = Ok x.
Proof.
  destruct v; try discriminate. cbn.
  destruct (dict_lookup k d); [trivial|discriminate].
Qed.

Lemma page_range_of_items obj pn items :
  py_subscript obj "page_numbers" = Ok pn ->
  py_subscript pn "pages" = Ok (PList items) ->
  page_range obj =
  rbind (page_numbers items) (fun pages =>
  rbind (page_ints pages) (fun ints =>
  match ints with
  | [] => Ok (None, None)
  | z :: zs => Ok (Some (list_min z zs), Some (list_max z zs))
  end)).
Proof.
  intros Ho Hp. unfold page_range.
  rewrite (py_get_ok_subscript _ _ _ Ho). cbn [rbind].
  rewrite (py_subscript_truthy _ _ _ Hp), Ho. cbn [rbind].
  rewrite Hp. reflexivity.
Qed.

(** X9. A page descriptor whose label [isdigit] refuses - a roman numeral,
    a blank, any text with a character that is not a digit - is invisible:
    the page range, error included, is what it would be without that
    descriptor. *)
Theorem a_label_refused_by_isdigit_is_invisible
  obj1 obj2 pn1 pn2 before p after s :
  py_subscript p "pageNumber" = Ok (PStr s) ->
  str_isdigit s = false ->
  py_subscript obj1 "page_numbers" = Ok pn1 ->
  py_subscript pn1 "pages" = Ok (PList (before ++ p :: after)) ->
  py_subscript obj2 "page_numbers" = Ok pn2 ->
  py_subscript pn2 "pages" = Ok (PList (before ++ after)) ->
  page_range obj1 = page_range obj2.
Proof.
  intros Hp Hd Ho1 Hp1 Ho2 Hp2.
  rewrite (page_range_of_items _ _ _ Ho1 Hp1).
  rewrite (page_range_of_items _ _ _ Ho2 Hp2).
  rewrite !page_numbers_app. cbn [page_numbers]. rewrite Hp. cbn [rbind].
  destruct (page_numbers before) as [x|]; [|reflexivity]. cbn [rbind].
  destruct (page_numbers after) as [y|]; [|reflexivity]. cbn [rbind].
  destruct (py_truthy (PStr s)); [|reflexivity].
  rewrite !page_ints_app. cbn [page_ints]. rewrite Hd.
  destruct (page_ints x) as [ix|]; [|reflexivity]. cbn [rbind].
  reflexivity.
Qed.

Lemma a_label_refused_by_isdigit_is_invisible_witness :
  page_range
    (PDict [("page_numbers",
             PDict [("pages", PList [descriptor "12"; descriptor "iv";
                                     descriptor "14"])])])
  = page_range
      (PDict [("page_numbers",
               PDict [("pages", PList [descriptor "12"; descriptor "14"])])]).
Proof.
  apply (a_label_refused_by_isdigit_is_invisible _ _
           (PDict [("pages", PList [descriptor "12"; descriptor "iv";
                                    descriptor "14"])])
           (PDict [("pages", PList [descriptor "12"; descriptor "14"])])
           [descriptor "12"] (descriptor "iv") [descriptor "14"] "iv");
    reflexivity.
Defined.

(* ===================================================================== *)
(** ** The year of an issue *)

Lemma str_take_app a b n :
  String.length a = n -> str_take n (a ++ b) = a.
Proof.
  unfold str_take. revert n. induction a as [|c a IH]; intros n Hn.
  - simpl in Hn. subst n. destruct b; reflexivity.
  - simpl in Hn. subst n. cbn. now rewrite IH.
Qed.

(** X10. When the [date] of an issue record is a string that begins with
    four decimal digits, the year of the record is the number these four
    digits write, whatever follows them. *)
Theorem year_is_the_first_four_digits_of_the_date meta yyyy rest :
  py_get meta "date" = Ok (PStr (yyyy ++ rest)) ->
  String.length yyyy = 4%nat ->
  digit_only yyyy = true ->
  issue_year meta = Ok (Some (decimal_value yyyy)).
Proof.
  intros Hg Hl Hd. unfold issue_year. rewrite Hg. cbn [rbind].
  assert (Ht : py_truthy (PStr (yyyy ++ rest)) = true).
  { destruct yyyy; [discriminate Hl | reflexivity]. }
  rewrite Ht, (py_get_truthy_subscript _ _ _ Hg Ht). cbn [rbind py_slice_to].
  rewrite (str_take_app _ _ _ Hl). cbn [rbind py_int].
  now rewrite (int_of_str_digit_only _ Hd).
Qed.

Lemma year_is_the_first_four_digits_of_the_date_witness :
  issue_year (metadata_of issue_line) = Ok (Some (decimal_value "1998")).
Proof.
  apply (year_is_the_first_four_digits_of_the_date _ "1998" "-03");
    reflexivity.
Defined.

Lemma int_digits_bound l :
  forall acc b z r,
    0 <= acc -> int_digits acc b l = Some (z, r) ->
    z + 1 <= (acc + 1) * 10 ^ Z.of_nat (List.length l).
Proof.
  induction l as [|c l IH]; intros acc b z r Ha H; cbn [int_digits] in H.
  - destruct b; inversion H; subst. simpl. lia.
  - assert (Hpow : 10 ^ Z.of_nat (List.length (c :: l))
                   = 10 * 10 ^ Z.of_nat (List.length l)).
    { cbn [List.length]. rewrite Nat2Z.inj_succ, Z.pow_succ_r; lia. }
    assert (Hp : 1 <= 10 ^ Z.of_nat (List.length l)).
    { apply Z.lt_succ_r. rewrite <- Z.add_1_r. apply Z.lt_add_pos_l.
      apply Z.pow_pos_nonneg; lia. }
    rewrite Hpow.
    destruct (is_ascii_digit c) eqn:Hc.
    + pose proof (digit_val_nonneg c Hc) as Hv.
      assert (H0 : 0 <= acc * 10 + digit_val c) by lia.
      pose proof (IH _ _ _ _ H0 H) as Hb. nia.
    + destruct (N_of_ascii c =? 95)%N.
      * destruct b; [|discriminate H].
        destruct l as [|d l']; [discriminate H|].
        destruct (is_ascii_digit d); [|discriminate H].
        pose proof (IH _ _ _ _ Ha H) as Hb. nia.
      * destruct b; inversion H; subst. nia.
Qed.

Lemma skip_int_space_length l :
  (List.length (skip_int_space l) <= List.length l)%nat.
Proof.
  induction l as [|c l IH]; cbn [skip_int_space]; [lia|].
  destruct (is_int_space c); cbn [List.length]; lia.
Qed.

Lemma pow10_le n m : (n <= m)%nat -> 10 ^ Z.of_nat n <= 10 ^ Z.of_nat m.
Proof. intros H. apply Z.pow_le_mono_r; lia. Qed.

Lemma int_of_chars_bound l z :
  (List.length l <= 4)%nat -> int_of_chars l = Some z -> -999 <= z <= 9999.
Proof.
  intros Hl. unfold int_of_chars.
  pose proof (skip_int_space_length l) as Hs.
  destruct (skip_int_space l) as [|c l1] eqn:E.
  - cbn. discriminate.
  - cbn [List.length] in Hs.
    destruct (N_of_ascii c =? 45)%N.
    + destruct (int_digits 0 false l1) as [[z' rest]|] eqn:Ed; [|discriminate].
      destruct (skip_int_space rest); [|discriminate].
      intros H. inversion H; subst.
      pose proof (int_digits_bound _ _ _ _ _ (Z.le_refl 0) Ed) as Hb.
      pose proof (int_digits_nonneg _ _ _ _ _ (Z.le_refl 0) Ed) as Hn.
      pose proof (pow10_le (List.length l1) 3 ltac:(lia)) as Hp.
      change (10 ^ Z.of_nat 3) with 1000 in Hp. lia.
    + destruct (N_of_ascii c =? 43)%N.
      * destruct (int_digits 0 false l1) as [[z' rest]|] eqn:Ed;
          [|discriminate].
        destruct (skip_int_space rest); [|discriminate].
        intros H. inversion H; subst.
        pose proof (int_digits_bound _ _ _ _ _ (Z.le_refl 0) Ed) as Hb.
        pose proof (int_digits_nonneg _ _ _ _ _ (Z.le_refl 0) Ed) as Hn.
        pose proof (pow10_le (List.length l1) 3 ltac:(lia)) as Hp.
        change (10 ^ Z.of_nat 3) with 1000 in Hp. lia.
      * destruct (int_digits 0 false (c :: l1)) as [[z' rest]|] eqn:Ed;
          [|discriminate].
        destruct (skip_int_space rest); [|discriminate].
        intros H. inversion H; subst.
        pose proof (int_digits_bound _ _ _ _ _ (Z.le_refl 0) Ed) as Hb.
        pose proof (int_digits_nonneg _ _ _ _ _ (Z.le_refl 0) Ed) as Hn.
        pose proof (pow10_le (List.length (c :: l1)) 4
                      ltac:(cbn [List.length]; lia)) as Hp.
        change (10 ^ Z.of_nat 4) with 10000 in Hp. lia.
Qed.

Lemma str_take_length n s :
  (List.length (list_ascii_of_string (str_take n s)) <= n)%nat.
Proof.
  unfold str_take. revert s. induction n as [|n IH]; intros s.
  - destruct s; cbn; lia.
  - destruct s as [|c s]; cbn; [lia|]. specialize (IH s). lia.
Qed.

(** X11. The year of an issue record, when it has one, is read from at
    most four characters: it lies between -999 and 9999. *)
Theorem the_year_has_at_most_four_digits meta y :
  issue_year meta = Ok (Some y) -> -999 <= y <= 9999.
Proof.
  unfold issue_year.
  destruct (py_get meta "date") as [date|]; [|discriminate]. cbn [rbind].
  destruct (py_truthy date); [|discriminate].
  destruct (py_subscript meta "date") as [d|]; [|discriminate]. cbn [rbind].
  destruct d; cbn [py_slice_to rbind py_int]; try discriminate.
  unfold int_of_str.
  destruct (int_of_chars (list_ascii_of_string (str_take 4 s))) as [z|] eqn:E;
    [|discriminate].
  intros H. inversion H; subst.
  apply (int_of_chars_bound _ _ (str_take_length 4 s) E).
Qed.

Lemma the_year_has_at_most_four_digits_witness : -999 <= 1998 <= 9999.
Proof.
  apply (the_year_has_at_most_four_digits (metadata_of issue_line) 1998).
  reflexivity.
Defined.

(* ===================================================================== *)
(** ** The count query and the row of an issue *)

Lemma pubid2container_working k st :
  working (snd (pubid2container k st)) = working st.
Proof.
  destruct (pubid2container_cases k st)
    as [[_ E]|[(_ & v & _ & E)|[(_ & _ & e & _ & E)|(_ & _ & x & v & _ & _ & E)]]];
    rewrite E; reflexivity.
Qed.

(** X12. Once an issue record has truthy year, volume and issue and its
    publication resolves to a truthy container id, the count query decides
    what happens to it: the count it returns is the [release_count] of the
    row that is upserted, and its failure is the failure of the record,
    which then writes nothing. *)
Theorem the_count_query_decides_the_record
  loads schema es line obj meta f c y s1 st :
  line <> "" ->
  read_record loads line = Ok (obj, meta) ->
  read_issue obj meta = Ok (Some f) ->
  f_year f = Some y ->
  triple_truthy (f_year f) (f_volume f) (f_issue f) = true ->
  pubid2container (f_sim_pubid f) st = (Ok c, s1) ->
  py_truthy c = true ->
  let s2 := log (EvIssueCount c y (f_volume f) (f_issue f)) s1 in
  match es (trace s1) c y (f_volume f) (f_issue f) with
  | Ok n =>
      forall st',
        load_issues_line loads schema es line st = (Ok tt, st') ->
        exists row,
          st' = upserted schema T_sim_issue row s2 /\
          col col_release_count row = SInt n
  | Raise e =>
      load_issues_line loads schema es line st = (Raise e, s2) /\
      working s2 = working st
  end.
Proof.
  intros Hne Hr Hf Hy Ht Hp Hc s2.
  rewrite (load_issues_line_unfold _ _ _ _ _ _ _ _ Hne Hr Hf).
  assert (Hi : issue_release_count es f st =
               (match es (trace s1) c y (f_volume f) (f_issue f) with
                | Ok n => Ok (Some n)
                | Raise e => Raise e
                end, s2)).
  { unfold issue_release_count. rewrite Ht, Hy. unfold bind.
    rewrite Hp, Hc. unfold es_issue_count, ret.
    destruct (es (trace s1) c y (f_volume f) (f_issue f)); reflexivity. }
  unfold bind. rewrite Hi.
  destruct (es (trace s1) c y (f_volume f) (f_issue f)) as [n|e].
  - intros st' H. unfold insert_sim_issue in H.
    apply execute_insert_ok in H. destruct H as (row & Hb & ->).
    exists row. split; [reflexivity|].
    pose proof (bind_params_nth _ _ Hb 7 _ eq_refl) as B.
    cbn [release_count opt_int bind_param] in B.
    destruct ((- 2 ^ 63 <=? n) && (n <? 2 ^ 63)); [|discriminate B].
    unfold col_release_count. congruence.
  - split; [reflexivity|]. subst s2. simpl.
    pose proof (pubid2container_working (f_sim_pubid f) st) as Hw.
    now rewrite Hp in Hw.
Qed.

Lemma the_count_query_decides_the_record_witness :
  (forall st',
     load_issues_line json_loads issue_db_schema (es_const 42) issue_line
       (IssueDB_init db_pub_x) = (Ok tt, st') ->
     exists row,
       st' = upserted issue_db_schema T_sim_issue row
               (log (EvIssueCount (PStr "abc123") 1998 (PStr "12") (PStr "3"))
                    (snd (pubid2container (PStr "pub_x")
                            (IssueDB_init db_pub_x)))) /\
       col col_release_count row = SInt 42) /\
  load_issues_line json_loads issue_db_schema
    (fun _ _ _ _ _ => Raise (ExternalError "connection refused")) issue_line
    (IssueDB_init db_pub_x)
  = (Raise (ExternalError "connection refused"),
     log (EvIssueCount (PStr "abc123") 1998 (PStr "12") (PStr "3"))
         (snd (pubid2container (PStr "pub_x") (IssueDB_init db_pub_x)))).
Proof.
  assert (Hne : issue_line <> "") by (vm_compute; discriminate).
  assert (Hr : read_record json_loads issue_line
               = Ok (decoded issue_line, metadata_of issue_line))
    by (vm_compute; reflexivity).
  assert (Hf : read_issue (decoded issue_line) (metadata_of issue_line)
               = Ok (Some (fields_of issue_line)))
    by (vm_compute; reflexivity).
  assert (Hp : pubid2container (f_sim_pubid (fields_of issue_line))
                 (IssueDB_init db_pub_x)
               = (Ok (PStr "abc123"),
                  snd (pubid2container (PStr "pub_x") (IssueDB_init db_pub_x))))
    by (vm_compute; reflexivity).
  split.
  - exact (the_count_query_decides_the_record json_loads issue_db_schema
             (es_const 42) issue_line _ _ _ (PStr "abc123") 1998 _
             (IssueDB_init db_pub_x) Hne Hr Hf eq_refl eq_refl Hp eq_refl).
  - exact (proj1 (the_count_query_decides_the_record json_loads
             issue_db_schema
             (fun _ _ _ _ _ => Raise (ExternalError "connection refused"))
             issue_line _ _ _ (PStr "abc123") 1998 _
             (IssueDB_init db_pub_x) Hne Hr Hf eq_refl eq_refl Hp eq_refl)).
Defined.

(* ===================================================================== *)
(** ** The row of a publication *)

Lemma read_record_meta_dict loads line obj meta :
  read_record loads line = Ok (obj, meta) -> exists d, meta = PDict d.
Proof.
  unfold read_record.
  destruct (loads line) as [o|]; [|discriminate]. cbn [rbind].
  destruct (py_subscript o "metadata") as [m|]; [|discriminate]. cbn [rbind].
  destruct (py_subscript m "collection") as [coll|] eqn:Hc; [|discriminate].
  cbn [rbind].
  destruct (py_contains "periodicals" coll) as [[|]|]; try discriminate.
  cbn [rbind]. intros H. inversion H; subst.
  destruct meta; try discriminate Hc. now exists d.
Qed.

Lemma py_subscript_dict_cases d k :
  (exists v, py_subscript (PDict d) k = Ok v) \/
  py_subscript (PDict d) k = Raise (KeyError k).
Proof.
  cbn. destruct (dict_lookup k d) as [v|]; [left; now exists v | now right].
Qed.

(** X13. A publication record without [sim_pubid], [identifier] or [title]
    raises [KeyError] for one of these three fields - but only after its
    container has been looked up: the catalog call of the record has been
    made by then, and no row is written. *)
Theorem a_missing_required_field_raises_after_the_lookup
  loads schema api line obj meta container s1 st k :
  line <> "" ->
  read_record loads line = Ok (obj, meta) ->
  try_lookup_container api meta st = (Ok container, s1) ->
  In k ["sim_pubid"; "identifier"; "title"] ->
  py_subscript meta k = Raise (KeyError k) ->
  exists k',
    In k' ["sim_pubid"; "identifier"; "title"] /\
    load_pubs_line loads schema api line st = (Raise (KeyError k'), s1) /\
    working s1 = working st.
Proof.
  intros Hne Hr Hc Hk Hmiss.
  destruct (read_record_meta_dict _ _ _ _ Hr) as (d & ->).
  assert (Hw : working s1 = working st).
  { destruct (try_lookup_container_frame api (PDict d) st) as (Hw & _).
    now rewrite Hc in Hw. }
  unfold load_pubs_line. rewrite (eqb_empty_false _ Hne), lift_bind, Hr.
  cbn [snd]. unfold bind at 1. rewrite Hc, lift_bind. unfold sim_pub_row.
  destruct (py_subscript_dict_cases d "sim_pubid") as [(v1 & E1)|E1];
    rewrite E1; cbn [rbind].
  2: { exists "sim_pubid". repeat split; auto. now left. }
  destruct (py_subscript_dict_cases d "identifier") as [(v2 & E2)|E2];
    rewrite E2; cbn [rbind].
  2: { exists "identifier". repeat split; auto. right. now left. }
  destruct (py_subscript_dict_cases d "title") as [(v3 & E3)|E3];
    rewrite E3; cbn [rbind].
  2: { exists "title". repeat split; auto. right. right. now left. }
  destruct Hk as [<-|[<-|[<-|[]]]]; congruence.
Qed.

Lemma a_missing_required_field_raises_after_the_lookup_witness :
  let line := json_text
    "{'metadata': {'collection': 'periodicals', 'sim_pubid': 'p', 'issn': '1234-5678'}}" in
  exists k',
    In k' ["sim_pubid"; "identifier"; "title"] /\
    load_pubs_line json_loads issue_db_schema (api_one entity_full) line
      (IssueDB_init empty_tables)
    = (Raise (KeyError k'),
       log (EvLookupContainer (PStr "1234-5678")) (IssueDB_init empty_tables)) /\
    working (log (EvLookupContainer (PStr "1234-5678"))
                 (IssueDB_init empty_tables))
    = working (IssueDB_init empty_tables).
Proof.
  intros line.
  apply (a_missing_required_field_raises_after_the_lookup json_loads
           issue_db_schema (api_one entity_full) line (decoded line)
           (metadata_of line) (Some entity_full) _ _ "title").
  - vm_compute. discriminate.
  - vm_compute. reflexivity.
  - vm_compute. reflexivity.
  - right. right. now left.
  - vm_compute. reflexivity.
Defined.

Lemma bind_params_length vs row :
  bind_params vs = Ok row -> List.length row = List.length vs.
Proof.
  revert row. induction vs as [|v vs IH]; intros row H; cbn in H.
  - now inversion H.
  - destruct (bind_param v); [|discriminate H]. cbn [rbind] in H.
    destruct (bind_params vs) as [xs|]; [|discriminate H]. cbn [rbind] in H.
    inversion H; subst. cbn. now rewrite (IH xs eq_refl).
Qed.

Lemma sim_pub_row_record meta container prow :
  sim_pub_row meta container = Ok prow ->
  py_subscript meta "sim_pubid" = Ok (sim_pubid prow) /\
  py_subscript meta "identifier" = Ok (pub_collection prow) /\
  py_subscript meta "title" = Ok (title prow) /\
  py_get meta "issn" = Ok (issn prow) /\
  py_get meta "pub_type" = Ok (pub_type prow) /\
  py_get meta "publisher" = Ok (publisher prow).
Proof.
  unfold sim_pub_row.
  destruct (py_subscript meta "sim_pubid") as [a|]; [|discriminate].
  destruct (py_subscript meta "identifier") as [b|]; [|discriminate].
  destruct (py_subscript meta "title") as [c|]; [|discriminate].
  destruct (py_get meta "issn") as [d|]; [|discriminate].
  destruct (py_get meta "pub_type") as [e|]; [|discriminate].
  destruct (py_get meta "publisher") as [f|]; [|discriminate].
  simpl. intros H. inversion H; subst; clear H. simpl. repeat split.
Qed.

(** X14. The row that a publication record upserts has nine columns; the
    first three hold the record's [sim_pubid], [identifier] and [title],
    and the next three its [issn], [pub_type] and [publisher], NULL for
    those the record does not have. *)
Theorem the_publication_row_holds_the_record
  loads schema api line obj meta st st' :
  line <> "" ->
  read_record loads line = Ok (obj, meta) ->
  load_pubs_line loads schema api line st = (Ok tt, st') ->
  exists row,
    In (EvUpsert T_sim_pub row) (new_events st st') /\
    List.length row = 9%nat /\
    (forall i k,
       nth_error ["sim_pubid"; "identifier"; "title"] i = Some k ->
       exists v, py_subscript meta k = Ok v /\ bind_param v = Ok (col i row)) /\
    (forall i k,
       nth_error ["issn"; "pub_type"; "publisher"] i = Some k ->
       exists v, py_get meta k = Ok v /\ bind_param v = Ok (col (3 + i) row)).
Proof.
  intros Hne Hr Hs.
  destruct (load_pubs_line_ok _ _ _ _ _ _ _ _ Hne Hr Hs)
    as (container & s1 & prow & row & Hc & Hp & Hb & ->).
  exists row. split; [|split; [|split]].
  - destruct (try_lookup_container_frame api meta st) as (_ & _ & _ & evs & Ht & _).
    rewrite Hc in Ht. cbn [snd] in Ht.
    rewrite (new_events_app st _ (evs ++ [EvUpsert T_sim_pub row])%list).
    + apply in_or_app. right. now left.
    + rewrite trace_upserted, Ht. now rewrite app_assoc.
  - now rewrite (bind_params_length _ _ Hb).
  - destruct (sim_pub_row_record _ _ _ Hp) as (H0 & H1 & H2 & _).
    intros i k Hi.
    destruct i as [|[|[|i]]]; cbn in Hi;
      [| | |destruct i; discriminate Hi];
      inversion Hi; subst; eexists; (split; [eassumption|]);
      apply (bind_params_nth _ _ Hb); reflexivity.
  - destruct (sim_pub_row_record _ _ _ Hp) as (_ & _ & _ & H3 & H4 & H5).
    intros i k Hi.
    destruct i as [|[|[|i]]]; cbn in Hi;
      [| | |destruct i; discriminate Hi];
      inversion Hi; subst; eexists; (split; [eassumption|]);
      apply (bind_params_nth _ _ Hb); reflexivity.
Qed.

Lemma the_publication_row_holds_the_record_witness :
  exists row,
    In (EvUpsert T_sim_pub row)
       (new_events (IssueDB_init empty_tables)
          (snd (load_pubs_line json_loads issue_db_schema (api_one entity_abc)
                  pub_line (IssueDB_init empty_tables)))) /\
    List.length row = 9%nat /\
    (forall i k,
       nth_error ["sim_pubid"; "identifier"; "title"] i = Some k ->
       exists v, py_subscript (metadata_of pub_line) k = Ok v /\
                 bind_param v = Ok (col i row)) /\
    (forall i k,
       nth_error ["issn"; "pub_type"; "publisher"] i = Some k ->
       exists v, py_get (metadata_of pub_line) k = Ok v /\
                 bind_param v = Ok (col (3 + i) row)).
Proof.
  apply (the_publication_row_holds_the_record json_loads issue_db_schema
           (api_one entity_abc) pub_line (decoded pub_line)
           (metadata_of pub_line) (IssueDB_init empty_tables)).
  - vm_compute. discriminate.
  - vm_compute. reflexivity.
  - vm_compute. reflexivity.
Defined.

(* ===================================================================== *)
(** ** Which records are meta items *)

Lemma prefix_spec a b : prefix a b = true <-> exists c, b = a ++ c.
Proof.
  revert b. induction a as [|x a IH]; intros b.
  - split; [intros _; now exists b | intros _; now destruct b].
  - destruct b as [|y b]; cbn.
    + split; [discriminate | intros (c & H); discriminate H].
    + destruct (ascii_dec x y) as [->|Hn].
      * rewrite IH. split; intros (c & H); exists c.
        -- now rewrite H.
        -- now inversion H.
      * split; [discriminate|]. intros (c & H). inversion H. now elim Hn.
Qed.

Lemma list_ascii_of_string_app a b :
  list_ascii_of_string (a ++ b)
  = (list_ascii_of_string a ++ list_ascii_of_string b)%list.
Proof. induction a as [|x a IH]; cbn; [reflexivity | now rewrite IH]. Qed.

Lemma string_of_list_ascii_app l1 l2 :
  string_of_list_ascii (l1 ++ l2)%list
  = string_of_list_ascii l1 ++ string_of_list_ascii l2.
Proof. induction l1 as [|x l1 IH]; cbn; [reflexivity | now rewrite IH]. Qed.

Lemma string_rev_app a b : string_rev (a ++ b) = string_rev b ++ string_rev a.
Proof.
  unfold string_rev.
  now rewrite list_ascii_of_string_app, rev_app_distr, string_of_list_ascii_app.
Qed.

Lemma string_rev_involutive s : string_rev (string_rev s) = s.
Proof.
  unfold string_rev.
  now rewrite list_ascii_of_string_of_list_ascii, rev_involutive,
    string_of_list_ascii_of_string.
Qed.

(** [endswith] holds exactly of the strings that end with the suffix. *)
Lemma endswith_spec s suffix :
  endswith s suffix = true <-> exists p, s = p ++ suffix.
Proof.
  unfold endswith. rewrite prefix_spec. split.
  - intros (c & H). exists (string_rev c).
    rewrite <- (string_rev_involutive s), H, string_rev_app.
    now rewrite string_rev_involutive.
  - intros (p & ->). exists (string_rev p). apply string_rev_app.
Qed.

(** X15. An issue record that passed the collection check is skipped as a
    meta item exactly when its [identifier] is a string that ends with
    [_index] or with [_contents]; no other record is skipped. *)
Theorem a_meta_item_is_an_identifier_suffix loads line obj meta :
  read_record loads line = Ok (obj, meta) ->
  (is_meta_item loads line = true <->
   exists p,
     py_subscript meta "identifier" = Ok (PStr (p ++ "_index")) \/
     py_subscript meta "identifier" = Ok (PStr (p ++ "_contents"))).
Proof.
  intros Hr. unfold is_meta_item. rewrite Hr. unfold read_issue.
  destruct (py_subscript meta "identifier") as [item|e]; cbn [rbind].
  2: { split; [discriminate|]. intros (p & [H|H]); discriminate H. }
  destruct item as [| | |s| |];
    try (split; [discriminate|]; intros (p & [H|H]); discriminate H).
  destruct (endswith s "_index" || endswith s "_contents") eqn:Es.
  - split; [intros _|reflexivity].
    apply orb_true_iff in Es. destruct Es as [Es|Es];
      apply endswith_spec in Es; destruct Es as (p & ->); exists p; auto.
  - split.
    + destruct (py_subscript meta "sim_pubid"); [|discriminate]. cbn [rbind].
      destruct (issue_year meta); [|discriminate]. cbn [rbind].
      destruct (py_get meta "volume"); [|discriminate]. cbn [rbind].
      destruct (py_get meta "issue"); [|discriminate]. cbn [rbind].
      destruct (page_range obj); discriminate.
    + intros (p & [H|H]); inversion H; subst s;
        apply orb_false_iff in Es; destruct Es as [E1 E2].
      * assert (E : endswith (p ++ "_index") "_index" = true)
          by (apply endswith_spec; now exists p).
        congruence.
      * assert (E : endswith (p ++ "_contents") "_contents" = true)
          by (apply endswith_spec; now exists p).
        congruence.
Qed.

Lemma a_meta_item_is_an_identifier_suffix_witness :
  is_meta_item json_loads index_line = true <->
  exists p,
    py_subscript (metadata_of index_line) "identifier"
    = Ok (PStr (p ++ "_index")) \/
    py_subscript (metadata_of index_line) "identifier"
    = Ok (PStr (p ++ "_contents")).
Proof.
  apply (a_meta_item_is_an_identifier_suffix json_loads index_line
           (decoded index_line)).
  vm_compute. reflexivity.
Defined.

(* ===================================================================== *)
(** ** The command line *)

Lemma loop_commit_raise_committed (P : event -> Prop)
      (body : string -> M unit) lines st e st' :
  (forall x, preserves (batch_step P) (body x)) ->
  bind (for_each body lines) (fun _ => commit) st = (Raise e, st') ->
  committed st' = committed st.
Proof.
  intros Hb H. unfold bind in H.
  destruct (for_each body lines st) as [[[]|e'] s1] eqn:E.
  - unfold commit in H. discriminate H.
  - inversion H; subst. apply (for_each_committed P body lines st _ _ Hb E).
Qed.

(** X16. A run of the command with the [load_pubs] or the [load_issues]
    subcommand changes at most the table of that subcommand, and only when
    it ends normally: a [load_pubs] run leaves the issue and release-count
    tables of the database file as they were, a [load_issues] run the
    publication and release-count tables, and either run, when it ends
    with an uncaught exception, leaves the whole file as it was.  A run
    without a subcommand exits with status -1 and leaves the file as it
    was.  (The [init_db] subcommand runs a schema file that the source
    tree does not hold; nothing is stated of it.) *)
Theorem a_load_run_changes_only_its_own_table
  loads schema init_db api es db :
  main loads schema init_db api es no_subcommand db = (Exit (-1), db) /\
  (forall json_file,
     let r := main loads schema init_db api es (sub_load_pubs json_file) db in
     t_sim_issue (snd r) = t_sim_issue db /\
     t_release_counts (snd r) = t_release_counts db /\
     (fst r = Done \/ exists e, fst r = Uncaught e /\ snd r = db)) /\
  (forall json_file,
     let r := main loads schema init_db api es (sub_load_issues json_file) db in
     t_sim_pub (snd r) = t_sim_pub db /\
     t_release_counts (snd r) = t_release_counts db /\
     (fst r = Done \/ exists e, fst r = Uncaught e /\ snd r = db)).
Proof.
  split; [reflexivity|]. split; intros f; cbn [main fst snd].
  - assert (Hf : pub_frame (IssueDB_init db)
                   (snd (load_pubs loads schema f api (IssueDB_init db)))).
    { apply (loop_commit_rel pub_frame).
      - apply pub_frame_refl.
      - apply pub_frame_trans.
      - intros x s. apply load_pubs_line_frame.
      - intros s. repeat split. exists [EvCommit]. now split. }
    destruct (load_pubs loads schema f api (IssueDB_init db))
      as [[[]|e] st'] eqn:E; cbn [fst snd] in *.
    + destruct Hf as (Hi & Hr & _).
      rewrite (loop_commit_ok_committed _ _ _ _ E).
      repeat split; [exact Hi | exact Hr | now left].
    + rewrite (loop_commit_raise_committed pub_event _ _ _ _ _
                 (load_pubs_line_step loads schema api) E).
      repeat split. right. now exists e.
  - assert (Hf : issue_frame (IssueDB_init db)
                   (snd (load_issues loads schema f es (IssueDB_init db)))).
    { apply (loop_commit_rel issue_frame).
      - apply issue_frame_refl.
      - apply issue_frame_trans.
      - intros x s. apply load_issues_line_frame.
      - intros s. repeat split. exists [EvCommit]. now split. }
    destruct (load_issues loads schema f es (IssueDB_init db))
      as [[[]|e] st'] eqn:E; cbn [fst snd] in *.
    + destruct Hf as (Hi & Hr & _).
      rewrite (loop_commit_ok_committed _ _ _ _ E).
      repeat split; [exact Hi | exact Hr | now left].
    + rewrite (loop_commit_raise_committed issue_event _ _ _ _ _
                 (load_issues_line_step loads schema es) E).
      repeat split. right. now exists e.
Qed.

Example a_run_of_load_issues :
  main json_loads issue_db_schema (ret tt) (api_status 500) (es_const 42)
       (sub_load_issues [issue_line; index_line]) db_pub_x
  = (Done,
     {| t_sim_pub := t_sim_pub db_pub_x;
        t_sim_issue := [[SText "sim_x_1998-03"; SText "pub_x"; SInt 1998;
                         SText "12"; SText "3"; SInt 12; SInt 14; SInt 42]];
        t_release_counts := [] |}).
Proof. reflexivity. Qed.

Example a_run_that_fails :
  main json_loads issue_db_schema (ret tt) (api_status 500) (es_const 42)
       (sub_load_pubs [pub_line]) db_pub_x
  = (Uncaught (ApiException 500), db_pub_x).
Proof. reflexivity. Qed.

(* ===================================================================== *)
(** ** Publications the store does not know, records without an ISSN *)

(** X17. A publication id with no row in [sim_pub] and no cache entry
    resolves to [None] with one read of the store, and stays unresolved
    for the rest of the run: every later resolution returns [None] without
    reading the store again, even when the publication has been ingested
    in between. *)
Theorem an_unknown_publication_stays_unresolved loads schema k st :
  rows_of_key k (t_sim_pub (working st)) = [] ->
  cache_lookup (PStr k) (pubid2container_map st) = None ->
  let s1 := snd (pubid2container (PStr k) st) in
  pubid2container (PStr k) st = (Ok PNone, s1) /\
  new_events st s1 = [EvSelectContainer (PStr k)] /\
  forall st2,
    later loads schema s1 st2 -> pubid2container (PStr k) st2 = (Ok PNone, st2).
Proof.
  intros Hrows Hc s1.
  assert (E : pubid2container (PStr k) st
              = (Ok PNone,
                 set_cache (cache_set (PStr k) PNone (pubid2container_map st))
                           (log (EvSelectContainer (PStr k)) st))).
  { unfold pubid2container. cbn [py_hashable negb bind_param]. rewrite Hc.
    unfold select_container_ident, col_sim_pubid.
    change (filter (fun r => sql_eqb (col 0 r) (SText k))
                   (t_sim_pub (working st)))
      with (rows_of_key k (t_sim_pub (working st))).
    now rewrite Hrows. }
  subst s1. rewrite E. cbn [snd]. split; [reflexivity|]. split.
  - now apply new_events_app.
  - intros st2 Hl.
    destruct (pubid2container_ok_cached _ _ _ _ E) as [Hk Hcached].
    apply pubid2container_cached; [exact Hk|].
    apply (later_cache_grows _ _ _ _ Hl). exact Hcached.
Qed.

Lemma an_unknown_publication_stays_unresolved_witness :
  let s1 := snd (pubid2container (PStr "pub_x") (IssueDB_init empty_tables)) in
  let s2 := snd (load_pubs_line json_loads issue_db_schema
                   (api_one entity_abc) pub_line s1) in
  t_sim_pub (working s2)
  = [[SText "pub_x"; SText "pub_x_coll"; SText "X"; SText "1234-5678";
      SNull; SNull; SText "1234-5678"; SText "abc123"; SNull]] /\
  pubid2container (PStr "pub_x") s2 = (Ok PNone, s2).
Proof.
  intros s1 s2. split; [reflexivity|].
  apply (proj2 (proj2 (an_unknown_publication_stays_unresolved json_loads
                         issue_db_schema "pub_x" (IssueDB_init empty_tables)
                         eq_refl eq_refl))).
  apply later_pub, later_now.
Defined.

(** X18. A publication record without a truthy [issn] - none, [null] or
    the empty string - is ingested without any catalog call, and the three
    resolved columns of its row are NULL. *)
Theorem a_record_without_issn_is_not_looked_up
  loads schema api line obj meta i st :
  line <> "" ->
  read_record loads line = Ok (obj, meta) ->
  py_get meta "issn" = Ok i ->
  py_truthy i = false ->
  let st' := snd (load_pubs_line loads schema api line st) in
  count_events is_lookup (new_events st st') = 0%nat /\
  forall row,
    In (EvUpsert T_sim_pub row) (new_events st st') ->
    resolved_columns row = [SNull; SNull; SNull].
Proof.
  intros Hne Hr Hg Ht st'.
  assert (Hstep : load_pubs_line loads schema api line st =
                  match sim_pub_row meta None with
                  | Ok prow => insert_sim_pub schema prow st
                  | Raise e => (Raise e, st)
                  end).
  { unfold load_pubs_line. rewrite (eqb_empty_false _ Hne), lift_bind, Hr.
    cbn [snd]. unfold bind at 1.
    rewrite (try_lookup_container_falsy api meta i st Hg Ht).
    now rewrite lift_bind. }
  subst st'. rewrite Hstep.
  destruct (sim_pub_row meta None) as [prow|e] eqn:Hp; cbn [snd].
  2: { rewrite new_events_refl. split; [reflexivity|]. intros row Hin. exact (False_ind _ Hin). }
  unfold insert_sim_pub.
  destruct (execute_insert schema T_sim_pub 9 (SimPubRow_tuple prow) st)
    as [[[]|e] s2] eqn:E; cbn [snd].
  - apply execute_insert_ok in E. destruct E as (row & Hb & ->).
    rewrite (new_events_app st _ [EvUpsert T_sim_pub row]);
      [|apply trace_upserted].
    split; [reflexivity|]. intros row' [Hin|[]]. inversion Hin; subst row'.
    destruct (sim_pub_row_fields _ _ _ Hp) as (_ & H6 & H7 & H8).
    pose proof (bind_params_nth _ _ Hb 6 _ eq_refl) as B6.
    pose proof (bind_params_nth _ _ Hb 7 _ eq_refl) as B7.
    pose proof (bind_params_nth _ _ Hb 8 _ eq_refl) as B8.
    rewrite H6 in B6. rewrite H7 in B7. rewrite H8 in B8.
    simpl in B6, B7, B8. unfold resolved_columns, col_container_issnl,
      col_container_ident, col_wikidata_qid. congruence.
  - apply execute_insert_raise in E. subst s2. rewrite new_events_refl.
    split; [reflexivity|]. intros row Hin. exact (False_ind _ Hin).
Qed.

Lemma a_record_without_issn_is_not_looked_up_witness :
  let line := json_text
    "{'metadata': {'collection': 'periodicals', 'sim_pubid': 'p', 'identifier': 'c', 'title': 'T', 'issn': ''}}" in
  let st' := snd (load_pubs_line json_loads issue_db_schema (api_status 500)
                    line (IssueDB_init empty_tables)) in
  count_events is_lookup (new_events (IssueDB_init empty_tables) st') = 0%nat /\
  forall row,
    In (EvUpsert T_sim_pub row) (new_events (IssueDB_init empty_tables) st') ->
    resolved_columns row = [SNull; SNull; SNull].
Proof.
  intros line.
  apply (a_record_without_issn_is_not_looked_up json_loads issue_db_schema
           (api_status 500) line (decoded line) (metadata_of line) (PStr "")).
  - vm_compute. discriminate.
  - vm_compute. reflexivity.
  - vm_compute. reflexivity.
  - reflexivity.
Defined.
